(** * ran-simulator: a shallow embedding of the topology generator, the UE
    store, the RRC driver, the KPM / MHO service models and the names of the
    E2 manager, with the properties of the specification proved (or refuted)
    against it, and further properties (X1, X2, ...) that the code shows.

    Part I holds the embedding, package by package and under the names of the
    Go sources.  Part II holds the theorems. *)

From Stdlib Require Import ZArith Lia Ascii.
From Stdlib Require Strings.Byte.
From Stdlib Require Import Floats.PrimFloat Floats.FloatOps Floats.SpecFloat.
From stdpp Require Import base option list gmap strings pretty.

Open Scope Z_scope.

(* ===================================================================== *)
(** * Part I: the embedding                                               *)
(* ===================================================================== *)

(** ** The Go runtime: panics, conversions, map iteration *)
Module go.

(** The run-time panics the modelled code can raise. *)
Inductive panic :=
| IndexOutOfRange (index length : Z)
| IntegerDivideByZero
| NilDereference
| Explicit (msg : string).

(** A Go call either returns a value or unwinds with a panic. *)
Inductive result (A : Type) : Type :=
| Returned (a : A)
| Panicked (p : panic).
Arguments Returned {A} a.
Arguments Panicked {A} p.

#[export] Instance result_ret : MRet result := @Returned.
#[export] Instance result_bind : MBind result :=
  λ A B f r, match r with Returned a => f a | Panicked p => Panicked p end.

(** [for _, x := range l { s = body x s }], stopping at the first panic. *)
Fixpoint forEach {A S : Type} (body : A → S → result S) (l : list A) (s : S)
  : result S :=
  match l with
  | [] => Returned s
  | x :: l' => s' ← body x s; forEach body l' s'
  end.

(** Conversion to a w-bit unsigned and to a 32-bit signed integer. *)
Definition wrap (w : Z) (z : Z) : Z := z mod 2 ^ w.
Definition uint8 := wrap 8.
Definition uint32 := wrap 32.
Definition uint64 := wrap 64.
Definition int32 (z : Z) : Z := (z + 2 ^ 31) mod 2 ^ 32 - 2 ^ 31.
Definition int64 (z : Z) : Z := (z + 2 ^ 63) mod 2 ^ 64 - 2 ^ 63.

(** [float64(z)] for an integer [z]: the nearest binary64 value. *)
Definition float64 (z : Z) : float :=
  SF2Prim (binary_normalize prec emax z 0 false).

(** [int32(f)] for a float: the fraction is discarded; what Go does with a
    value outside the range of the type is implementation-specific, and the
    amd64 compiler's result (the minimum of the type) is taken here. *)
Definition int32_of_float64 (f : float) : Z :=
  match Prim2SF f with
  | S754_zero _ => 0
  | S754_finite s m e =>
      let a := if decide (0 ≤ e) then Z.shiftl (Z.pos m) e
               else Z.shiftr (Z.pos m) (- e) in
      let z := if s then - a else a in
      if decide (- 2 ^ 31 ≤ z < 2 ^ 31) then z else - 2 ^ 31
  | _ => - 2 ^ 31
  end.

(** The order in which a [range] over a map yields its entries is chosen by
    the runtime at every execution of the statement.  The [n]-th execution of
    a [range] in a run receives the entries of the map and yields them in the
    order this oracle gives (a permutation of its argument). *)
Class MapOrder := rangeOrder : nat → ∀ K A : Type, list (K * A) → list (K * A).
Arguments rangeOrder {_} n {K A} l.

(** What the runtime guarantees of the order: every entry once. *)
Class MapOrderLawful `{MapOrder} :=
  rangeOrder_perm : ∀ n (K A : Type) (l : list (K * A)), rangeOrder n l ≡ₚ l.

(** The process-wide sources of nondeterminism that the modelled code draws
    from, by the number of draws made so far: executions of a [range] over a
    map, calls of [rand.Int63n], calls of [rand.Float64]. *)
Record runtime := Runtime { ranges : nat; Int63n_calls : nat; Float64_calls : nat }.

(** [fmt.Sprintf("%d", n)] and [strconv.FormatUint(n, 10)]. *)
Definition FormatUint (n : Z) : string := pretty (Z.to_N n).

(** [strconv.Itoa(n)]. *)
Definition Itoa (n : Z) : string := pretty n.

End go.
Export go.

(** ** Package math (Go's standard library) *)
Module math.

(** The transcendental functions are taken as given; [Sqrt] and the
    arithmetic of [float64] are the IEEE 754 operations of [PrimFloat]. *)
Class Libm := {
  Sin : float → float;
  Cos : float → float;
  Asin : float → float;
  Atan2 : float → float → float;
  Pow : float → float → float;
  Mod : float → float → float;
}.

Definition Pi : float := 0x1.921fb54442d18p+1%float.
Definition Sqrt : float → float := PrimFloat.sqrt.

End math.

(** ** Package errors (onos-lib-go) and Go's plain errors *)
Module errors.

(** The error types of the package; [Plain] stands for an error that carries
    none (one made by [fmt.Errorf]). *)
Inductive ErrorType := Plain | NotFound | AlreadyExists | Invalid
                     | NotSupported | Unavailable | Internal.

Record error := New { TypeOf : ErrorType; Message : string }.

(** [fmt.Errorf]: an error with no type of the errors package. *)
Definition Errorf (msg : string) : error := New Plain msg.

End errors.
Export errors(error).

(** ** Package types (onos-api): identifiers *)
Module types.

(** The identifier types are unsigned integers; a value of the type is the
    integer itself. *)
Abbreviation PlmnID := Z (only parsing).
Abbreviation ECI := Z (only parsing).
Abbreviation ECGI := Z (only parsing).
Abbreviation NCGI := Z (only parsing).

(** Conversions to the identifier types, of the widths onos-api declares. *)
Definition EnbID : Z → Z := uint32.
Definition CellID : Z → Z := uint8.
Definition GEnbID : Z → Z := uint64.
Definition IMSI : Z → Z := uint64.
Definition CRNTI : Z → Z := uint32.

(** The packing of identifiers belongs to onos-api and is taken as given. *)
Class Packing := {
  ToECI : Z → Z → ECI;
  ToECGI : PlmnID → ECI → ECGI;
  GetNCI : NCGI → Z;
  Uint24_ToBytes : Z → list Byte.byte;
}.

End types.

(** ** Package e2sm_mho (onos-e2-sm): the RRC status of a UE *)
Module e2sm_mho.

Inductive Rrcstatus :=
| Rrcstatus_RRCSTATUS_CONNECTED
| Rrcstatus_RRCSTATUS_INACTIVE
| Rrcstatus_RRCSTATUS_IDLE.

#[export] Instance Rrcstatus_eq_dec : EqDecision Rrcstatus.
Proof. solve_decision. Defined.

(** The zero value of the type: the constant that the protocol numbers 0. *)
Definition Rrcstatus_zero : Rrcstatus := Rrcstatus_RRCSTATUS_CONNECTED.

End e2sm_mho.
Export e2sm_mho.

(** ** Package model: the records of the simulation model *)
Module model.

Module Coordinate.
Record t := mk { Lat : float; Lng : float }.
End Coordinate.

Module Sector.
Record t := mk { Center : Coordinate.t; Azimuth : Z; Arc : Z }.
End Sector.

Module Cell.
Record t := mk {
  ECGI : types.ECGI;
  Sector : Sector.t;
  Color : string;
  MaxUEs : Z;
  Neighbors : list types.ECGI;
  TxPowerDB : float;
}.
Definition with_Neighbors (ns : list types.ECGI) (c : t) : t :=
  mk (ECGI c) (Sector c) (Color c) (MaxUEs c) ns (TxPowerDB c).
End Cell.

Module Node.
Record t := mk {
  EnbID : Z;
  Controllers : list string;
  ServiceModels : list string;
  Cells : list types.ECGI;
  Status : string;
}.
Definition with_Cells (cs : list types.ECGI) (n : t) : t :=
  mk (EnbID n) (Controllers n) (ServiceModels n) cs (Status n).
(** The zero value of the struct. *)
Definition zero : t := mk 0 [] [] [] "".
End Node.

Module Controller.
Record t := mk { ID : string; Address : string; Port : Z }.
End Controller.

Module ServiceModel.
Record t := mk { ID : Z; Version : string; Description : string }.
End ServiceModel.

Module MapLayout.
Record t := mk { Center : Coordinate.t; LocationsScale : float }.
End MapLayout.

Module Model.
Record t := mk {
  PlmnID : types.PlmnID;
  MapLayout : MapLayout.t;
  Cells : gmap string Cell.t;
  Nodes : gmap string Node.t;
  Controllers : gmap string Controller.t;
  ServiceModels : gmap string ServiceModel.t;
}.
Definition with_Cells (cs : gmap string Cell.t) (m : t) : t :=
  mk (PlmnID m) (MapLayout m) cs (Nodes m) (Controllers m) (ServiceModels m).
Definition with_Nodes (ns : gmap string Node.t) (m : t) : t :=
  mk (PlmnID m) (MapLayout m) (Cells m) ns (Controllers m) (ServiceModels m).
End Model.

(** The serving or a candidate cell of a UE.  The store names the cell's
    identifier ECGI and the MHO service model names it NCGI: one field. *)
Module UECell.
Record t := mk { ID : Z; ECGI : types.ECGI; Strength : float }.
Definition NCGI : t → types.NCGI := ECGI.
End UECell.

Module UE.
Record t := mk {
  IMSI : Z;
  Type_ : string;
  Location : Coordinate.t;
  Heading : Z;
  Cell : UECell.t;
  CRNTI : Z;
  Cells : list UECell.t;
  IsAdmitted : bool;
  RrcState : Rrcstatus;
}.
End UE.

End model.

(** ** Package hexgrid (github.com/pmcxs/hexgrid) *)
Module hexgrid.

Record hex := NewHex { q : Z; r : Z }.

Definition HexAdd (a b : hex) : hex := NewHex (q a + q b) (r a + r b).

(** Modelled from the spec: [HexRange(origin, r)] enumerates the axial hex
    coordinates of the rings up to [r] around the centre; the spec counts
    3r² + 3r + 1 of them.  The library itself is not part of the sources. *)
Definition HexRange (center : hex) (radius : Z) : list hex :=
  if decide (0 ≤ radius) then
    dx ← seqZ (- radius) (2 * radius + 1);
    dy ← seqZ (Z.max (- radius) (- dx - radius))
              (Z.min radius (- dx + radius) - Z.max (- radius) (- dx - radius) + 1);
    [HexAdd center (NewHex dx dy)]
  else [].

(** [Point(HexToPixel(LayoutPointY00(sx, sy), h))]: the pixel coordinates of
    a hex in the pointy-top layout of the given spacing; taken as given. *)
Class Layout := LayoutPointY00_HexToPixel : float → float → hex → float * float.

End hexgrid.

(** ** Package utils *)
Module utils.
Section utils.
Context `{math.Libm}.

(** Modelled from the spec: [aspectRatio = cos(center.lat · π/180)]; the
    function is in a file of the repository that is not among the sources. *)
Definition AspectRatio (lat : float) : float :=
  math.Cos (lat * math.Pi / 180)%float.

End utils.
End utils.

(** ** Packages strings and strconv (Go's standard library) *)
Module strings.

(** [strings.Split(s, sep)] for a separator of one character. *)
Fixpoint Split (s : string) (sep : Ascii.ascii) : list string :=
  match s with
  | EmptyString => [EmptyString]
  | String a s' =>
      if decide (a = sep) then EmptyString :: Split s' sep
      else match Split s' sep with
           | f :: fs => String a f :: fs
           | [] => [String a EmptyString]
           end
  end.

End strings.

Module strconv.

(** [strconv.ParseInt(s, base, bitSize)]: the value and the error. *)
Class Lib := ParseInt : string → Z → Z → Z * option error.

End strconv.

(** ** Package honeycomb: the topology generator *)
Module honeycomb.
Import model.

Section honeycomb.
Context `{math.Libm} `{types.Packing} `{hexgrid.Layout} `{go.MapOrder}
        `{strconv.Lib}.

Definition generateControllers (addresses : list string)
  : gmap string Controller.t :=
  foldl (λ controllers '(i, address),
           let name := "e2t-" +:+ FormatUint (Z.of_nat i + 1) in
           <[name := Controller.mk name address 36421]> controllers)
        ∅ (imap pair addresses).

Definition generateServiceModels (namesAndIDs : list string)
  : gmap string ServiceModel.t :=
  foldl (λ models '(i, nameAndID),
           let fields := strings.Split nameAndID "/"%char in
           let id := if decide (1 < length fields)%nat
                     then (strconv.ParseInt (fields !!! 1%nat) 10 32).1
                     else Z.of_nat i in
           <[fields !!! 0%nat :=
               ServiceModel.mk id "1.0.0" (fields !!! 0%nat +:+ " service model")]>
             models)
        ∅ (imap pair namesAndIDs).

(** Earth radius in meters *)
Definition earthRadius : float := 6378100%float.

Definition hsin (theta : float) : float :=
  math.Pow (math.Sin (theta / 2)) 2.

Definition distance (c1 c2 : Coordinate.t) : float :=
  let la1 := (Coordinate.Lat c1 * math.Pi / 180)%float in
  let lo1 := (Coordinate.Lng c1 * math.Pi / 180)%float in
  let la2 := (Coordinate.Lat c2 * math.Pi / 180)%float in
  let lo2 := (Coordinate.Lng c2 * math.Pi / 180)%float in
  let h := (hsin (la2 - la1) + math.Cos la1 * math.Cos la2 * hsin (lo2 - lo1))%float in
  (2 * earthRadius * math.Asin (math.Sqrt h))%float.

Definition targetPoint (c : Coordinate.t) (azimuth dist : float) : Coordinate.t :=
  let la1 := (Coordinate.Lat c * math.Pi / 180)%float in
  let lo1 := (Coordinate.Lng c * math.Pi / 180)%float in
  let d := (dist / earthRadius)%float in
  let la2 := math.Asin (math.Sin la1 * math.Cos d
                        + math.Cos la1 * math.Sin d * math.Cos azimuth)%float in
  let lo2 := (lo1 + math.Atan2 (math.Sin azimuth * math.Sin d * math.Cos la1)
                               (math.Cos d - math.Sin la1 * math.Sin la2))%float in
  Coordinate.mk (la2 * 180 / math.Pi) (lo2 * 180 / math.Pi).

(** Calculate the end-point of the center arc vector a distance from the
    sector center *)
Definition reachPoint (sector : Sector.t) (distance : float) : Coordinate.t :=
  targetPoint (Sector.Center sector)
    (float64 (Z.rem (int32 (Sector.Azimuth sector + Z.quot (Sector.Arc sector) 2)) 360))
    distance.

(** Cells are neighbors if their sectors have the same coordinates or if
    their center arc vectors fall within a distance/2 *)
Definition isNeighbor (cell other : Cell.t) (maxDistance : float)
    (onlyDistance : bool) : bool :=
  let c := Sector.Center (Cell.Sector cell) in
  let o := Sector.Center (Cell.Sector other) in
  ((Coordinate.Lat c =? Coordinate.Lat o)%float
     && (Coordinate.Lng c =? Coordinate.Lng o)%float)
  || (onlyDistance && (distance c o <=? maxDistance)%float)
  || (distance (reachPoint (Cell.Sector cell) maxDistance)
               (reachPoint (Cell.Sector other) maxDistance)
      <=? maxDistance / 2)%float.

(** Number of cells in the hexagon layout 3x^2+9x+7 *)
Definition numRings (numTowers : nat) : Z * option error :=
  let n := numTowers in
  if decide (n ≤ 7)%nat then (1, None)
  else if decide (n ≤ 19)%nat then (2, None)
  else if decide (n ≤ 37)%nat then (3, None)
  else if decide (n ≤ 61)%nat then (4, None)
  else if decide (n ≤ 91)%nat then (5, None)
  else if decide (n ≤ 127)%nat then (6, None)
  else if decide (n ≤ 169)%nat then (7, None)
  else if decide (n ≤ 217)%nat then (8, None)
  else if decide (n ≤ 271)%nat then (9, None)
  else if decide (n ≤ 331)%nat then (10, None)
  else if decide (n ≤ 469)%nat then (11, None)
  else (0, Some (errors.Errorf (">469 not handled " +:+ FormatUint (Z.of_nat numTowers)))).

Definition hexMesh (pitch : float) (numTowers : nat) : list Coordinate.t :=
  let '(rings, _) := numRings numTowers in
  let hexArray := hexgrid.HexRange (hexgrid.NewHex 0 0) rings in
  foldl (λ points h,
           let '(x, y) := hexgrid.LayoutPointY00_HexToPixel pitch pitch h in
           points ++ [Coordinate.mk x y])
        [] hexArray.

(** [points[t]], with the bounds check of the runtime. *)
Definition index {A : Type} (l : list A) (i : nat) : result A :=
  match l !! i with
  | Some x => Returned x
  | None => Panicked (IndexOutOfRange (Z.of_nat i) (Z.of_nat (length l)))
  end.

(** The variables that the tower loop of [GenerateHoneycombTopology] assigns:
    the model under construction, [enbID], [nodeName] and [node]. *)
Record vars := Vars {
  m : Model.t;
  enbID : Z;
  nodeName : string;
  node : Node.t;
}.

Section GenerateHoneycombTopology.
Variables (mapCenter : Coordinate.t) (numTowers sectorsPerTower : nat)
          (plmnID : types.PlmnID) (enbStart : Z) (pitch : float)
          (maxDistance : float) (maxNeighbors : Z)
          (controllerAddresses serviceModels : list string)
          (singleNode : bool).

(** The body of [for s = 0; s < sectorsPerTower; s++]. *)
Definition sectorLoopBody (aspectRatio : float) (points : list Coordinate.t)
    (arc : Z) (t : nat) (azOffset : Z) (s : nat) (v : vars) : result vars :=
  let cellID :=
    if singleNode && bool_decide (sectorsPerTower = 1%nat)
    then types.CellID (Z.of_nat t + 1)
    else types.CellID (Z.of_nat s + 1) in
  let cellName :=
    "cell" +:+ FormatUint
      (uint64 (Z.of_nat t * Z.of_nat sectorsPerTower + Z.of_nat s + 1)) in
  let azimuth :=
    if decide (0 < s)%nat
    then int32 (uint64 (uint64 (360 * Z.of_nat s) / Z.of_nat sectorsPerTower
                        + uint64 azOffset))
    else azOffset in
  p ← index points t;
  let cell :=
    Cell.mk (types.ToECGI plmnID (types.ToECI (enbID v) cellID))
            (Sector.mk
               (Coordinate.mk
                  (Coordinate.Lat mapCenter + Coordinate.Lat p)
                  (Coordinate.Lng mapCenter + Coordinate.Lng p / aspectRatio))
               azimuth arc)
            "green" 99999 [] 11 in
  Returned
    (Vars (Model.with_Cells (<[cellName := cell]> (Model.Cells (m v))) (m v))
          (enbID v) (nodeName v)
          (Node.with_Cells (Node.Cells (node v) ++ [Cell.ECGI cell]) (node v))).

(** The body of [for t = 0; t < numTowers; t++]. *)
Definition towerLoopBody (aspectRatio : float) (points : list Coordinate.t)
    (arc : Z) (controllers models : list string) (t : nat) (v : vars)
  : result vars :=
  let azOffset :=
    if decide (sectorsPerTower = 6%nat)
    then int32_of_float64 (math.Mod (float64 (Z.of_nat t)) 2 * 30)%float
    else 0 in
  let v :=
    if negb singleNode || bool_decide (t = 0%nat)
    then let enbID := types.EnbID (uint32 (enbStart + uint32 (Z.of_nat t + 1))) in
         Vars (m v) enbID ("node" +:+ FormatUint (Z.of_nat t + 1))
              (Node.mk enbID controllers models [] "stopped")
    else v in
  v ← forEach (sectorLoopBody aspectRatio points arc t azOffset)
              (seq 0 sectorsPerTower) v;
  Returned
    (Vars (Model.with_Nodes (<[nodeName v := node v]> (Model.Nodes (m v))) (m v))
          (enbID v) (nodeName v) (node v)).

(** The inner loop of "Add cells neighbors": [cell] against every [other]. *)
Definition addNeighbors (cell : Cell.t) (others : list Cell.t) : Cell.t :=
  foldl (λ cell other,
           if bool_decide (Cell.ECGI cell ≠ Cell.ECGI other)
              && isNeighbor cell other maxDistance
                            (bool_decide (sectorsPerTower = 1%nat))
              && bool_decide (Z.of_nat (length (Cell.Neighbors cell)) < maxNeighbors)
           then Cell.with_Neighbors (Cell.Neighbors cell ++ [Cell.ECGI other]) cell
           else cell)
        cell others.

(** The loop "Add cells neighbors".  The outer [range] yields every entry of
    [m.Cells] once: the loop assigns only under the key it has reached, so
    the value an entry is read with is the one it had before the loop.  The
    [i]-th inner [range] takes its own order over the map as it then is. *)
Definition addCellsNeighbors (m : Model.t) : Model.t :=
  (foldl (λ '(i, m) '(cellName, cell),
            let others :=
              (rangeOrder (3 + i) (map_to_list (Model.Cells m))).*2 in
            (S i, Model.with_Cells
                    (<[cellName := addNeighbors cell others]> (Model.Cells m)) m))
         (0%nat, m)
         (rangeOrder 2 (map_to_list (Model.Cells m)))).2.

(** GenerateHoneycombTopology generates a set of simulated nodes and cells
    organized in a honeycomb outward from the specified center. *)
Definition GenerateHoneycombTopology : result (Model.t * option error) :=
  let m :=
    Model.mk plmnID (MapLayout.mk mapCenter 1.25) ∅ ∅
             (generateControllers controllerAddresses)
             (generateServiceModels serviceModels) in
  let aspectRatio := utils.AspectRatio (Coordinate.Lat mapCenter) in
  let points := hexMesh pitch numTowers in
  arc ← (if decide (sectorsPerTower = 0%nat) then Panicked IntegerDivideByZero
         else Returned (int32 (360 / Z.of_nat sectorsPerTower)));
  let controllers := (rangeOrder 0 (map_to_list (Model.Controllers m))).*1 in
  let models := (rangeOrder 1 (map_to_list (Model.ServiceModels m))).*1 in
  v ← forEach (towerLoopBody aspectRatio points arc controllers models)
              (seq 0 numTowers) (Vars m 0 "" Node.zero);
  Returned (addCellsNeighbors (honeycomb.m v), None).

End GenerateHoneycombTopology.

End honeycomb.
End honeycomb.

(** ** Package math/rand (Go's standard library) *)
Module rand.

(** The values the process-wide source produces: the [k]-th call of
    [rand.Int63n] returns [Int63n_draw k] reduced into the range asked for,
    the [k]-th call of [rand.Float64] returns [Float64_draw k]. *)
Class Source := { Int63n_draw : nat → Z; Float64_draw : nat → float }.

Section rand.
Context `{Source}.

Definition Int63n (n : Z) (rt : runtime) : result (Z * runtime) :=
  if decide (n ≤ 0) then Panicked (Explicit "invalid argument to Int63n")
  else Returned (Int63n_draw (Int63n_calls rt) mod n,
                 Runtime (ranges rt) (S (Int63n_calls rt)) (Float64_calls rt)).

Definition Float64 (rt : runtime) : float * runtime :=
  (Float64_draw (Float64_calls rt),
   Runtime (ranges rt) (Int63n_calls rt) (S (Float64_calls rt))).

End rand.
End rand.

(** ** Package store/cells: the one operation the UE store calls *)
Module cells.

(** [GetRandomCell] returns a cell of the store, or no cell and an error.
    The store of cells is not among the sources: the result of its [k]-th
    call is taken as given. *)
Class Store := GetRandomCell_result : nat → option model.Cell.t.

End cells.

(** ** Package store/event *)
Module event.

Inductive EventType := None | Created | Updated | Deleted.

(** [Value] holds the pointer to the UE; the record keeps the UE as it is
    when the event is sent. *)
Record Event := mk { Key : Z; Value : model.UE.t; Type_ : EventType }.

End event.

(** ** Package store/ues: the UE store *)
Module ues.
Import model.

Definition minIMSI : Z := 1000000.
Definition maxIMSI : Z := 9999999.

(** The state of the store: the map of UEs, the events handed to
    [watchers.Send] (oldest first), the calls made to the cell store, and
    the runtime state that its operations draw from.  The mutex is not
    modelled: every operation runs alone. *)
Record store := Store {
  ues : gmap Z UE.t;
  watchers : list event.Event;
  cellStore : nat;
  rt : runtime;
}.

Definition with_ues (m : gmap Z UE.t) (s : store) : store :=
  Store m (watchers s) (cellStore s) (rt s).
Definition with_rt (r : runtime) (s : store) : store :=
  Store (ues s) (watchers s) (cellStore s) r.
Definition Send (e : event.Event) (s : store) : store :=
  Store (ues s) (watchers s ++ [e]) (cellStore s) (rt s).

(** [for k, v := range m]: the entries in the order the runtime picks. *)
Definition range `{go.MapOrder} {A : Type} (m : gmap Z A) (s : store)
  : list (Z * A) * store :=
  (rangeOrder (ranges (rt s)) (map_to_list m),
   with_rt (Runtime (S (ranges (rt s))) (Int63n_calls (rt s)) (Float64_calls (rt s))) s).

Section ues.
Context `{rand.Source} `{cells.Store} `{go.MapOrder}.

Definition Len (s : store) : Z := Z.of_nat (size (ues s)).

(** The body of [for i := uint(0); i < count; i++] in [CreateUEs]. *)
Definition CreateUEs_body (i : nat) (s : store) : result store :=
  '(r, rt1) ← rand.Int63n (maxIMSI - minIMSI) (rt s);
  let imsi := types.IMSI (r + minIMSI) in
  '(imsi, rt2) ←
    (if decide (is_Some (ues s !! imsi)) then
       (* FIXME: more robust check for duplicates *)
       '(r', rt2) ← rand.Int63n (maxIMSI - minIMSI) rt1;
       Returned (types.IMSI (r' + minIMSI), rt2)
     else Returned (imsi, rt1));
  match cells.GetRandomCell_result (cellStore s) with
  | None => Panicked NilDereference
  | Some randomCell =>
      let ecgi := Cell.ECGI randomCell in
      let '(f, rt3) := rand.Float64 rt2 in
      let ue :=
        UE.mk imsi "phone" (Coordinate.mk 0 0) 0
              (UECell.mk (types.GEnbID ecgi) ecgi (f * 100))
              (types.CRNTI (uint64 (90125 + Z.of_nat i)))
              [] false Rrcstatus_zero in
      Returned (Store (<[UE.IMSI ue := ue]> (ues s)) (watchers s)
                      (S (cellStore s)) rt3)
  end.

(** CreateUEs creates the specified number of UEs *)
Definition CreateUEs (count : Z) (s : store) : result store :=
  forEach CreateUEs_body (seq 0 (Z.to_nat count)) s.

(** Get gets a UE based on a given imsi *)
Definition Get (imsi : Z) (s : store) : UE.t + error :=
  match ues s !! imsi with
  | Some node => inl node
  | None => inr (errors.New errors.NotFound "UE not found")
  end.

(** Delete deletes a UE based on a given imsi *)
Definition Delete (imsi : Z) (s : store) : (UE.t + error) * store :=
  match ues s !! imsi with
  | Some ue =>
      (inl ue, Send (event.mk imsi ue event.Deleted) (with_ues (delete imsi (ues s)) s))
  | None => (inr (errors.New errors.NotFound "UE not found"), s)
  end.

(** The loop of [removeSomeUEs]: [c] counts down, and the loop is left when
    it reaches zero. *)
Definition removeSomeUEs_loop (imsis : list Z) (count : Z) (s : store) : store :=
  (foldl (λ '(c, s) imsi,
            if decide (c = 0) then (c, s)
            else (int64 (c - 1), (Delete imsi s).2))
         (count, s) imsis).2.

Definition removeSomeUEs (count : Z) (s : store) : store :=
  let '(entries, s) := range (ues s) s in
  removeSomeUEs_loop entries.*1 count s.

(** SetUECount updates the UE count and creates or deletes new UEs as
    needed *)
Definition SetUECount (count : Z) (s : store) : result store :=
  let delta := int64 (Len s - int64 count) in
  if decide (delta < 0) then CreateUEs (uint64 (- delta)) s
  else if decide (0 < delta) then Returned (removeSomeUEs delta s)
  else Returned s.

Definition ListAllUEs (s : store) : list UE.t * store :=
  let '(entries, s) := range (ues s) s in
  (foldl (λ list '(_, ue), list ++ [ue]) [] entries, s).

(** MoveToCell update the cell affiliation of the specified UE *)
Definition MoveToCell (imsi : Z) (ecgi : types.ECGI) (strength : float)
    (s : store) : option error * store :=
  match ues s !! imsi with
  | Some ue =>
      let ue :=
        UE.mk (UE.IMSI ue) (UE.Type_ ue) (UE.Location ue) (UE.Heading ue)
              (UECell.mk (UECell.ID (UE.Cell ue)) ecgi strength)
              (UE.CRNTI ue) (UE.Cells ue) (UE.IsAdmitted ue) (UE.RrcState ue) in
      (None, Send (event.mk (UE.IMSI ue) ue event.Updated)
                  (with_ues (<[imsi := ue]> (ues s)) s))
  | None => (Some (errors.New errors.NotFound "UE not found"), s)
  end.

(** MoveToCoordinate updates the UEs geo location and compass heading *)
Definition MoveToCoordinate (imsi : Z) (location : Coordinate.t) (heading : Z)
    (s : store) : option error * store :=
  match ues s !! imsi with
  | Some ue =>
      let ue :=
        UE.mk (UE.IMSI ue) (UE.Type_ ue) location heading (UE.Cell ue)
              (UE.CRNTI ue) (UE.Cells ue) (UE.IsAdmitted ue) (UE.RrcState ue) in
      (None, Send (event.mk (UE.IMSI ue) ue event.Updated)
                  (with_ues (<[imsi := ue]> (ues s)) s))
  | None => (Some (errors.New errors.NotFound "UE not found"), s)
  end.

(** ListUEs returns an array of all UEs associated with the specified cell *)
Definition ListUEs (ecgi : types.ECGI) (s : store) : list UE.t * store :=
  let '(entries, s) := range (ues s) s in
  (foldl (λ list '(_, ue),
            if decide (UECell.ECGI (UE.Cell ue) = ecgi) then list ++ [ue]
            else list)
         [] entries, s).

(** NewUERegistry creates a new user-equipment registry primed with the
    specified number of UEs to start. *)
Definition NewUERegistry (count : Z) (rt : runtime) : result store :=
  CreateUEs count (Store ∅ [] 0 rt).

End ues.
End ues.

(** ** Logging (onos-lib-go) *)
Module logging.

Inductive Level := Debug | Info | Warn | Error.

(** One call of the logger: its level, and the message with its arguments
    already rendered. *)
Record Entry := mk { level : Level; message : string }.

End logging.

(** ** Package mobility: the RRC part of the driver *)
Module mobility.
Import model.

(** RrcCtrl is the RRC controller; [RrcUpdateChan] holds the UEs sent on the
    channel, oldest first. *)
Record RrcCtrl := mkRrcCtrl { RrcUpdateChan : list UE.t }.

(** The state of the driver that [updateRrc] reaches. *)
Record driver := Driver {
  ueStore : ues.store;
  rrcCtrl : RrcCtrl;
  log : list logging.Entry;
}.

Definition logf (l : logging.Level) (msg : string) (d : driver) : driver :=
  Driver (ueStore d) (rrcCtrl d) (log d ++ [logging.mk l msg]).

(** The name under which [%v] prints a status. *)
Definition Rrcstatus_String (st : Rrcstatus) : string :=
  match st with
  | Rrcstatus_RRCSTATUS_CONNECTED => "RRCSTATUS_CONNECTED"
  | Rrcstatus_RRCSTATUS_INACTIVE => "RRCSTATUS_INACTIVE"
  | Rrcstatus_RRCSTATUS_IDLE => "RRCSTATUS_IDLE"
  end.

(** [ue.RrcState = st] through the pointer that [Get] returned: the UE of
    the store, under the key it was found with. *)
Definition setRrcState (imsi : Z) (ue : UE.t) (st : Rrcstatus) (s : ues.store)
  : UE.t * ues.store :=
  let ue := UE.mk (UE.IMSI ue) (UE.Type_ ue) (UE.Location ue) (UE.Heading ue)
                  (UE.Cell ue) (UE.CRNTI ue) (UE.Cells ue) (UE.IsAdmitted ue) st in
  (ue, ues.with_ues (<[imsi := ue]> (ues.ues s)) s).

Section mobility.
Context `{rand.Source}.

Definition updateRrc (imsi : Z) (probabilityOfRrcStateChange : float)
    (d : driver) : driver :=
  let '(r, rt) := rand.Float64 (ues.rt (ueStore d)) in
  let d := Driver (ues.with_rt rt (ueStore d)) (rrcCtrl d) (log d) in
  let randomBoolean := (r <? probabilityOfRrcStateChange)%float in
  if randomBoolean then
    match ues.Get imsi (ueStore d) with
    | inr err =>
        logf logging.Warn ("Unable to find UE %d" +:+ FormatUint imsi) d
    | inl ue =>
        let flip (msg : string) (st : Rrcstatus) :=
          let d := logf logging.Debug msg d in
          let '(ue, s) := setRrcState imsi ue st (ueStore d) in
          Driver s (mkRrcCtrl (RrcUpdateChan (rrcCtrl d) ++ [ue])) (log d) in
        if decide (UE.RrcState ue = Rrcstatus_RRCSTATUS_IDLE) then
          flip ("RRC state change imsi:" +:+ FormatUint imsi
                +:+ " from IDLE to CONNECTED")
               Rrcstatus_RRCSTATUS_CONNECTED
        else if decide (UE.RrcState ue = Rrcstatus_RRCSTATUS_CONNECTED) then
          flip ("RRC state change imsi:" +:+ FormatUint imsi
                +:+ " from CONNECTED to IDLE")
               Rrcstatus_RRCSTATUS_IDLE
        else
          logf logging.Warn
               ("Invalid RrcState " +:+ Rrcstatus_String (UE.RrcState ue)
                +:+ " for imsi " +:+ FormatUint imsi) d
    end
  else d.

End mobility.
End mobility.

(** ** Package store/subscriptions *)
Module subscriptions.

(** Modelled from the spec: a subscription is keyed by the triple
    (ricInstanceID, requesterID, ranFuncID), and a missing identifier is
    answered with a NotFound error.  The package is not among the sources;
    of the subscription, the model keeps the ticker that the emitter sets
    ([None]: not set yet; [Some true]: ticking; [Some false]: stopped). *)
Definition ID : Type := Z * Z * Z.

Definition NewID (ricInstanceID reqID ranFuncID : Z) : ID :=
  (ricInstanceID, reqID, ranFuncID).

Record Subscription := mk { ID_ : ID; Ticker : option bool }.

Definition Get (id : ID) (subs : gmap ID Subscription) : Subscription + error :=
  match subs !! id with
  | Some sub => inl sub
  | None => inr (errors.New errors.NotFound "subscription not found")
  end.

End subscriptions.

(** ** Package e2ap-ies and the e2ap utilities of the simulator *)
Module e2apies.

(** [type RicactionType int32], with the values that the package names;
    a request can carry any other value of the type. *)
Abbreviation RicactionType := Z (only parsing).
Definition RicactionType_RICACTION_TYPE_REPORT : RicactionType := 0.
Definition RicactionType_RICACTION_TYPE_INSERT : RicactionType := 1.
Definition RicactionType_RICACTION_TYPE_POLICY : RicactionType := 2.

Inductive CauseRic :=
| CauseRic_CAUSE_RIC_RAN_FUNCTION_ID_INVALID
| CauseRic_CAUSE_RIC_ACTION_NOT_SUPPORTED
| CauseRic_CAUSE_RIC_EXCESSIVE_ACTIONS
| CauseRic_CAUSE_RIC_DUPLICATE_ACTION.

Inductive Cause := Cause_RicRequest (RicRequest : CauseRic).

End e2apies.
Export e2apies.

Module e2appducontents.

Record RicactionToBeSetupItem := mkAction {
  RicActionId : Z;
  RicActionType : RicactionType;
  RicActionDefinition : list Byte.byte;
}.

Record RicsubscriptionRequest := mkRequest {
  RicRequestorId : Z;
  RicInstanceId : Z;
  RanFunctionId : Z;
  RicEventTriggerDefinition : list Byte.byte;
  RicActionToBeSetupList : list RicactionToBeSetupItem;
}.

(** The request identifier of a delete request (protocol IE 29). *)
Record RicrequestId := mkRequestId { RicRequestorId_ : Z; RicInstanceId_ : Z }.

Record RicsubscriptionDeleteRequest := mkDeleteRequest {
  E2ApProtocolIes29 : RicrequestId;
  E2ApProtocolIes5 : Z;
}.

End e2appducontents.

(** ** Package utils/e2ap/subscriptiondelete *)
Module subdeleteutils.
Import e2appducontents.

(** GetRequesterID gets requester ID *)
Definition GetRequesterID (request : RicsubscriptionDeleteRequest) : Z :=
  RicRequestorId_ (E2ApProtocolIes29 request).

(** GetRanFunctionID gets ran function ID *)
Definition GetRanFunctionID (request : RicsubscriptionDeleteRequest) : Z :=
  E2ApProtocolIes5 request.

(** GetRicInstanceID gets ric instance ID *)
Definition GetRicInstanceID (request : RicsubscriptionDeleteRequest) : Z :=
  RicInstanceId_ (E2ApProtocolIes29 request).

(** What the option functions of [NewSubscriptionDelete] set. *)
Record SubscriptionDelete := NewSubscriptionDelete {
  reqID : Z; ranFuncID : Z; ricInstanceID : Z;
}.

End subdeleteutils.

(** ** Package utils/e2ap/subscription *)
Module subutils.
Import e2appducontents.

(** What the option functions of [NewSubscription] set. *)
Record Subscription := NewSubscription {
  reqID : Z;
  ranFuncID : Z;
  ricInstanceID : Z;
  ricActionsAccepted : list Z;
  ricActionsNotAdmitted : gmap Z Cause;
}.

Definition GetRicActionToBeSetupList (request : RicsubscriptionRequest) :=
  RicActionToBeSetupList request.
Definition GetRequesterID (request : RicsubscriptionRequest) : Z :=
  RicRequestorId request.
Definition GetRanFunctionID (request : RicsubscriptionRequest) : Z :=
  RanFunctionId request.
Definition GetRicInstanceID (request : RicsubscriptionRequest) : Z :=
  RicInstanceId request.

End subutils.

(** ** Package utils/e2ap/indication *)
Module e2apIndicationUtils.

(** What the option functions of [NewIndication] set. *)
Record Indication := NewIndication {
  ricInstanceID : Z;
  ranFuncID : Z;
  reqID : Z;
  indicationHeader : list Byte.byte;
  indicationMessage : list Byte.byte;
}.

End e2apIndicationUtils.

(** ** The PDU builders and the codec plugin

    The E2AP PDUs and their ASN.1 bytes are opaque to the simulator core:
    the builders and the plugin are taken as given, each returning its
    result or an error. *)
Module e2ap.

Class Pdus := {
  RicsubscriptionResponse : Type;
  RicsubscriptionFailure : Type;
  RicsubscriptionDeleteResponse : Type;
  RicsubscriptionDeleteFailure : Type;
  Ricindication : Type;
  BuildSubscriptionResponse : subutils.Subscription → RicsubscriptionResponse + error;
  BuildSubscriptionFailure : subutils.Subscription → RicsubscriptionFailure + error;
  BuildSubscriptionDeleteResponse :
    subdeleteutils.SubscriptionDelete → RicsubscriptionDeleteResponse + error;
  Indication_Build : e2apIndicationUtils.Indication → Ricindication + error;
}.

End e2ap.

(** ** Package e2sm_kpm_v2 (onos-e2-sm): the parts of a KPM message *)
Module e2smkpmv2.

Inductive MeasurementRecordItem :=
| MeasurementRecordItem_Integer (Integer : Z)
| MeasurementRecordItem_Real (Real : float)
| MeasurementRecordItem_NoValue.

Inductive IncompleteFlag := IncompleteFlag_INCOMPLETE_FLAG_TRUE.

Record MeasurementDataItem := mkDataItem {
  MeasRecord : list MeasurementRecordItem;
  IncompleteFlag_ : option IncompleteFlag;
}.

(** A measurement type is given by name or by identifier. *)
Inductive MeasurementType :=
| MeasurementType_MeasName (MeasName : string)
| MeasurementType_MeasId (MeasId : Z).

#[export] Instance MeasurementType_eq_dec : EqDecision MeasurementType.
Proof. solve_decision. Defined.

(** A label information item, by the fields that are set in it. *)
Record LabelInfoItem := mkLabelInfoItem { labelFields : list (string * Z) }.

Record MeasurementInfoItem := mkInfoItem {
  MeasType : MeasurementType;
  LabelInfoList : list LabelInfoItem;
}.

Record E2SmKpmActionDefinitionFormat1 := mkFormat1 {
  CellObjId : string;
  MeasInfoList : list MeasurementInfoItem;
  GranulPeriod : Z;
  SubscriptId : Z;
}.

Inductive E2SmKpmActionDefinition :=
| E2SmKpmActionDefinition_ActionDefinitionFormat1 (f : E2SmKpmActionDefinitionFormat1)
| E2SmKpmActionDefinition_ActionDefinitionFormat2
| E2SmKpmActionDefinition_ActionDefinitionFormat3.

End e2smkpmv2.

(** ** Package kpm2: the KPM v2 service model *)
Module kpm2.
Import model e2appducontents e2smkpmv2.

(** What the option functions of [kpm2MessageFormat1.NewIndicationMessage]
    set: the indication message, format 1, before it is encoded. *)
Record IndicationMessage := NewIndicationMessage {
  cellObjID : string;
  granularity : Z;
  subscriptionID : Z;
  measData : list MeasurementDataItem;
  measInfoList : list MeasurementInfoItem;
}.

Record measType (Name : Type) := mkMeasType { measTypeName : Name; measTypeID : Z }.
Arguments mkMeasType {Name} _ _.
Arguments measTypeName {Name} _.
Arguments measTypeID {Name} _.

(** The parts of the package that are in files not among the sources, and
    the builders and the plugin the client calls: the table [measTypes] of
    the measurement types the node declares, with the names [RRCConnMax] and
    [RRCConnAvg] (the spec: RRC.Conn.Max and RRC.Conn.Avg) and their
    [String] method; [createInfoLabelList], [getReportPeriod] and
    [getActionDefinition]; the check that ends [NewMeasurementDataItem]'s
    [Build]; the plugin registry and the encoder of the message. *)
Class Collaborators := {
  MeasTypeName : Type;
  MeasTypeName_eq_dec :: EqDecision MeasTypeName;
  RRCConnMax : MeasTypeName;
  RRCConnAvg : MeasTypeName;
  String_ : MeasTypeName → string;
  measTypes : list (measType MeasTypeName);
  createInfoLabelList : list LabelInfoItem + error;
  MeasurementDataItem_Build : MeasurementDataItem → option error;
  getReportPeriod : RicsubscriptionRequest → Z + error;
  getActionDefinition :
    list RicactionToBeSetupItem → list Z → list E2SmKpmActionDefinition * option error;
  ModelPlugin : Type;
  GetPlugin : string → ModelPlugin + error;
  ToAsn1Bytes : IndicationMessage → ModelPlugin → list Byte.byte + error;
}.

Definition ranFunctionE2SmOid : string := "1.3.6.1.4.1.53148.1.2.2.2".

(** What a Go function with the results [([]byte, error)] returns: the bytes
    ([None] for a nil slice), or the error. *)
Definition bytesOrError : Type := option (list Byte.byte) + error.

(** The goroutine that [RICSubscription] starts, by the arguments of its call
    of [reportIndication]. *)
Record goroutine := ReportIndication {
  interval : Z;
  subscription : subutils.Subscription;
  actionDefinitions : list E2SmKpmActionDefinition;
}.

Section kpm2.
Context `{Collaborators} `{e2ap.Pdus}.

(** The record of one measurement type: the [switch] on [measTypeName] that
    [createMeasDefaultData] and [createRequestedIndMsgFormat1] share.
    ([int64(Len)] converts an [int], and keeps the value.) *)
Definition measRecordItem (ueStore : ues.store) (measType : measType MeasTypeName)
  : MeasurementRecordItem :=
  if decide (measTypeName measType = RRCConnMax) then
    MeasurementRecordItem_Integer (ues.Len ueStore)
  else if decide (measTypeName measType = RRCConnAvg) then
    MeasurementRecordItem_Integer (ues.Len ueStore)
  else MeasurementRecordItem_NoValue.

Definition createDefaultMeasInfoList : list MeasurementInfoItem + error :=
  match createInfoLabelList with
  | inr err => inr err
  | inl labelInfoList =>
      inl (foldl (λ measInfoList measType,
                    measInfoList
                    ++ [mkInfoItem (MeasurementType_MeasName (String_ (measTypeName measType)))
                                   labelInfoList])
                 [] measTypes)
  end.

(** The measurement record that the loop of [createMeasDefaultData] fills. *)
Definition defaultMeasRecord (ueStore : ues.store) : list MeasurementRecordItem :=
  foldl (λ measRecord measType, measRecord ++ [measRecordItem ueStore measType])
        [] measTypes.

Definition createMeasDefaultData (ueStore : ues.store)
  : list MeasurementDataItem + error :=
  let measDataItem :=
    mkDataItem (defaultMeasRecord ueStore) (Some IncompleteFlag_INCOMPLETE_FLAG_TRUE) in
  match MeasurementDataItem_Build measDataItem with
  | Some err => inr err
  | None => inl [measDataItem]
  end.

(** The message that [createDefaultIndicationMsgFormat1] builds, before it
    hands it to the plugin. *)
Definition defaultIndicationMessage (ueStore : ues.store) (cellECGI : types.ECGI)
  : IndicationMessage + error :=
  match createDefaultMeasInfoList with
  | inr err => inr err
  | inl measInfoList =>
      match createMeasDefaultData ueStore with
      | inr err => inr err
      | inl measData =>
          inl (NewIndicationMessage (FormatUint (uint64 cellECGI)) 21 123456
                                    measData measInfoList)
      end
  end.

(** The encoding that ends both builders: the plugin of the model's OID. *)
Definition encode (indicationMessage : IndicationMessage) : bytesOrError :=
  match GetPlugin ranFunctionE2SmOid with
  | inr err => inr err
  | inl kpmModelPlugin =>
      match ToAsn1Bytes indicationMessage kpmModelPlugin with
      | inr err => inr err
      | inl indicationMessageBytes => inl (Some indicationMessageBytes)
      end
  end.

Definition createDefaultIndicationMsgFormat1 (ueStore : ues.store)
    (cellECGI : types.ECGI) : bytesOrError :=
  match defaultIndicationMessage ueStore cellECGI with
  | inr err => inr err
  | inl indicationMessage => encode indicationMessage
  end.

(** [measInfo.MeasType.GetMeasName().Value]: a measurement type given by
    identifier has no name, and the field is read through a nil pointer. *)
Definition MeasName_Value (t : MeasurementType) : result string :=
  match t with
  | MeasurementType_MeasName v => Returned v
  | MeasurementType_MeasId _ => Panicked NilDereference
  end.

(** The measurement record that the two nested loops of
    [createRequestedIndMsgFormat1] fill. *)
Definition requestedMeasRecord (ueStore : ues.store)
    (measInfoList : list MeasurementInfoItem) : result (list MeasurementRecordItem) :=
  forEach (λ measInfo,
             forEach (λ measType measRecord,
                        name ← MeasName_Value (MeasType measInfo);
                        Returned (if decide (String_ (measTypeName measType) = name)
                                  then measRecord ++ [measRecordItem ueStore measType]
                                  else measRecord))
                     measTypes)
          measInfoList [].

(** The message that [createRequestedIndMsgFormat1] builds for the first
    action definition of format 1 that names the cell ([inl None]: there is
    none, and the function returns no bytes and no error). *)
Fixpoint requestedIndicationMessage (ueStore : ues.store) (cellECGI : types.ECGI)
    (actionDefinitions : list E2SmKpmActionDefinition)
  : result (option IndicationMessage + error) :=
  match actionDefinitions with
  | [] => Returned (inl None)
  | E2SmKpmActionDefinition_ActionDefinitionFormat1 f :: rest =>
      if decide (CellObjId f = FormatUint (uint64 cellECGI)) then
        measRecord ← requestedMeasRecord ueStore (MeasInfoList f);
        let measDataItem :=
          mkDataItem measRecord (Some IncompleteFlag_INCOMPLETE_FLAG_TRUE) in
        match MeasurementDataItem_Build measDataItem with
        | Some err => Returned (inr err)
        | None =>
            Returned (inl (Some (NewIndicationMessage
                                   (FormatUint (uint64 cellECGI))
                                   (GranulPeriod f) (SubscriptId f)
                                   [measDataItem] (MeasInfoList f))))
        end
      else requestedIndicationMessage ueStore cellECGI rest
  | _ :: rest => requestedIndicationMessage ueStore cellECGI rest
  end.

Definition createRequestedIndMsgFormat1 (ueStore : ues.store)
    (cellECGI : types.ECGI) (actionDefinitions : list E2SmKpmActionDefinition)
  : result bytesOrError :=
  r ← requestedIndicationMessage ueStore cellECGI actionDefinitions;
  Returned match r with
           | inr err => inr err
           | inl None => inl None
           | inl (Some indicationMessage) => encode indicationMessage
           end.

Definition createIndicationMessageFormat1 (ueStore : ues.store)
    (cellECGI : types.ECGI) (actionDefinitions : list E2SmKpmActionDefinition)
  : result bytesOrError :=
  (* If there is no action definition then reports all of the stats *)
  if decide (length actionDefinitions = 0%nat) then
    Returned (createDefaultIndicationMsgFormat1 ueStore cellECGI)
  else createRequestedIndMsgFormat1 ueStore cellECGI actionDefinitions.

(** The indication message of format 1 for a cell, as the client builds it
    for a subscription with the given action definitions. *)
Definition indicationMessageFormat1 (ueStore : ues.store)
    (cellECGI : types.ECGI) (actionDefinitions : list E2SmKpmActionDefinition)
  : result (option IndicationMessage + error) :=
  if decide (length actionDefinitions = 0%nat) then
    Returned match defaultIndicationMessage ueStore cellECGI with
             | inr err => inr err
             | inl indicationMessage => inl (Some indicationMessage)
             end
  else requestedIndicationMessage ueStore cellECGI actionDefinitions.

(** The loop of [RICSubscription] over the actions of the request: the
    accepted actions and the actions not admitted, with their causes. *)
Definition RICSubscription_actions (actionList : list RicactionToBeSetupItem)
  : list Z * gmap Z Cause :=
  foldl (λ '(ricActionsAccepted, ricActionsNotAdmitted) action,
           let actionID := int32 (RicActionId action) in
           let actionType := RicActionType action in
           (* kpm service model supports report action and should be added
              to the list of accepted actions *)
           let ricActionsAccepted :=
             if decide (actionType = RicactionType_RICACTION_TYPE_REPORT)
             then ricActionsAccepted ++ [actionID] else ricActionsAccepted in
           (* kpm service model does not support INSERT and POLICY actions
              and should be added into the list of not admitted actions *)
           let ricActionsNotAdmitted :=
             if decide (actionType = RicactionType_RICACTION_TYPE_INSERT
                        ∨ actionType = RicactionType_RICACTION_TYPE_POLICY)
             then <[actionID := Cause_RicRequest CauseRic_CAUSE_RIC_ACTION_NOT_SUPPORTED]>
                    ricActionsNotAdmitted
             else ricActionsNotAdmitted in
           (ricActionsAccepted, ricActionsNotAdmitted))
        ([], ∅) actionList.

(** What [RICSubscription] returns, and the goroutine it has started. *)
Record RICSubscription_result := mkResult {
  response : option e2ap.RicsubscriptionResponse;
  failure : option e2ap.RicsubscriptionFailure;
  err : option error;
  started : option goroutine;
}.

(** RICSubscription implements subscription handler for kpm service model *)
Definition RICSubscription (request : RicsubscriptionRequest)
  : RICSubscription_result :=
  let actionList := subutils.GetRicActionToBeSetupList request in
  let reqID := subutils.GetRequesterID request in
  let ranFuncID := subutils.GetRanFunctionID request in
  let ricInstanceID := subutils.GetRicInstanceID request in
  let '(ricActionsAccepted, ricActionsNotAdmitted) :=
    RICSubscription_actions actionList in
  let subscription :=
    subutils.NewSubscription reqID ranFuncID ricInstanceID
                             ricActionsAccepted ricActionsNotAdmitted in
  let fail :=
    match e2ap.BuildSubscriptionFailure subscription with
    | inr err => mkResult None None (Some err) None
    | inl subscriptionFailure => mkResult None (Some subscriptionFailure) None None
    end in
  (* At least one required action must be accepted otherwise sends a
     subscription failure response *)
  if decide (length ricActionsAccepted = 0%nat) then fail
  else
    match getReportPeriod request with
    | inr _ => fail
    | inl reportInterval =>
        let '(actionDefinitions, _) :=
          getActionDefinition actionList ricActionsAccepted in
        match e2ap.BuildSubscriptionResponse subscription with
        | inr err => mkResult None None (Some err) None
        | inl subscriptionResponse =>
            mkResult (Some subscriptionResponse) None None
                     (Some (ReportIndication reportInterval subscription
                                             actionDefinitions))
        end
    end.

(** What [RICSubscriptionDelete] returns. *)
Record RICSubscriptionDelete_result := mkDeleteResult {
  deleteResponse : option e2ap.RicsubscriptionDeleteResponse;
  deleteFailure : option e2ap.RicsubscriptionDeleteFailure;
  deleteErr : option error;
}.

(** RICSubscriptionDelete implements subscription delete handler for kpm
    service model *)
Definition RICSubscriptionDelete (request : RicsubscriptionDeleteRequest)
    (Subscriptions : gmap subscriptions.ID subscriptions.Subscription)
  : result (RICSubscriptionDelete_result
            * gmap subscriptions.ID subscriptions.Subscription) :=
  let reqID := subdeleteutils.GetRequesterID request in
  let ranFuncID := subdeleteutils.GetRanFunctionID request in
  let ricInstanceID := subdeleteutils.GetRicInstanceID request in
  let subID := subscriptions.NewID ricInstanceID reqID ranFuncID in
  match subscriptions.Get subID Subscriptions with
  | inr err => Returned (mkDeleteResult None None (Some err), Subscriptions)
  | inl sub =>
      let subscriptionDelete :=
        subdeleteutils.NewSubscriptionDelete reqID ranFuncID ricInstanceID in
      match e2ap.BuildSubscriptionDeleteResponse subscriptionDelete with
      | inr err => Returned (mkDeleteResult None None (Some err), Subscriptions)
      | inl subDeleteResponse =>
          (* Stops the goroutine sending the indication messages *)
          match subscriptions.Ticker sub with
          | None => Panicked NilDereference
          | Some _ =>
              Returned
                (mkDeleteResult (Some subDeleteResponse) None None,
                 <[subID := subscriptions.mk (subscriptions.ID_ sub) (Some false)]>
                   Subscriptions)
          end
      end
  end.

End kpm2.
End kpm2.

(** ** Package mho: the indications of the MHO service model

    The calls of the logger are left out of the model of this package and of
    package kpm2: no property below speaks of them. *)
Module mho.
Import model.

(** One item of the measurement report: the NR cell global identifier (the
    PLMN identity and the 36-bit cell identity) and the RSRP. *)
Record E2SmMhoMeasurementReportItem := mkItem {
  PLmnIdentity : list Byte.byte;
  NRcellIdentity : Z * Z;
  Rsrp : Z;
}.

(** What the option functions of [indMsgFmt1.NewIndicationMessage] and
    [indHdr.NewIndicationHeader] set. *)
Record IndicationMessage := NewIndicationMessage {
  ueID : string;
  measReport : list E2SmMhoMeasurementReportItem;
}.

Record IndicationHeader := NewIndicationHeader {
  plmnID : Z;
  nrcellIdentity : Z;
}.

(** The service model, by what the indications read of it. *)
Record Mho := mk {
  Node : Node.t;
  PlmnID : types.PlmnID;
  OID : string;
  Subscriptions : gmap subscriptions.ID subscriptions.Subscription;
}.

(** The collaborators of the package: the store of cells, the plugin
    registry with the encoders of header and message, and the E2 channel of
    a subscription, which answers an indication with an error or none. *)
Class Collaborators `{e2ap.Pdus} := {
  CellStore_Get : types.NCGI → option Cell.t;
  ModelPlugin : Type;
  GetPlugin : string → ModelPlugin + error;
  MhoToAsn1Bytes : IndicationHeader → ModelPlugin → list Byte.byte + error;
  ToAsn1Bytes : IndicationMessage → ModelPlugin → list Byte.byte + error;
  RICIndication : subscriptions.ID → e2ap.Ricindication → option error;
}.

Section mho.
Context `{types.Packing} `{go.MapOrder} `{Collaborators}.

Definition createIndicationHeaderBytes (m : Mho) (ncgi : types.NCGI)
  : result (list Byte.byte + error) :=
  match CellStore_Get ncgi with
  | None => Panicked NilDereference
  | Some cell =>
      let plmnID := uint32 (PlmnID m) in
      let header := NewIndicationHeader plmnID (uint64 (types.GetNCI (Cell.ECGI cell))) in
      Returned match GetPlugin (OID m) with
               | inr err => inr err
               | inl mhoModelPlugin => MhoToAsn1Bytes header mhoModelPlugin
               end
  end.

(** The item of the measurement report for a cell of the UE. *)
Definition reportItem (m : Mho) (cell : UECell.t) : E2SmMhoMeasurementReportItem :=
  mkItem (types.Uint24_ToBytes (uint32 (PlmnID m)))
         (uint64 (types.GetNCI (UECell.NCGI cell)), 36)
         (int32_of_float64 (UECell.Strength cell)).

(** The message that [createIndicationMsgFormat1] builds, before it hands it
    to the plugin ([None]: no neighbor cells, no message). *)
Definition indicationMessageFormat1 (m : Mho) (ue : UE.t) : option IndicationMessage :=
  if decide (length (UE.Cells ue) = 0%nat) then None
  else
    (* add serving cell to measReport *)
    let measReport := [] ++ [reportItem m (UE.Cell ue)] in
    let measReport :=
      foldl (λ measReport cell, measReport ++ [reportItem m cell])
            measReport (UE.Cells ue) in
    let ueID := Itoa (int64 (UE.IMSI ue)) in
    Some (NewIndicationMessage ueID measReport).

Definition createIndicationMsgFormat1 (m : Mho) (ue : UE.t)
  : option (list Byte.byte) + error :=
  match indicationMessageFormat1 m ue with
  | None => inl None
  | Some indicationMessage =>
      match GetPlugin (OID m) with
      | inr err => inr err
      | inl mhoModelPlugin =>
          match ToAsn1Bytes indicationMessage mhoModelPlugin with
          | inr err => inr err
          | inl indicationMessageBytes => inl (Some indicationMessageBytes)
          end
      end
  end.

(** [sendRicIndicationFormat1] returns an error or none; the second
    component is the indication it has handed to the E2 channel, if any. *)
Definition sendRicIndicationFormat1 (m : Mho) (ncgi : types.NCGI) (ue : UE.t)
    (subscription : subutils.Subscription)
  : result (option error * option e2ap.Ricindication) :=
  let subID :=
    subscriptions.NewID (subutils.ricInstanceID subscription)
                        (subutils.reqID subscription)
                        (subutils.ranFuncID subscription) in
  match subscriptions.Get subID (Subscriptions m) with
  | inr err => Returned (Some err, None)
  | inl sub =>
      header ← createIndicationHeaderBytes m ncgi;
      match header with
      | inr err => Returned (Some err, None)
      | inl indicationHeaderBytes =>
          match createIndicationMsgFormat1 m ue with
          | inr err => Returned (Some err, None)
          | inl None => Returned (None, None)
          | inl (Some indicationMessageBytes) =>
              let indication :=
                e2apIndicationUtils.NewIndication
                  (subutils.ricInstanceID subscription)
                  (subutils.ranFuncID subscription)
                  (subutils.reqID subscription)
                  indicationHeaderBytes indicationMessageBytes in
              match e2ap.Indication_Build indication with
              | inr err => Returned (Some err, None)
              | inl ricIndication =>
                  Returned (RICIndication subID ricIndication, Some ricIndication)
              end
          end
      end
  end.

(** The body of the inner loop of [sendRicIndication], for one UE of the
    cell: [sent] collects the indications handed to the channel. *)
Definition sendRicIndication_body (m : Mho) (subscription : subutils.Subscription)
    (ncgi : types.NCGI) (ue : UE.t) (sent : list e2ap.Ricindication)
  : result (list e2ap.Ricindication) :=
  (* Ignore idle UEs *)
  if decide (UE.RrcState ue = Rrcstatus_RRCSTATUS_IDLE) then Returned sent
  else
    '(_, handed) ← sendRicIndicationFormat1 m ncgi ue subscription;
    Returned (sent ++ option_list handed).

(** [sendRicIndication]: one tick of the emitter.  It returns no error; the
    result is the indications handed to the E2 channel, in order, and the
    UE store (whose runtime state the listing of UEs advances). *)
Definition sendRicIndication (m : Mho) (subscription : subutils.Subscription)
    (ueStore : ues.store) : result (list e2ap.Ricindication * ues.store) :=
  (* Creates and sends an indication message for each cell in the node *)
  forEach (λ ncgi '(sent, ueStore),
             let '(ues, ueStore) := ues.ListUEs ncgi ueStore in
             sent ← forEach (sendRicIndication_body m subscription ncgi) ues sent;
             Returned (sent, ueStore))
          (Node.Cells (Node m)) ([], ueStore).

End mho.
End mho.

(** ** Packages encoding/binary and time (Go's standard library) *)
Module binary.

(** [byte(v)]: the low eight bits. *)
Definition byte (v : Z) : Byte.byte :=
  default Byte.x00 (Byte.of_N (Z.to_N (v mod 256))).

(** [binary.BigEndian.PutUint32(b, v)] into a slice [b] of four bytes: the
    bytes of [b] afterwards. *)
Definition BigEndian_PutUint32 (v : Z) : list Byte.byte :=
  [byte (Z.shiftr v 24); byte (Z.shiftr v 16); byte (Z.shiftr v 8); byte v].

End binary.

Module time.

(** [time.Millisecond], in nanoseconds. *)
Definition Millisecond : Z := 1000000.

(** [time.NewTicker(d)] panics for a duration that is not positive. *)
Definition NewTicker (d : Z) : result unit :=
  if decide (d ≤ 0) then Panicked (Explicit "non-positive interval for NewTicker")
  else Returned ().

End time.

(** ** Package kpm2, continued: the emitter of the indications *)
Module kpm2_emitter.
Import model e2appducontents e2smkpmv2 kpm2.

Definition fileFormatVersion : string := "txt".
Definition senderName : string := "ONF".
Definition senderType : string := "test-type".
Definition vendorName : string := "ONF".

(** What the option functions of [kpm2IndicationHeader.NewIndicationHeader]
    set. *)
Record IndicationHeader (GlobalKpmnodeID : Type) := NewIndicationHeader {
  globalKpmNodeID : GlobalKpmnodeID;
  headerFileFormatVersion : string;
  headerSenderName : string;
  headerSenderType : string;
  headerVendorName : string;
  timeStamp : list Byte.byte;
}.
Arguments NewIndicationHeader {_} _ _ _ _ _ _.
Arguments globalKpmNodeID {_} _.
Arguments timeStamp {_} _.

(** The service model, by what the emitter reads of it. *)
Record Client := mkClient {
  Node : Node.t;
  PlmnID : types.PlmnID;
  Subscriptions : gmap subscriptions.ID subscriptions.Subscription;
}.

(** The collaborators of the emitter that are not among the sources: the
    24-bit value of the PLMN identifier, the builder of the node identifier
    (from the PLMN value and the bit string of the gNB: value and length),
    the encoder of the header, the E2 channel of a subscription, and the
    clock, by the number of times it has been read. *)
Class Emitter `{Collaborators} `{e2ap.Pdus} := {
  Uint24_Value : Z → Z;
  GlobalKpmnodeID : Type;
  NewGlobalGNBID_Build : Z → Z * Z → GlobalKpmnodeID + error;
  Header_ToAsn1Bytes :
    IndicationHeader GlobalKpmnodeID → ModelPlugin → list Byte.byte + error;
  RICIndication : subscriptions.ID → e2ap.Ricindication → option error;
  Now_Unix : nat → Z;
}.

(** Which case a [select] of [reportIndication] takes: a tick of the
    ticker, at which the UE store is as given, or the end of the context of
    the E2 channel. *)
Inductive selected :=
| Ticker_C (UEs : ues.store)
| Context_Done.

(** How a run of [reportIndication] over the cases taken so far stands: it
    has returned, with an error or none, or it waits in the [select]. *)
Inductive ended :=
| Returns (err : option error)
| Waits.

Section kpm2_emitter.
Context `{Emitter}.

(** The second component is the number of times the clock has been read. *)
Definition createIndicationHeaderBytes (sm : Client) (clock : nat)
  : (list Byte.byte + error) * nat :=
  let plmnID := uint32 (PlmnID sm) in
  let gNBID := (uint64 (Node.EnbID (Node sm)), 22) in
  match NewGlobalGNBID_Build (Uint24_Value plmnID) gNBID with
  | inr err => (inr err, clock)
  | inl kpmNodeID =>
      let timestamp := binary.BigEndian_PutUint32 (uint32 (Now_Unix clock)) in
      let header :=
        NewIndicationHeader kpmNodeID fileFormatVersion senderName senderType
                            vendorName timestamp in
      (match GetPlugin ranFunctionE2SmOid with
       | inr err => inr err
       | inl kpmModelPlugin => Header_ToAsn1Bytes header kpmModelPlugin
       end, S clock)
  end.

Definition createRicIndication (sm : Client) (UEs : ues.store) (ecgi : types.ECGI)
    (subscription : subutils.Subscription)
    (actionDefinitions : list E2SmKpmActionDefinition) (clock : nat)
  : result ((option e2ap.Ricindication + error) * nat) :=
  (* Creates indication message format 1 *)
  message ← createIndicationMessageFormat1 UEs ecgi actionDefinitions;
  match message with
  | inr err => Returned (inr err, clock)
  | inl None => Returned (inl None, clock)
  | inl (Some indicationMessageBytes) =>
      let '(header, clock) := createIndicationHeaderBytes sm clock in
      match header with
      | inr err => Returned (inr err, clock)
      | inl indicationHeaderAsn1Bytes =>
          let indication :=
            e2apIndicationUtils.NewIndication
              (subutils.ricInstanceID subscription)
              (subutils.ranFuncID subscription)
              (subutils.reqID subscription)
              indicationHeaderAsn1Bytes indicationMessageBytes in
          match e2ap.Indication_Build indication with
          | inr err => Returned (inr err, clock)
          | inl ricIndication => Returned (inl (Some ricIndication), clock)
          end
      end
  end.

(** The loop of [sendRicIndication] over the cells of the node: the error
    that ends it, if any, the indications handed to the E2 channel, in
    order, and the clock. *)
Fixpoint sendRicIndication_loop (sm : Client) (UEs : ues.store)
    (subID : subscriptions.ID) (subscription : subutils.Subscription)
    (actionDefinitions : list E2SmKpmActionDefinition)
    (cells : list types.ECGI) (sent : list e2ap.Ricindication) (clock : nat)
  : result (option error * list e2ap.Ricindication * nat) :=
  match cells with
  | [] => Returned (None, sent, clock)
  | ecgi :: cells =>
      '(ricIndication, clock) ←
        createRicIndication sm UEs ecgi subscription actionDefinitions clock;
      match ricIndication with
      | inr err => Returned (Some err, sent, clock)
      | inl None =>
          sendRicIndication_loop sm UEs subID subscription actionDefinitions
                                 cells sent clock
      | inl (Some ricIndication) =>
          match RICIndication subID ricIndication with
          | Some err => Returned (Some err, sent ++ [ricIndication], clock)
          | None =>
              sendRicIndication_loop sm UEs subID subscription actionDefinitions
                                     cells (sent ++ [ricIndication]) clock
          end
      end
  end.

Definition sendRicIndication (sm : Client) (UEs : ues.store)
    (subscription : subutils.Subscription)
    (actionDefinitions : list E2SmKpmActionDefinition) (clock : nat)
  : result (option error * list e2ap.Ricindication * nat) :=
  let subID :=
    subscriptions.NewID (subutils.ricInstanceID subscription)
                        (subutils.reqID subscription)
                        (subutils.ranFuncID subscription) in
  match subscriptions.Get subID (Subscriptions sm) with
  | inr err => Returned (Some err, [], clock)
  | inl sub =>
      (* Creates and sends an indication message for each cell in the node *)
      sendRicIndication_loop sm UEs subID subscription actionDefinitions
                             (Node.Cells (Node sm)) [] clock
  end.

(** The state that [reportIndication] works on: the service model with its
    store of subscriptions, the indications handed to the E2 channel so far
    and the clock. *)
Record emitter := mkEmitter {
  client : Client;
  indications : list e2ap.Ricindication;
  clock : nat;
}.

Definition setTicker (subID : subscriptions.ID) (sub : subscriptions.Subscription)
    (ticking : bool) (sm : Client) : Client :=
  mkClient (Node sm) (PlmnID sm)
           (<[subID := subscriptions.mk (subscriptions.ID_ sub) (Some ticking)]>
              (Subscriptions sm)).

(** The [for { select { ... } }] of [reportIndication], over the cases that
    the [select] takes one after the other. *)
Fixpoint reportIndication_loop (subID : subscriptions.ID)
    (sub : subscriptions.Subscription) (subscription : subutils.Subscription)
    (actionDefinitions : list E2SmKpmActionDefinition)
    (cases : list selected) (e : emitter) : result (ended * emitter) :=
  match cases with
  | [] => Returned (Waits, e)
  | Ticker_C UEs :: cases =>
      '(err, sent, clock) ←
        sendRicIndication (client e) UEs subscription actionDefinitions (clock e);
      let e := mkEmitter (client e) (indications e ++ sent) clock in
      match err with
      | Some err => Returned (Returns (Some err), e)
      | None =>
          reportIndication_loop subID sub subscription actionDefinitions cases e
      end
  | Context_Done :: _ =>
      Returned (Returns None,
                mkEmitter (setTicker subID sub false (client e))
                          (indications e) (clock e))
  end.

Definition reportIndication (interval : Z) (subscription : subutils.Subscription)
    (actionDefinitions : list E2SmKpmActionDefinition)
    (cases : list selected) (e : emitter) : result (ended * emitter) :=
  let subID :=
    subscriptions.NewID (subutils.ricInstanceID subscription)
                        (subutils.reqID subscription)
                        (subutils.ranFuncID subscription) in
  let intervalDuration := int64 interval in
  match subscriptions.Get subID (Subscriptions (client e)) with
  | inr err => Returned (Returns (Some err), e)
  | inl sub =>
      _ ← time.NewTicker (int64 (intervalDuration * time.Millisecond));
      let e := mkEmitter (setTicker subID sub true (client e))
                         (indications e) (clock e) in
      reportIndication_loop subID sub subscription actionDefinitions cases e
  end.

End kpm2_emitter.
End kpm2_emitter.

(** ** Package mho, continued: the indications of format 2 *)
Module mho_format2.
Import model mho.

(** What the option functions of [indMsgFmt2.NewIndicationMessage] set. *)
Record IndicationMessage := NewIndicationMessage {
  ueID : string;
  rrcStatus : Rrcstatus;
}.

(** The encoder of the message of format 2, which is not among the
    sources. *)
Class Encoder `{e2ap.Pdus} `{!Collaborators} :=
  ToAsn1Bytes : IndicationMessage → ModelPlugin → list Byte.byte + error.

Section mho_format2.
Context `{types.Packing} `{go.MapOrder} `{Encoder}.

(** The message that [createIndicationMsgFormat2] builds, before it hands it
    to the plugin. *)
Definition indicationMessageFormat2 (ue : UE.t) : IndicationMessage :=
  let ueID := Itoa (int64 (UE.IMSI ue)) in
  NewIndicationMessage ueID (UE.RrcState ue).

Definition createIndicationMsgFormat2 (m : Mho) (ue : UE.t)
  : option (list Byte.byte) + error :=
  let indicationMessage := indicationMessageFormat2 ue in
  match GetPlugin (OID m) with
  | inr err => inr err
  | inl mhoModelPlugin =>
      match ToAsn1Bytes indicationMessage mhoModelPlugin with
      | inr err => inr err
      | inl indicationMessageBytes => inl (Some indicationMessageBytes)
      end
  end.

(** [sendRicIndicationFormat2] returns an error or none; the second
    component is the indication it has handed to the E2 channel, if any. *)
Definition sendRicIndicationFormat2 (m : Mho) (ncgi : types.NCGI) (ue : UE.t)
    (subscription : subutils.Subscription)
  : result (option error * option e2ap.Ricindication) :=
  let subID :=
    subscriptions.NewID (subutils.ricInstanceID subscription)
                        (subutils.reqID subscription)
                        (subutils.ranFuncID subscription) in
  match subscriptions.Get subID (Subscriptions m) with
  | inr err => Returned (Some err, None)
  | inl sub =>
      header ← createIndicationHeaderBytes m ncgi;
      match header with
      | inr err => Returned (Some err, None)
      | inl indicationHeaderBytes =>
          match createIndicationMsgFormat2 m ue with
          | inr err => Returned (Some err, None)
          | inl None => Returned (None, None)
          | inl (Some indicationMessageBytes) =>
              let indication :=
                e2apIndicationUtils.NewIndication
                  (subutils.ricInstanceID subscription)
                  (subutils.ranFuncID subscription)
                  (subutils.reqID subscription)
                  indicationHeaderBytes indicationMessageBytes in
              match e2ap.Indication_Build indication with
              | inr err => Returned (Some err, None)
              | inl ricIndication =>
                  Returned (RICIndication subID ricIndication, Some ricIndication)
              end
          end
      end
  end.

End mho_format2.
End mho_format2.

(** ** Packages strconv, regexp and fmt (Go's standard library), as far as
    package e2 calls them *)
Module strconv_atoi.

(** [NumError.Err] of a failed conversion. *)
Inductive NumError := ErrSyntax | ErrRange.

Definition isDigit (c : Ascii.ascii) : bool :=
  bool_decide (48 ≤ nat_of_ascii c ≤ 57)%nat.

(** The number that a string of decimal digits writes. *)
Definition digitsValue (s : string) : Z :=
  foldl (λ n c, 10 * n + (Z.of_nat (nat_of_ascii c) - 48)) 0
        (String.list_ascii_of_string s).

(** [strconv.Atoi(s)] where [int] has 64 bits: an optional sign and decimal
    digits; anything else is a syntax error with the value 0, and a number
    out of the range of [int] is a range error with the nearest value of the
    type. *)
Definition Atoi (s : string) : Z * option NumError :=
  let '(neg, digits) :=
    match s with
    | String "-" rest => (true, rest)
    | String "+" rest => (false, rest)
    | _ => (false, s)
    end in
  if bool_decide (digits = "")
     || negb (forallb isDigit (String.list_ascii_of_string digits))
  then (0, Some ErrSyntax)
  else
    let n := if neg : bool then - digitsValue digits else digitsValue digits in
    if decide (n < - 2 ^ 63) then (- 2 ^ 63, Some ErrRange)
    else if decide (2 ^ 63 - 1 < n) then (2 ^ 63 - 1, Some ErrRange)
    else (n, None).

End strconv_atoi.

Module regexp.

(** The digits that a string starts with. *)
Fixpoint leadingDigits (s : string) : string :=
  match s with
  | String c rest => if strconv_atoi.isDigit c then String c (leadingDigits rest) else ""
  | EmptyString => ""
  end.

(** [regexp.MustCompile("[0-9]+").FindAllString(s, 1)]: the leftmost match
    of the expression, which is the first run of digits of [s] in its whole
    length; [nil] when [s] has no digit. *)
Fixpoint digits_FindAllString_1 (s : string) : list string :=
  match s with
  | String c rest =>
      if strconv_atoi.isDigit c then [String c (leadingDigits rest)]
      else digits_FindAllString_1 rest
  | EmptyString => []
  end.

End regexp.

Module fmt.





End fmt.

(** ** Package northbound/e2: the names and identifiers of the manager *)
Module e2.

(** [types.TowersParams] (of the API, not among the sources), by the fields
    that are read: unsigned 32-bit counts. *)
Record TowersParams := mkTowersParams {
  TowerRows : Z;
  TowerCols : Z;
  MaxUEs : Z;
}.

(** TestPlmnID - https://en.wikipedia.org/wiki/Mobile_country_code#Test_networks *)
Definition TestPlmnID : string := "001001".

(** Min ... *)
Definition Min (x y : Z) : Z := if decide (x < y) then x else y.

(** Max ... *)
Definition Max (x y : Z) : Z := if decide (x > y) then x else y.

(** [id, _ := strconv.Atoi(re.FindAllString(name, 1)[0])] with
    [re := regexp.MustCompile("[0-9]+")], the statement that the three
    functions below start with: a name without a digit has no match, and
    the index panics. *)
Definition firstNumber (name : string) : result Z :=
  match regexp.digits_FindAllString_1 name with
  | m :: _ => Returned (strconv_atoi.Atoi m).1
  | [] => Panicked (IndexOutOfRange 0 0)
  end.

(** [a / b] and [a % b] on [int]: the quotient truncated towards zero and
    its remainder; a zero divisor panics. *)
Definition quo (a b : Z) : result Z :=
  if decide (b = 0) then Panicked IntegerDivideByZero
  else Returned (int64 (Z.quot a b)).
Definition rem (a b : Z) : result Z :=
  if decide (b = 0) then Panicked IntegerDivideByZero
  else Returned (Z.rem a b).

(** [for v := lo; v <= hi; v++]: the values of [v]. *)
Definition upTo (lo hi : Z) : list Z := seqZ lo (hi - lo + 1).

Definition makeNeighbors (towerName : string) (towerParams : TowersParams)
  : result (list string) :=
  id ← firstNumber towerName;
  let id := int64 (id - 1) in
  let nrows := TowerRows towerParams in
  let ncols := TowerCols towerParams in
  i ← quo id nrows;
  j ← rem id ncols;
  Returned
    (x ← upTo (Max 0 (int64 (i - 1))) (Min (int64 (i + 1)) (int64 (nrows - 1)));
     y ← upTo (Max 0 (int64 (j - 1))) (Min (int64 (j + 1)) (int64 (ncols - 1)));
     if bool_decide (x = i ∧ y = int64 (j - 1))
        || bool_decide (x = i ∧ y = int64 (j + 1))
        || bool_decide (x = int64 (i - 1) ∧ y = j)
        || bool_decide (x = int64 (i + 1) ∧ y = j)
     then
       let towerNum := int64 (int64 (int64 (x * nrows) + y) + 1) in
       ["Tower-" +:+ Itoa towerNum]
     else []).



End e2.

(** ** The vocabulary of the properties

    Predicates and reference values that the statements of Part II are
    written with, package by package. *)
Module honeycomb_spec.
Import model honeycomb.

Section honeycomb_spec.
Context `{math.Libm} `{types.Packing} `{hexgrid.Layout} `{go.MapOrder}
        `{strconv.Lib}.

(** A neighbor list within the cap, without the cell itself. *)
Definition neighborsOK (maxNeighbors : Z) (cell : Cell.t) : Prop :=
  Z.of_nat (length (Cell.Neighbors cell)) ≤ Z.max 0 maxNeighbors
  ∧ Cell.ECGI cell ∉ Cell.Neighbors cell.

(** Every cell the tower loop makes has an empty neighbor list. *)
Definition noNeighbors (v : vars) : Prop :=
  ∀ cellName cell,
    Model.Cells (m v) !! cellName = Some cell → Cell.Neighbors cell = [].

End honeycomb_spec.
End honeycomb_spec.

Module ues_spec.
Import model ues.

Section ues_spec.
Context `{rand.Source} `{cells.Store} `{go.MapOrder}.

(** The first IMSI that the [i]-th round of [CreateUEs] draws in state [s]. *)
Definition firstIMSI (s : store) : Z :=
  types.IMSI (rand.Int63n_draw (Int63n_calls (rt s)) mod (maxIMSI - minIMSI) + minIMSI).

End ues_spec.
End ues_spec.

Module mobility_spec.
Import model mobility.

Section mobility_spec.
Context `{rand.Source}.

(** The outcome of the draw that [updateRrc] makes in state [d]. *)
Definition drawn (probabilityOfRrcStateChange : float) (d : driver) : bool :=
  (rand.Float64_draw (Float64_calls (ues.rt (ueStore d)))
   <? probabilityOfRrcStateChange)%float.

(** A UE with another RRC state, and nothing else changed. *)
Definition withRrcState (st : Rrcstatus) (ue : UE.t) : UE.t :=
  UE.mk (UE.IMSI ue) (UE.Type_ ue) (UE.Location ue) (UE.Heading ue) (UE.Cell ue)
        (UE.CRNTI ue) (UE.Cells ue) (UE.IsAdmitted ue) st.

End mobility_spec.
End mobility_spec.

Module kpm2_spec.
Import model e2appducontents e2smkpmv2 kpm2.

Section kpm2_spec.
Context `{Collaborators} `{e2ap.Pdus}.

Definition notSupported : Cause :=
  Cause_RicRequest CauseRic_CAUSE_RIC_ACTION_NOT_SUPPORTED.

(** From the spec: a declared measurement type named RRC.Conn.Max or
    RRC.Conn.Avg is reported as an integer record with the current UE count
    of the store, any other as a NoValue record. *)
Definition expectedRecord (ueStore : ues.store) (measType : measType MeasTypeName)
  : MeasurementRecordItem :=
  if decide (measTypeName measType = RRCConnMax ∨ measTypeName measType = RRCConnAvg)
  then MeasurementRecordItem_Integer (ues.Len ueStore)
  else MeasurementRecordItem_NoValue.

(** The declared measurement types that carry the name of an item of a
    measurement information list, item by item. *)
Definition named (measInfoList : list MeasurementInfoItem)
  : list (measType MeasTypeName) :=
  measInfo ← measInfoList;
  filter (λ measType,
            MeasType measInfo = MeasurementType_MeasName (String_ (measTypeName measType)))
         measTypes.

(** The claim as the spec words it: the record of the message holds a
    record for every declared measurement type. *)
Definition everyDeclaredTypeReported (ueStore : ues.store)
    (indicationMessage : IndicationMessage) : Prop :=
  measData indicationMessage
  = [mkDataItem (expectedRecord ueStore <$> measTypes)
                (Some IncompleteFlag_INCOMPLETE_FLAG_TRUE)].

(** The declared measurement types that a message reports: all of them when
    the subscription has no action definition, else those that carry the
    name of an item of the message's own list. *)
Definition reported (actionDefinitions : list E2SmKpmActionDefinition)
    (indicationMessage : IndicationMessage) : list (measType MeasTypeName) :=
  if decide (length actionDefinitions = 0%nat) then measTypes
  else named (measInfoList indicationMessage).

End kpm2_spec.
End kpm2_spec.

Module mho_spec.
Import model mho.

Section mho_spec.
Context `{types.Packing} `{go.MapOrder} `{Collaborators}.

(** The UEs that one tick lists, cell by cell of the node, each with the
    cell it was listed for. *)
Fixpoint listedUEs (cells : list types.NCGI) (ueStore : ues.store)
  : list (types.NCGI * UE.t) :=
  match cells with
  | [] => []
  | ncgi :: cells =>
      let '(ues, ueStore) := ues.ListUEs ncgi ueStore in
      (pair ncgi <$> ues) ++ listedUEs cells ueStore
  end.

(** The indication that the tick hands to the E2 channel for a listed UE:
    none for an idle UE, else what [sendRicIndicationFormat1] hands over. *)
Definition handed (m : Mho) (subscription : subutils.Subscription)
    (listed : types.NCGI * UE.t) : list e2ap.Ricindication :=
  if decide (UE.RrcState listed.2 = Rrcstatus_RRCSTATUS_IDLE) then []
  else match sendRicIndicationFormat1 m listed.1 listed.2 subscription with
       | Returned (_, indication) => option_list indication
       | Panicked _ => []
       end.

(** From the spec (as amended): the entry of a cell of the UE in the
    measurement list, the identity of the cell (the NR cell identity of its
    NCGI, 36 bits, under the PLMN of the model) and, as RSRP, the strength
    of the cell cut to the integer that the field holds. *)
Definition reportEntry (m : Mho) (cell : UECell.t) : E2SmMhoMeasurementReportItem :=
  mkItem (types.Uint24_ToBytes (uint32 (PlmnID m)))
         (uint64 (types.GetNCI (UECell.NCGI cell)), 36)
         (int32_of_float64 (UECell.Strength cell)).

(** From the spec: the measurement report of a UE, the serving cell first,
    then the candidate cells in the order of the UE's list. *)
Definition measurementReport (m : Mho) (ue : UE.t) : IndicationMessage :=
  NewIndicationMessage (Itoa (int64 (UE.IMSI ue)))
                       (reportEntry m (UE.Cell ue) :: (reportEntry m <$> UE.Cells ue)).

(** The PDU that carries the measurement report of a UE listed for a cell,
    on a subscription: the header of the cell and the report, both encoded
    by the plugin of the model; none when the subscription or the cell is
    not known, or when the plugin, an encoder or the builder fails. *)
Definition reportPDU (m : Mho) (subscription : subutils.Subscription)
    (ncgi : types.NCGI) (ue : UE.t) : option e2ap.Ricindication :=
  let subID :=
    subscriptions.NewID (subutils.ricInstanceID subscription)
                        (subutils.reqID subscription)
                        (subutils.ranFuncID subscription) in
  match Subscriptions m !! subID, CellStore_Get ncgi, GetPlugin (OID m) with
  | Some _, Some cell, inl mhoModelPlugin =>
      let header :=
        NewIndicationHeader (uint32 (PlmnID m))
                            (uint64 (types.GetNCI (Cell.ECGI cell))) in
      match MhoToAsn1Bytes header mhoModelPlugin,
            ToAsn1Bytes (measurementReport m ue) mhoModelPlugin with
      | inl indicationHeaderBytes, inl indicationMessageBytes =>
          match e2ap.Indication_Build
                  (e2apIndicationUtils.NewIndication
                     (subutils.ricInstanceID subscription)
                     (subutils.ranFuncID subscription)
                     (subutils.reqID subscription)
                     indicationHeaderBytes indicationMessageBytes) with
          | inl ricIndication => Some ricIndication
          | inr _ => None
          end
      | _, _ => None
      end
  | _, _, _ => None
  end.

(** From the spec: what a tick emits for a listed UE.  Nothing for an idle
    UE and nothing for a UE without candidate cells; for any other UE the
    PDU of its measurement report. *)
Definition emitted (m : Mho) (subscription : subutils.Subscription)
    (listed : types.NCGI * UE.t) : list e2ap.Ricindication :=
  if decide (UE.RrcState listed.2 = Rrcstatus_RRCSTATUS_IDLE) then []
  else if decide (UE.Cells listed.2 = []) then []
  else option_list (reportPDU m subscription listed.1 listed.2).

End mho_spec.
End mho_spec.

Module honeycomb_layout.
Import model honeycomb.

(** The name of the controller of the [i]-th address (from 0), and the
    controllers of a list of addresses with their names. *)
Definition controllerNameOf (i : nat) : string :=
  "e2t-" +:+ FormatUint (Z.of_nat i + 1).
Definition controllerEntries (addresses : list string)
  : list (string * Controller.t) :=
  imap (λ i address,
          (controllerNameOf i, Controller.mk (controllerNameOf i) address 36421))
       addresses.

Section honeycomb_layout.
Context `{math.Libm} `{types.Packing} `{hexgrid.Layout} `{go.MapOrder}
        `{strconv.Lib}.
Variables (mapCenter : Coordinate.t) (sectorsPerTower : nat)
          (plmnID : types.PlmnID) (enbStart : Z) (singleNode : bool)
          (aspectRatio : float) (points : list Coordinate.t) (arc : Z)
          (controllers models : list string).

(** The name of the [k]-th cell that the generator makes (from 0), and of
    the node of the [t]-th tower. *)
Definition cellNameOf (k : nat) : string :=
  "cell" +:+ FormatUint (uint64 (Z.of_nat k + 1)).
Definition nodeNameOf (t : nat) : string :=
  "node" +:+ FormatUint (Z.of_nat t + 1).

(** The identifier of the node of the [t]-th tower. *)
Definition enbIDOf (t : nat) : Z :=
  types.EnbID (uint32 (enbStart + uint32 (Z.of_nat t + 1))).

(** Sector [s] of tower [t], as the generator makes it, before the
    neighbors are added: in a single node every cell carries the identifier
    of the first node. *)
Definition sectorCell (t s : nat) : Cell.t :=
  let enbID := enbIDOf (if singleNode then 0%nat else t) in
  let cellID :=
    if singleNode && bool_decide (sectorsPerTower = 1%nat)
    then types.CellID (Z.of_nat t + 1)
    else types.CellID (Z.of_nat s + 1) in
  let azOffset :=
    if decide (sectorsPerTower = 6%nat)
    then int32_of_float64 (math.Mod (float64 (Z.of_nat t)) 2 * 30)%float
    else 0 in
  let azimuth :=
    if decide (0 < s)%nat
    then int32 (uint64 (uint64 (360 * Z.of_nat s) / Z.of_nat sectorsPerTower
                        + uint64 azOffset))
    else azOffset in
  let p := default (Coordinate.mk 0 0) (points !! t) in
  Cell.mk (types.ToECGI plmnID (types.ToECI enbID cellID))
          (Sector.mk
             (Coordinate.mk
                (Coordinate.Lat mapCenter + Coordinate.Lat p)
                (Coordinate.Lng mapCenter + Coordinate.Lng p / aspectRatio))
             azimuth arc)
          "green" 99999 [] 11.

(** The [k]-th cell: sector [k mod sectorsPerTower] of tower
    [k / sectorsPerTower]. *)
Definition cellAt (k : nat) : Cell.t :=
  sectorCell (k / sectorsPerTower) (k mod sectorsPerTower).

(** The node of the [t]-th tower, with the cells of its sectors; and the
    single node after [t] towers, with the cells of them all. *)
Definition nodeAt (t : nat) : Node.t :=
  Node.mk (enbIDOf t) controllers models
          (Cell.ECGI ∘ cellAt <$> seq (t * sectorsPerTower) sectorsPerTower)
          "stopped".
Definition nodeSingle (t : nat) : Node.t :=
  Node.mk (enbIDOf 0) controllers models
          (Cell.ECGI ∘ cellAt <$> seq 0 (t * sectorsPerTower))
          "stopped".

(** A cell of the model is a cell of another model with neighbors added. *)
Definition withNeighborsOf (m0 m : gmap string Cell.t) : Prop :=
  ∀ cellName,
    match m0 !! cellName, m !! cellName with
    | Some cell0, Some cell =>
        cell = Cell.with_Neighbors (Cell.Neighbors cell) cell0
    | None, None => True
    | _, _ => False
    end.

(** The cells and the nodes that the generator has made after [n] rounds of
    the loop over the sectors, or over the towers, with their names. *)
Definition cellEntries (n : nat) : list (string * Cell.t) :=
  (λ k, (cellNameOf k, cellAt k)) <$> seq 0 n.
Definition nodeEntries (n : nat) : list (string * Node.t) :=
  (λ t, (nodeNameOf t, nodeAt t)) <$> seq 0 n.

(** The nodes of the model after [t] towers. *)
Definition nodesAfter (t : nat) : gmap string Node.t :=
  if singleNode
  then match t with
       | O => ∅
       | S _ => {[ nodeNameOf 0 := nodeSingle t ]}
       end
  else list_to_map (nodeEntries t).

(** The state of the tower loop in tower [t], after [s] rounds of its loop
    over the sectors, which it entered in state [v0]. *)
Definition inTower (t : nat) (v0 : vars) (s : nat) (v : vars) : Prop :=
  m v = Model.with_Cells (list_to_map (cellEntries (t * sectorsPerTower + s))) (m v0)
  ∧ enbID v = enbID v0
  ∧ nodeName v = nodeName v0
  ∧ node v = Node.with_Cells
               (Node.Cells (node v0)
                ++ (Cell.ECGI ∘ cellAt <$> seq (t * sectorsPerTower) s))
               (node v0).

(** The state of the generator after [t] towers, from a model [m0]. *)
Definition towersDone (m0 : Model.t) (t : nat) (v : vars) : Prop :=
  m v = Model.with_Nodes (nodesAfter t)
          (Model.with_Cells (list_to_map (cellEntries (t * sectorsPerTower))) m0)
  ∧ (singleNode = true → (0 < t)%nat →
     enbID v = enbIDOf 0 ∧ nodeName v = nodeNameOf 0 ∧ node v = nodeSingle t).

End honeycomb_layout.
End honeycomb_layout.

Module ues_terms.
Import model ues.

(** A UE as [CreateUEs] makes it: a phone at the origin, not admitted, with
    no candidate cells, in the RRC state that is the zero value, whose
    serving cell carries its ECGI as identifier too. *)
Definition freshPhone (ue : UE.t) : Prop :=
  UE.Type_ ue = "phone"
  ∧ UE.Location ue = Coordinate.mk 0 0
  ∧ UE.Heading ue = 0
  ∧ UE.Cells ue = []
  ∧ UE.IsAdmitted ue = false
  ∧ UE.RrcState ue = Rrcstatus_zero
  ∧ UECell.ID (UE.Cell ue) = types.GEnbID (UECell.ECGI (UE.Cell ue)).

(** The Deleted event of every UE that has been removed. *)
Definition deletedEvents (s : store) (removed : list Z) (events : list event.Event)
  : Prop :=
  Forall2 (λ imsi e, ∃ ue, ues s !! imsi = Some ue
                           ∧ e = event.mk imsi ue event.Deleted)
          removed events.

End ues_terms.

Module e2_spec.

(** A name without a digit. *)
Definition noDigit (s : string) : Prop :=
  forallb (negb ∘ strconv_atoi.isDigit) (String.list_ascii_of_string s) = true.

(** The row and the column of the tower of number [k] in a grid of [n]
    columns. *)
Definition row (n k : Z) : Z := (k - 1) / n.
Definition col (n k : Z) : Z := (k - 1) mod n.

(** Towers next to each other in a row or in a column of the grid. *)
Definition adjacent (n k k' : Z) : Prop :=
  (row n k = row n k' ∧ Z.abs (col n k - col n k') = 1)
  ∨ (col n k = col n k' ∧ Z.abs (row n k - row n k') = 1).


End e2_spec.

(** ** Concrete collaborators, with which the embedding runs

    The theorems of Part II hold for every choice of the collaborators taken
    as given above.  The instances below give one choice, so that the model
    can be evaluated on concrete inputs. *)
Module example.

(** Polynomial stand-ins for the functions of package math: close to the
    mathematical functions, not the bit patterns of Go's implementation. *)
Definition truncZ (f : float) : Z :=
  match Prim2SF f with
  | S754_finite s m e =>
      let a := if decide (0 ≤ e) then Z.shiftl (Z.pos m) e
               else Z.shiftr (Z.pos m) (- e) in
      if s then - a else a
  | _ => 0
  end.

Fixpoint series (n : nat) (k : float) (term x2 acc : float) : float :=
  match n with
  | O => acc
  | S n' =>
      let term' := (- term * x2 / ((k + 1) * (k + 2)))%float in
      series n' (k + 2)%float term' x2 (acc + term')%float
  end.

Definition sin (x : float) : float :=
  let twoPi := (2 * math.Pi)%float in
  let k := float64 (truncZ (x / twoPi + (if (x <? 0)%float then -0.5 else 0.5))%float) in
  let y := (x - k * twoPi)%float in
  series 14 1 y (y * y) y.

Definition cos (x : float) : float := sin (x + math.Pi / 2)%float.

Fixpoint atanSeries (n : nat) (k : float) (pw z2 acc : float) : float :=
  match n with
  | O => acc
  | S n' =>
      let pw' := (- pw * z2)%float in
      atanSeries n' (k + 2)%float pw' z2 (acc + pw' / (k + 2))%float
  end.

Definition atan (z : float) : float :=
  let half z := (z / (1 + PrimFloat.sqrt (1 + z * z)))%float in
  let small z := let h := half (half z) in (4 * atanSeries 14 1 h (h * h) h)%float in
  if (1 <? z)%float then (math.Pi / 2 - small (1 / z))%float
  else if (z <? -1)%float then (- (math.Pi / 2) - small (1 / z))%float
  else small z.

Definition atan2 (y x : float) : float :=
  if (0 <? x)%float then atan (y / x)
  else if (x <? 0)%float then
    if (y <? 0)%float then (atan (y / x) - math.Pi)%float
    else (atan (y / x) + math.Pi)%float
  else if (0 <? y)%float then (math.Pi / 2)%float
  else if (y <? 0)%float then (- (math.Pi / 2))%float
  else 0%float.

Definition asin (x : float) : float := atan2 x (PrimFloat.sqrt (1 - x * x)).

(** Exact for a small natural exponent, the only use the sources make. *)
Definition pow (x y : float) : float :=
  Nat.iter (Z.to_nat (truncZ y)) (λ acc, (acc * x)%float) 1%float.

Definition fmod (x y : float) : float := (x - y * float64 (truncZ (x / y)))%float.

#[export] Instance libm : math.Libm :=
  {| math.Sin := sin; math.Cos := cos; math.Asin := asin;
     math.Atan2 := atan2; math.Pow := pow; math.Mod := fmod |}.

(** Modelled from the spec: a global cell identifier is the concatenation
    (PLMN‖eNB-ID‖cell-index), the cell index in the low 8 bits of the 28. *)
#[export] Instance packing : types.Packing :=
  {| types.ToECI := λ enbID cid, Z.lor (Z.shiftl enbID 8) cid;
     types.ToECGI := λ plmnID eci, Z.lor (Z.shiftl plmnID 28) eci;
     types.GetNCI := λ ncgi, Z.land ncgi (2 ^ 36 - 1);
     types.Uint24_ToBytes := λ v,
       default Byte.x00 ∘ Byte.of_N ∘ Z.to_N
         <$> [Z.land v 255; Z.land (Z.shiftr v 8) 255; Z.land (Z.shiftr v 16) 255] |}.

(** The pointy-top layout: x = (√3·q + √3/2·r)·sx, y = 3/2·r·sy. *)
#[export] Instance layout : hexgrid.Layout :=
  λ sx sy h,
    let q := float64 (hexgrid.q h) in
    let r := float64 (hexgrid.r h) in
    ((PrimFloat.sqrt 3 * q + PrimFloat.sqrt 3 / 2 * r) * sx,
     (3 / 2 * r) * sy)%float.

(** Every [range] yields the entries in the order of [map_to_list]. *)
#[export] Instance order : go.MapOrder := λ _ K A l, l.

(** Decimal digits only; anything else is a syntax error with value 0. *)
Definition parseDigits (s : string) : option Z :=
  foldl (λ acc c, n ← acc;
                  let d := Z.of_nat (nat_of_ascii c) - 48 in
                  if decide (0 ≤ d ≤ 9) then Some (10 * n + d) else None)
        (Some 0) (String.list_ascii_of_string s).

#[export] Instance parseInt : strconv.Lib :=
  λ s _ _, match parseDigits s with
           | Some n => (n, None)
           | None => (0, Some (errors.Errorf "invalid syntax"))
           end.

(** A source of draws, and one that returns the same integer at every draw. *)
#[export] Instance source : rand.Source :=
  {| rand.Int63n_draw := λ k,
       (6364136223846793005 * Z.of_nat k + 1442695040888963407) mod 2 ^ 63;
     rand.Float64_draw := λ k, (float64 (Z.of_nat k mod 8) / 8)%float |}.

Definition repeating : rand.Source :=
  {| rand.Int63n_draw := λ _, 0; rand.Float64_draw := λ _, 0.5%float |}.

(** The first cell of the sample model (test.yaml), and a store of cells
    whose random cell it always is. *)
Definition cell1 : model.Cell.t :=
  model.Cell.mk 84325717505
                (model.Sector.mk (model.Coordinate.mk 46 29) 0 180)
                "red" 99999 [] 11.

#[export] Instance cellStore : cells.Store := λ _, Some cell1.

(** A store with no UE, at the start of a run. *)
Definition emptyStore : ues.store := ues.Store ∅ [] 0 (Runtime 0 0 0).

(** PDUs that are the records they are built from, and builders that never
    fail. *)
#[export] Instance pdus : e2ap.Pdus :=
  {| e2ap.RicsubscriptionResponse := subutils.Subscription;
     e2ap.RicsubscriptionFailure := subutils.Subscription;
     e2ap.RicsubscriptionDeleteResponse := subdeleteutils.SubscriptionDelete;
     e2ap.RicsubscriptionDeleteFailure := subdeleteutils.SubscriptionDelete;
     e2ap.Ricindication := e2apIndicationUtils.Indication;
     e2ap.BuildSubscriptionResponse := inl;
     e2ap.BuildSubscriptionFailure := inl;
     e2ap.BuildSubscriptionDeleteResponse := inl;
     e2ap.Indication_Build := inl |}.

(** A table of three declared measurement types. *)
Inductive MeasTypeName := RRCConnEstabAttTot | RRCConnAvg | RRCConnMax.

#[export] Instance MeasTypeName_eq_dec : EqDecision MeasTypeName.
Proof. solve_decision. Defined.

Definition MeasTypeName_String (n : MeasTypeName) : string :=
  match n with
  | RRCConnEstabAttTot => "RRC.ConnEstabAtt.Tot"
  | RRCConnAvg => "RRC.Conn.Avg"
  | RRCConnMax => "RRC.Conn.Max"
  end.

(** A stand-in for the encoder: the bytes of a text the message determines. *)
Definition bytesOf (s : string) : list Byte.byte := String.list_byte_of_string s.

#[export] Instance kpm : kpm2.Collaborators :=
  {| kpm2.MeasTypeName := MeasTypeName;
     kpm2.RRCConnMax := RRCConnMax;
     kpm2.RRCConnAvg := RRCConnAvg;
     kpm2.String_ := MeasTypeName_String;
     kpm2.measTypes :=
       [kpm2.mkMeasType RRCConnEstabAttTot 1; kpm2.mkMeasType RRCConnAvg 2;
        kpm2.mkMeasType RRCConnMax 3];
     kpm2.createInfoLabelList := inl [];
     kpm2.MeasurementDataItem_Build := λ _, None;
     kpm2.getReportPeriod := λ request,
       match e2appducontents.RicEventTriggerDefinition request with
       | [] => inr (errors.New errors.Invalid "no report period")
       | _ => inl 1000
       end;
     kpm2.getActionDefinition := λ _ _, ([], None);
     kpm2.ModelPlugin := unit;
     kpm2.GetPlugin := λ oid,
       if decide (oid = kpm2.ranFunctionE2SmOid) then inl ()
       else inr (errors.New errors.Unavailable "no plugin");
     kpm2.ToAsn1Bytes := λ indicationMessage _,
       inl (bytesOf (kpm2.cellObjID indicationMessage)) |}.

#[export] Instance mhoCollaborators : mho.Collaborators :=
  {| mho.CellStore_Get := λ ncgi,
       Some (model.Cell.mk ncgi (model.Cell.Sector cell1) "red" 99999 [] 11);
     mho.ModelPlugin := unit;
     mho.GetPlugin := λ _, inl ();
     mho.MhoToAsn1Bytes := λ header _, inl (bytesOf (Itoa (mho.nrcellIdentity header)));
     mho.ToAsn1Bytes := λ indicationMessage _, inl (bytesOf (mho.ueID indicationMessage));
     mho.RICIndication := λ _ _, None |}.

(** Three UEs of the first cell: one connected with a candidate cell, one
    idle, one connected without candidate cells. *)
Definition ue (imsi : Z) (st : Rrcstatus) (candidates : list model.UECell.t)
  : model.UE.t :=
  model.UE.mk imsi "phone" (model.Coordinate.mk 0 0) 0
              (model.UECell.mk 84325717505 84325717505 42.5)
              90125 candidates false st.

Definition threeUEs : ues.store :=
  ues.Store (<[1000001 := ue 1000001 Rrcstatus_RRCSTATUS_CONNECTED
                             [model.UECell.mk 84325717506 84325717506 17.25]]>
               (<[1000002 := ue 1000002 Rrcstatus_RRCSTATUS_IDLE
                                [model.UECell.mk 84325717506 84325717506 3]]>
                  (<[1000003 := ue 1000003 Rrcstatus_RRCSTATUS_CONNECTED []]> ∅)))
            [] 0 (Runtime 0 0 0).

(** The first node of the sample model as an MHO service model with one
    subscription, whose ticker runs. *)
Definition node1 : mho.Mho :=
  mho.mk (model.Node.mk 144470 ["controller1"] ["kpm"; "rc"]
                        [84325717505; 84325717506] "stopped")
         314628 "1.3.6.1.4.1.53148.1.2.2.101"
         {[ (10, 1, 5) := subscriptions.mk (10, 1, 5) (Some true) ]}.

Definition subscription1 : subutils.Subscription :=
  subutils.NewSubscription 1 5 10 [7] ∅.

(** The same node with its first cell listed twice. *)
Definition node1Twice : mho.Mho :=
  mho.mk (model.Node.mk 144470 ["controller1"] ["kpm"; "rc"]
                        [84325717505; 84325717505] "stopped")
         314628 "1.3.6.1.4.1.53148.1.2.2.101"
         {[ (10, 1, 5) := subscriptions.mk (10, 1, 5) (Some true) ]}.

(** The response to a delete of that subscription, and the failure PDU for
    a request whose one action, of identifier 7, is not supported. *)
Definition deleteResponse1 : e2ap.RicsubscriptionDeleteResponse :=
  subdeleteutils.NewSubscriptionDelete 1 5 10
  : @e2ap.RicsubscriptionDeleteResponse pdus.

Definition failure1 : e2ap.RicsubscriptionFailure :=
  subutils.NewSubscription 1 5 10 []
    {[ 7 := Cause_RicRequest CauseRic_CAUSE_RIC_ACTION_NOT_SUPPORTED ]}
  : @e2ap.RicsubscriptionFailure pdus.

(** The collaborators of the KPM emitter: a node identifier that is the
    pair it is built from, a header encoded as its time stamp, an E2 channel
    that takes every indication, and a clock that advances by a second at
    every reading. *)
#[export] Instance emitter : kpm2_emitter.Emitter :=
  {| kpm2_emitter.Uint24_Value := λ v, Z.land v (2 ^ 24 - 1);
     kpm2_emitter.GlobalKpmnodeID := Z * (Z * Z);
     kpm2_emitter.NewGlobalGNBID_Build := λ plmnID gNBID, inl (plmnID, gNBID);
     kpm2_emitter.Header_ToAsn1Bytes := λ header _, inl (kpm2_emitter.timeStamp header);
     kpm2_emitter.RICIndication := λ _ _, None;
     kpm2_emitter.Now_Unix := λ n, 1600000000 + Z.of_nat n |}.

(** The same with an E2 channel that is closed. *)
Definition closedChannel : kpm2_emitter.Emitter :=
  {| kpm2_emitter.Uint24_Value := λ v, Z.land v (2 ^ 24 - 1);
     kpm2_emitter.GlobalKpmnodeID := Z * (Z * Z);
     kpm2_emitter.NewGlobalGNBID_Build := λ plmnID gNBID, inl (plmnID, gNBID);
     kpm2_emitter.Header_ToAsn1Bytes := λ header _, inl (kpm2_emitter.timeStamp header);
     kpm2_emitter.RICIndication := λ _ _,
       Some (errors.New errors.Unavailable "channel closed");
     kpm2_emitter.Now_Unix := λ n, 1600000000 + Z.of_nat n |}.

(** The encoder of the MHO message of format 2: the bytes of the UE
    identifier. *)
#[export] Instance encoder : mho_format2.Encoder :=
  λ indicationMessage _, inl (bytesOf (mho_format2.ueID indicationMessage)).

(** The first node of the sample model as a KPM service model, with the
    subscription of [node1], and an emitter at the start of a run. *)
Definition kpmNode1 : kpm2_emitter.Client :=
  kpm2_emitter.mkClient (mho.Node node1) 314628 (mho.Subscriptions node1).

Definition emitter1 : kpm2_emitter.emitter := kpm2_emitter.mkEmitter kpmNode1 [] 0.

(** A subscription that is not in the store. *)
Definition subscription2 : subutils.Subscription :=
  subutils.NewSubscription 2 5 10 [7] ∅.

End example.

(* ===================================================================== *)
(** * Part II: the properties                                             *)
(* ===================================================================== *)

(** ** Loops *)
Module go_facts.

Lemma bind_Returned {A B : Type} (f : A → result B) (a : A) :
  (Returned a ≫= f) = f a.
Proof. reflexivity. Qed.

Lemma bind_inv {A B : Type} (f : A → result B) (r : result A) (b : B) :
  (r ≫= f) = Returned b → ∃ a, r = Returned a ∧ f a = Returned b.
Proof. destruct r as [a|p]; [eauto | discriminate]. Qed.

Lemma forEach_app {A S : Type} (body : A → S → result S) (l1 l2 : list A) (s : S) :
  forEach body (l1 ++ l2) s = (forEach body l1 s ≫= forEach body l2).
Proof.
  revert s; induction l1 as [|x l1 IH]; intros s; [reflexivity|].
  simpl. destruct (body x s) as [s'|p]; simpl; [apply IH | reflexivity].
Qed.

(** A loop whose body returns on every element returns. *)
Lemma forEach_returns {A S : Type} (body : A → S → result S) (l : list A) (s : S) :
  (∀ x s, x ∈ l → ∃ s', body x s = Returned s') →
  ∃ s', forEach body l s = Returned s'.
Proof.
  revert s; induction l as [|x l IH]; intros s Hbody; [by eexists|].
  destruct (Hbody x s) as [s' Hs']; [left|].
  simpl. rewrite Hs'. simpl. apply IH.
  intros y t Hy. apply Hbody. by right.
Qed.

(** A loop whose body returns up to an element on which it panics, panics
    there. *)
Lemma forEach_panics {A S : Type} (body : A → S → result S)
    (l1 : list A) (x : A) (l2 : list A) (p : panic) (s : S) :
  (∀ y s, y ∈ l1 → ∃ s', body y s = Returned s') →
  (∀ s, body x s = Panicked p) →
  forEach body (l1 ++ x :: l2) s = Panicked p.
Proof.
  intros Hret Hpanic. rewrite forEach_app.
  destruct (forEach_returns body l1 s Hret) as [s' ->].
  simpl. by rewrite Hpanic.
Qed.

(** An invariant of the body is an invariant of the loop. *)
Lemma forEach_invariant {A S : Type} (P : S → Prop) (body : A → S → result S)
    (l : list A) (s s' : S) :
  (∀ x s s', x ∈ l → P s → body x s = Returned s' → P s') →
  P s → forEach body l s = Returned s' → P s'.
Proof.
  revert s; induction l as [|x l IH]; intros s Hbody Hs Hrun; simpl in Hrun.
  - by injection Hrun as <-.
  - apply bind_inv in Hrun as (s1 & Hx & Hrun).
    eapply (IH s1); [|by eapply Hbody; [left|..]|done].
    intros y t t' Hy. apply Hbody. by right.
Qed.

(** A loop that appends one element in every round. *)
Lemma foldl_length_succ {A B : Type} (f : list B → A → list B) (l : list A)
    (acc : list B) :
  (∀ acc x, length (f acc x) = S (length acc)) →
  length (foldl f acc l) = (length acc + length l)%nat.
Proof.
  intros Hf. revert acc; induction l as [|x l IH]; intros acc; simpl; [lia|].
  rewrite IH, Hf. lia.
Qed.

(** A loop that appends a function of every element. *)
Lemma foldl_snoc_fmap {A B : Type} (f : A → B) (l : list A) (acc : list B) :
  foldl (λ acc x, acc ++ [f x]) acc l = acc ++ (f <$> l).
Proof.
  revert acc; induction l as [|x l IH]; intros acc; simpl.
  - by rewrite app_nil_r.
  - by rewrite IH, <- app_assoc.
Qed.

Lemma foldl_invariant {A B : Type} (P : A → Prop) (f : A → B → A) (l : list B)
    (a : A) :
  (∀ a x, x ∈ l → P a → P (f a x)) → P a → P (foldl f a l).
Proof.
  revert a; induction l as [|x l IH]; intros a Hf Ha; simpl; [done|].
  apply IH; [|apply Hf; [left|done]].
  intros b y Hy. apply Hf. by right.
Qed.

(** *** Lengths of binds *)

Lemma length_bind_singleton {A B} (g : A → B) (l : list A) :
  length (x ← l; [g x]) = length l.
Proof. induction l as [|x l IH]; [done|]. by rewrite bind_cons, length_app, IH. Qed.

(** The length of a bind is the sum of the lengths of its rows. *)
Lemma length_bind_sum {A B} (f : A → list B) (g : A → nat) (l : list A) :
  (∀ x, x ∈ l → length (f x) = g x) →
  length (l ≫= f) = sum_list_with g l.
Proof.
  induction l as [|x l IH]; [done|]. intros Hl.
  rewrite bind_cons, length_app. simpl.
  rewrite Hl by left. rewrite IH; [done|]. intros y Hy. apply Hl. by right.
Qed.

Lemma sum_list_with_shift {A} (f g : A → nat) (k : nat) (l : list A) :
  (∀ x, x ∈ l → g x = (f x + k)%nat) →
  sum_list_with g l = (sum_list_with f l + k * length l)%nat.
Proof.
  induction l as [|x l IH]; intros Hl; simpl; [lia|].
  rewrite Hl by left. rewrite IH; [lia|]. intros y Hy. apply Hl. by right.
Qed.

End go_facts.

(** ** The topology generator *)
Module honeycomb_facts.
Import model honeycomb honeycomb_spec go_facts.

Section honeycomb_facts.
Context `{math.Libm} `{types.Packing} `{hexgrid.Layout} `{go.MapOrder}
        `{strconv.Lib}.

(** [hexMesh] has one point for each hex of the range. *)
Lemma hexMesh_length (pitch : float) (numTowers : nat) :
  length (hexMesh pitch numTowers)
  = length (hexgrid.HexRange (hexgrid.NewHex 0 0) (numRings numTowers).1).
Proof.
  unfold hexMesh. destruct (numRings numTowers) as [rings e]. simpl.
  rewrite foldl_length_succ; [done|].
  intros acc h. destruct (hexgrid.LayoutPointY00_HexToPixel _ _ _).
  rewrite length_app. simpl. lia.
Qed.

Section loops.
Variables (mapCenter : Coordinate.t) (sectorsPerTower : nat)
          (plmnID : types.PlmnID) (enbStart : Z) (singleNode : bool)
          (aspectRatio : float) (points : list Coordinate.t) (arc : Z)
          (controllers models : list string).

Lemma sectorLoopBody_returns (t : nat) (azOffset : Z) (s : nat) (v : vars) :
  (t < length points)%nat →
  ∃ v', sectorLoopBody mapCenter sectorsPerTower plmnID singleNode
                       aspectRatio points arc t azOffset s v = Returned v'.
Proof.
  intros Ht. unfold sectorLoopBody, index.
  destruct (lookup_lt_is_Some_2 points t Ht) as [p ->]. simpl. eauto.
Qed.

Lemma sectorLoopBody_panics (t : nat) (azOffset : Z) (s : nat) (v : vars) :
  (length points ≤ t)%nat →
  sectorLoopBody mapCenter sectorsPerTower plmnID singleNode
                 aspectRatio points arc t azOffset s v
  = Panicked (IndexOutOfRange (Z.of_nat t) (Z.of_nat (length points))).
Proof.
  intros Ht. unfold sectorLoopBody, index.
  by rewrite (lookup_ge_None_2 points t Ht).
Qed.

Lemma towerLoopBody_returns (t : nat) (v : vars) :
  (t < length points)%nat →
  ∃ v', towerLoopBody mapCenter sectorsPerTower plmnID enbStart singleNode
                      aspectRatio points arc controllers models t v = Returned v'.
Proof.
  intros Ht. unfold towerLoopBody.
  match goal with |- context [forEach ?b ?l ?s] =>
    destruct (forEach_returns b l s) as [v' ->] end.
  - intros x s _. by apply sectorLoopBody_returns.
  - simpl. eauto.
Qed.

Lemma towerLoopBody_panics (t : nat) (v : vars) :
  (length points ≤ t)%nat → sectorsPerTower ≠ 0%nat →
  towerLoopBody mapCenter sectorsPerTower plmnID enbStart singleNode
                aspectRatio points arc controllers models t v
  = Panicked (IndexOutOfRange (Z.of_nat t) (Z.of_nat (length points))).
Proof.
  intros Ht Hs. unfold towerLoopBody.
  assert (seq 0 sectorsPerTower = 0%nat :: seq 1 (sectorsPerTower - 1)) as ->.
  { destruct sectorsPerTower as [|n]; [done|]. simpl. by rewrite Nat.sub_0_r. }
  cbn [forEach]. rewrite sectorLoopBody_panics by done. reflexivity.
Qed.

End loops.

(** With more towers than points in the mesh, the generator panics on the
    first tower that has no point. *)
Lemma GenerateHoneycombTopology_out_of_range
    (mapCenter : Coordinate.t) (numTowers sectorsPerTower : nat)
    (plmnID : types.PlmnID) (enbStart : Z) (pitch maxDistance : float)
    (maxNeighbors : Z) (controllerAddresses serviceModels : list string)
    (singleNode : bool) :
  sectorsPerTower ≠ 0%nat →
  (length (hexMesh pitch numTowers) < numTowers)%nat →
  GenerateHoneycombTopology mapCenter numTowers sectorsPerTower plmnID enbStart
    pitch maxDistance maxNeighbors controllerAddresses serviceModels singleNode
  = Panicked (IndexOutOfRange (Z.of_nat (length (hexMesh pitch numTowers)))
                              (Z.of_nat (length (hexMesh pitch numTowers)))).
Proof.
  intros Hs Hlen. unfold GenerateHoneycombTopology.
  destruct (decide (sectorsPerTower = 0%nat)) as [|_]; [done|].
  rewrite bind_Returned.
  set (L := length (hexMesh pitch numTowers)) in *.
  replace (seq 0 numTowers) with (seq 0 L ++ L :: seq (S L) (numTowers - S L)).
  - erewrite forEach_panics; [reflexivity| |].
    + intros t v Ht. apply towerLoopBody_returns.
      apply elem_of_seq in Ht. unfold L in Ht. lia.
    + intros v. rewrite towerLoopBody_panics; [reflexivity|unfold L; lia|done].
  - transitivity (seq 0 (L + S (numTowers - S L))).
    + by rewrite seq_app.
    + f_equal. lia.
Qed.

(** With a point for every tower, the generator returns a model, and no
    error. *)
Lemma GenerateHoneycombTopology_returns
    (mapCenter : Coordinate.t) (numTowers sectorsPerTower : nat)
    (plmnID : types.PlmnID) (enbStart : Z) (pitch maxDistance : float)
    (maxNeighbors : Z) (controllerAddresses serviceModels : list string)
    (singleNode : bool) :
  sectorsPerTower ≠ 0%nat →
  (numTowers ≤ length (hexMesh pitch numTowers))%nat →
  ∃ m, GenerateHoneycombTopology mapCenter numTowers sectorsPerTower plmnID
         enbStart pitch maxDistance maxNeighbors controllerAddresses
         serviceModels singleNode = Returned (m, None).
Proof.
  intros Hs Hlen. unfold GenerateHoneycombTopology.
  destruct (decide (sectorsPerTower = 0%nat)) as [|_]; [done|].
  rewrite bind_Returned.
  match goal with |- context [forEach ?b ?l ?s] =>
    destruct (forEach_returns b l s) as [v' ->] end.
  - intros t v Ht. apply towerLoopBody_returns. apply elem_of_seq in Ht. lia.
  - simpl. eauto.
Qed.

(** The generator never returns an error. *)
Lemma GenerateHoneycombTopology_no_error
    (mapCenter : Coordinate.t) (numTowers sectorsPerTower : nat)
    (plmnID : types.PlmnID) (enbStart : Z) (pitch maxDistance : float)
    (maxNeighbors : Z) (controllerAddresses serviceModels : list string)
    (singleNode : bool) (m : Model.t) (err : option error) :
  GenerateHoneycombTopology mapCenter numTowers sectorsPerTower plmnID enbStart
    pitch maxDistance maxNeighbors controllerAddresses serviceModels singleNode
  = Returned (m, err) →
  err = None.
Proof.
  unfold GenerateHoneycombTopology. intros Hrun.
  apply bind_inv in Hrun as (arc & _ & Hrun).
  apply bind_inv in Hrun as (v & _ & Hrun). congruence.
Qed.

(** The rings of the table, and the hexes of the range. *)
Lemma numRings_469 : numRings 469 = (11, None).
Proof. reflexivity. Qed.

Lemma numRings_above_469 (k : nat) : (numRings (470 + k)).1 = 0.
Proof. unfold numRings. repeat case_decide; try lia. reflexivity. Qed.

(** The rows of a hexagon of [n] rings: 2n + 1 - |dx| hexes in row [dx]. *)
Lemma sum_rows (n : nat) :
  Z.of_nat (sum_list_with (λ dx, Z.to_nat (2 * Z.of_nat n + 1 - Z.abs dx))
              (seqZ (- Z.of_nat n) (2 * Z.of_nat n + 1)))
  = 3 * Z.of_nat n * Z.of_nat n + 3 * Z.of_nat n + 1.
Proof.
  induction n as [|n IH]; [done|].
  assert (seqZ (- Z.of_nat (S n)) (2 * Z.of_nat (S n) + 1)
          = [- Z.of_nat (S n)] ++ seqZ (- Z.of_nat n) (2 * Z.of_nat n + 1)
            ++ [Z.of_nat (S n)]) as ->.
  { transitivity (seqZ (- Z.of_nat (S n)) (1 + ((2 * Z.of_nat n + 1) + 1)));
      [f_equal; lia|].
    rewrite seqZ_app by lia. rewrite seqZ_app by lia.
    replace (- Z.of_nat (S n) + 1) with (- Z.of_nat n) by lia.
    replace (- Z.of_nat n + (2 * Z.of_nat n + 1)) with (Z.of_nat (S n)) by lia.
    reflexivity. }
  rewrite !sum_list_with_app.
  rewrite (sum_list_with_shift (λ dx, Z.to_nat (2 * Z.of_nat n + 1 - Z.abs dx)) _ 2
             (seqZ (- Z.of_nat n) (2 * Z.of_nat n + 1))).
  - rewrite length_seqZ. simpl sum_list_with. lia.
  - intros x [Hlo Hhi]%elem_of_seqZ. lia.
Qed.

(** The range of [radius] rings has 3 radius² + 3 radius + 1 hexes. *)
Lemma HexRange_length (center : hexgrid.hex) (radius : Z) :
  0 ≤ radius →
  Z.of_nat (length (hexgrid.HexRange center radius)) = 3 * radius * radius + 3 * radius + 1.
Proof.
  intros Hr. unfold hexgrid.HexRange. case_decide; [|lia].
  rewrite (length_bind_sum _ (λ dx, Z.to_nat (2 * radius + 1 - Z.abs dx))).
  - rewrite <-(Z2Nat.id radius) by done. apply sum_rows.
  - intros dx [Hlo Hhi]%elem_of_seqZ.
    rewrite length_bind_singleton, length_seqZ. lia.
Qed.

Lemma HexRange_11_length : length (hexgrid.HexRange (hexgrid.NewHex 0 0) 11) = 397%nat.
Proof. vm_compute. reflexivity. Qed.

Lemma HexRange_0_length : length (hexgrid.HexRange (hexgrid.NewHex 0 0) 0) = 1%nat.
Proof. reflexivity. Qed.

Lemma hexMesh_469_length (pitch : float) : length (hexMesh pitch 469) = 397%nat.
Proof. rewrite hexMesh_length. exact HexRange_11_length. Qed.

Lemma hexMesh_above_469_length (pitch : float) (k : nat) :
  length (hexMesh pitch (470 + k)) = 1%nat.
Proof. rewrite hexMesh_length, numRings_above_469. exact HexRange_0_length. Qed.

(** C1 (the code against the claim).  The claim: a call with 469 towers
    succeeds, and a call with more fails with an Invalid error.  The code:
    for 469 towers [numRings] answers 11 rings, whose range has 397 hexes,
    and the tower loop panics on [points[397]]; for 470 towers and more
    [numRings] answers 0 rings and an error, [hexMesh] drops the error, the
    mesh has one point, and the tower loop panics on [points[1]].  Neither
    call returns, with or without an error.  (Any number of sectors per
    tower other than 0; with 0 the generator panics on the division.) *)
Theorem C1_towers_469_and_above_panic
    (mapCenter : Coordinate.t) (k s : nat)
    (plmnID : types.PlmnID) (enbStart : Z) (pitch maxDistance : float)
    (maxNeighbors : Z) (controllerAddresses serviceModels : list string)
    (singleNode : bool) :
  GenerateHoneycombTopology mapCenter 469 (S s) plmnID enbStart pitch
    maxDistance maxNeighbors controllerAddresses serviceModels singleNode
  = Panicked (IndexOutOfRange 397 397)
  ∧ GenerateHoneycombTopology mapCenter (470 + k) (S s) plmnID enbStart pitch
      maxDistance maxNeighbors controllerAddresses serviceModels singleNode
    = Panicked (IndexOutOfRange 1 1).
Proof.
  split.
  - rewrite GenerateHoneycombTopology_out_of_range; [|done|].
    + by rewrite hexMesh_469_length.
    + rewrite hexMesh_469_length. lia.
  - rewrite GenerateHoneycombTopology_out_of_range; [|done|].
    + by rewrite hexMesh_above_469_length.
    + rewrite hexMesh_above_469_length. lia.
Qed.

(** The mesh has the hexes of the rings that [numRings] answers. *)
Lemma hexMesh_length_rings (pitch : float) (numTowers : nat) :
  Z.of_nat (length (hexMesh pitch numTowers))
  = 3 * (numRings numTowers).1 * (numRings numTowers).1
    + 3 * (numRings numTowers).1 + 1.
Proof.
  rewrite hexMesh_length. apply HexRange_length.
  unfold numRings. repeat case_decide; simpl; lia.
Qed.

(** The mesh has a point for every tower exactly up to 397 towers. *)
Lemma hexMesh_holds_towers (pitch : float) (numTowers : nat) :
  (numTowers ≤ length (hexMesh pitch numTowers))%nat ↔ (numTowers ≤ 397)%nat.
Proof.
  pose proof (hexMesh_length_rings pitch numTowers) as Hlen. revert Hlen.
  unfold numRings. repeat case_decide; simpl; lia.
Qed.

(** The generator returns for up to 397 towers and for no more: the towers
    398 to 469 are not in the 11 rings that the table gives them. *)
Lemma GenerateHoneycombTopology_returns_iff
    (mapCenter : Coordinate.t) (numTowers sectorsPerTower : nat)
    (plmnID : types.PlmnID) (enbStart : Z) (pitch maxDistance : float)
    (maxNeighbors : Z) (controllerAddresses serviceModels : list string)
    (singleNode : bool) :
  sectorsPerTower ≠ 0%nat →
  (∃ m err, GenerateHoneycombTopology mapCenter numTowers sectorsPerTower plmnID
              enbStart pitch maxDistance maxNeighbors controllerAddresses
              serviceModels singleNode = Returned (m, err))
  ↔ (numTowers ≤ 397)%nat.
Proof.
  intros Hsectors. rewrite <-(hexMesh_holds_towers pitch). split.
  - intros (m & err & Hrun).
    destruct (decide (numTowers ≤ length (hexMesh pitch numTowers))%nat) as [|Hshort];
      [done|].
    rewrite GenerateHoneycombTopology_out_of_range in Hrun by (done || lia). done.
  - intros Hfits.
    destruct (GenerateHoneycombTopology_returns mapCenter numTowers sectorsPerTower
                plmnID enbStart pitch maxDistance maxNeighbors controllerAddresses
                serviceModels singleNode Hsectors Hfits) as [m Hrun].
    by exists m, None.
Qed.

(** *** The neighbor lists *)

Lemma addNeighbors_ECGI (sectorsPerTower : nat) (maxDistance : float)
    (maxNeighbors : Z) (others : list Cell.t) (cell : Cell.t) :
  Cell.ECGI (addNeighbors sectorsPerTower maxDistance maxNeighbors cell others)
  = Cell.ECGI cell.
Proof.
  unfold addNeighbors. apply (foldl_invariant (λ c, Cell.ECGI c = Cell.ECGI cell)); [|done].
  intros c other _ Hc. by destruct (_ && _).
Qed.

Lemma addNeighbors_OK (sectorsPerTower : nat) (maxDistance : float)
    (maxNeighbors : Z) (others : list Cell.t) (cell : Cell.t) :
  neighborsOK maxNeighbors cell →
  neighborsOK maxNeighbors
    (addNeighbors sectorsPerTower maxDistance maxNeighbors cell others).
Proof.
  unfold addNeighbors. apply foldl_invariant.
  intros c other _ [Hlen Hself].
  destruct (bool_decide _ && _ && bool_decide _) eqn:Hcond; [|done].
  apply andb_prop in Hcond as [Hcond Hcap%bool_decide_eq_true].
  apply andb_prop in Hcond as [Hne%bool_decide_eq_true _].
  split; simpl.
  - rewrite length_app. simpl. lia.
  - rewrite elem_of_app, list_elem_of_singleton. tauto.
Qed.

Lemma towerLoop_noNeighbors
    (mapCenter : Coordinate.t) (sectorsPerTower : nat) (plmnID : types.PlmnID)
    (enbStart : Z) (singleNode : bool) (aspectRatio : float)
    (points : list Coordinate.t) (arc : Z) (controllers models : list string)
    (towers : list nat) (v v' : vars) :
  noNeighbors v →
  forEach (towerLoopBody mapCenter sectorsPerTower plmnID enbStart singleNode
             aspectRatio points arc controllers models) towers v = Returned v' →
  noNeighbors v'.
Proof.
  apply forEach_invariant. clear v v'.
  intros t v v' _ Hv. unfold towerLoopBody. intros Hrun.
  apply bind_inv in Hrun as (v1 & Hsectors & Hrun).
  injection Hrun as <-.
  eapply (forEach_invariant noNeighbors) in Hsectors.
  - exact Hsectors.
  - clear. intros s v v' _ Hv. unfold sectorLoopBody. intros Hrun.
    apply bind_inv in Hrun as (p & _ & Hrun). injection Hrun as <-.
    intros cellName cell. simpl. rewrite lookup_insert.
    case_decide; [by intros [= <-] | apply Hv].
  - by destruct (negb singleNode || bool_decide (t = 0%nat)).
Qed.

Section order.
Context `{!go.MapOrderLawful}.

Lemma addCellsNeighbors_OK (sectorsPerTower : nat) (maxDistance : float)
    (maxNeighbors : Z) (m : Model.t) :
  (∀ cellName cell, Model.Cells m !! cellName = Some cell → Cell.Neighbors cell = []) →
  ∀ cellName cell,
    Model.Cells (addCellsNeighbors sectorsPerTower maxDistance maxNeighbors m)
      !! cellName = Some cell →
    neighborsOK maxNeighbors cell.
Proof.
  intros Hm. unfold addCellsNeighbors.
  apply (foldl_invariant
           (λ im : nat * Model.t, ∀ cellName cell,
              Model.Cells im.2 !! cellName = Some cell → neighborsOK maxNeighbors cell)).
  - intros [i m'] [name c] Hin Hinv cellName cell. simpl.
    rewrite lookup_insert. case_decide; [|apply Hinv].
    intros [= <-]. apply addNeighbors_OK.
    rewrite rangeOrder_perm in Hin. apply elem_of_map_to_list in Hin.
    apply Hm in Hin. unfold neighborsOK. rewrite Hin. simpl.
    split; [lia|apply not_elem_of_nil].
  - intros cellName cell Hcell. simpl in Hcell. apply Hm in Hcell.
    unfold neighborsOK. rewrite Hcell. simpl. split; [lia|apply not_elem_of_nil].
Qed.

(** C6.  For every cell of the model that [GenerateHoneycombTopology]
    produces, the neighbor list is at most [maxNeighbors] long (a cap that
    is a count: not negative) and does not hold the cell's own ECGI,
    whatever the order in which the runtime ranges over the map of cells. *)
Theorem C6_neighbors_capped_and_without_self
    (mapCenter : Coordinate.t) (numTowers sectorsPerTower : nat)
    (plmnID : types.PlmnID) (enbStart : Z) (pitch maxDistance : float)
    (maxNeighbors : Z) (controllerAddresses serviceModels : list string)
    (singleNode : bool) (model : Model.t) (err : option error) :
  0 ≤ maxNeighbors →
  GenerateHoneycombTopology mapCenter numTowers sectorsPerTower plmnID enbStart
    pitch maxDistance maxNeighbors controllerAddresses serviceModels singleNode
  = Returned (model, err) →
  ∀ cellName cell,
    Model.Cells model !! cellName = Some cell →
    Z.of_nat (length (Cell.Neighbors cell)) ≤ maxNeighbors
    ∧ Cell.ECGI cell ∉ Cell.Neighbors cell.
Proof.
  intros Hcap Hrun cellName cell Hcell.
  unfold GenerateHoneycombTopology in Hrun.
  apply bind_inv in Hrun as (arc & _ & Hrun).
  apply bind_inv in Hrun as (v & Htowers & Hrun).
  injection Hrun as <- <-.
  apply towerLoop_noNeighbors in Htowers.
  - destruct (addCellsNeighbors_OK _ _ _ _ Htowers _ _ Hcell) as [Hlen Hself].
    split; [lia|done].
  - intros name c. simpl. by rewrite lookup_empty.
Qed.

End order.

End honeycomb_facts.
End honeycomb_facts.


(** ** The UE store *)
Module ues_facts.
Import model ues ues_spec go_facts.

Section ues_facts.
Context `{rand.Source} `{cells.Store} `{go.MapOrder}.

(** The IMSI that [CreateUEs] makes of a draw lies in [minIMSI, maxIMSI). *)
Lemma drawn_IMSI_range (r : Z) (rt rt' : runtime) :
  rand.Int63n (maxIMSI - minIMSI) rt = Returned (r, rt') →
  minIMSI ≤ types.IMSI (r + minIMSI) < maxIMSI
  ∧ Int63n_calls rt' = S (Int63n_calls rt)
  ∧ r = rand.Int63n_draw (Int63n_calls rt) mod (maxIMSI - minIMSI).
Proof.
  unfold rand.Int63n.
  destruct (decide (maxIMSI - minIMSI ≤ 0)) as [Hle|_]; [done|].
  intros [= <- <-]. cbn [Int63n_calls].
  set (draw := rand.Int63n_draw (Int63n_calls rt)).
  pose proof (Z.mod_pos_bound draw (maxIMSI - minIMSI) eq_refl) as Hmod.
  unfold types.IMSI, uint64, wrap.
  rewrite Z.mod_small; unfold maxIMSI, minIMSI in *; lia.
Qed.

(** One round of [CreateUEs]: the UE it stores, and the draws it makes. *)
Lemma CreateUEs_body_spec (i : nat) (s s' : store) :
  CreateUEs_body i s = Returned s' →
  ∃ ue,
    ues s' = <[UE.IMSI ue := ue]> (ues s)
    ∧ minIMSI ≤ UE.IMSI ue ≤ maxIMSI - 1
    ∧ UE.IMSI ue ≠ 9999999
    ∧ Int63n_calls (rt s')
      = (Int63n_calls (rt s)
         + if decide (is_Some (ues s !! firstIMSI s)) then 2 else 1)%nat.
Proof.
  unfold CreateUEs_body. intros Hrun.
  apply bind_inv in Hrun as ([r rt1] & Hdraw & Hrun).
  destruct (drawn_IMSI_range _ _ _ Hdraw) as (Hr & Hcalls & ->).
  fold (firstIMSI s) in *.
  apply bind_inv in Hrun as ([imsi rt2] & Hretry & Hrun).
  destruct (cells.GetRandomCell_result (cellStore s)) as [randomCell|]; [|done].
  destruct (rand.Float64 rt2) as [f rt3] eqn:Hf.
  injection Hrun as <-.
  lazymatch goal with
  | |- ∃ ue, ues (Store (<[_ := ?u]> _) _ _ _) = _ ∧ _ => exists u
  end.
  split; [reflexivity|]. simpl.
  assert (Int63n_calls rt3 = Int63n_calls rt2) as ->.
  { unfold rand.Float64 in Hf. by injection Hf as <- <-. }
  destruct (decide (is_Some (ues s !! firstIMSI s))).
  - apply bind_inv in Hretry as ([r' rt2'] & Hdraw' & Hretry).
    injection Hretry as <- <-.
    destruct (drawn_IMSI_range _ _ _ Hdraw') as (Hr' & Hcalls' & _).
    unfold maxIMSI, minIMSI in *. repeat split; lia.
  - injection Hretry as <- <-.
    unfold maxIMSI, minIMSI in *. repeat split; lia.
Qed.


(** Every UE that [CreateUEs] leaves in the store was there before or has an
    IMSI of [minIMSI, maxIMSI). *)
Lemma CreateUEs_IMSI_range (count : Z) (s s' : store) :
  CreateUEs count s = Returned s' →
  ∀ imsi ue, ues s' !! imsi = Some ue →
    ues s !! imsi = Some ue ∨ (UE.IMSI ue = imsi ∧ minIMSI ≤ imsi < maxIMSI).
Proof.
  unfold CreateUEs.
  apply (forEach_invariant
           (λ t, ∀ imsi ue, ues t !! imsi = Some ue →
              ues s !! imsi = Some ue ∨ (UE.IMSI ue = imsi ∧ minIMSI ≤ imsi < maxIMSI))).
  - intros i t t' _ Ht Hbody imsi ue.
    destruct (CreateUEs_body_spec _ _ _ Hbody) as (new & -> & Hrange & _).
    rewrite lookup_insert. case_decide as Heq; [|apply Ht].
    intros [= <-]. right. lia.
  - by left.
Qed.

(** C10.  For a UE of the store, [MoveToCell] returns no error, puts the
    ECGI and the strength into the serving cell of that UE and sends one
    Updated event; IMSI, type, location, heading, CRNTI, candidate cells,
    admission flag and RRC state of the UE, and every other UE, stay as they
    are.  For an IMSI that is not in the store it returns NotFound and leaves
    the store as it is. *)
Theorem C10_MoveToCell_frame (imsi : Z) (ecgi : types.ECGI) (strength : float)
    (s : store) :
  match ues s !! imsi with
  | Some ue =>
      ∃ ue',
        MoveToCell imsi ecgi strength s
        = (None, Store (<[imsi := ue']> (ues s))
                       (watchers s ++ [event.mk (UE.IMSI ue) ue' event.Updated])
                       (cellStore s) (rt s))
        ∧ UECell.ECGI (UE.Cell ue') = ecgi
        ∧ UECell.Strength (UE.Cell ue') = strength
        ∧ UECell.ID (UE.Cell ue') = UECell.ID (UE.Cell ue)
        ∧ UE.IMSI ue' = UE.IMSI ue
        ∧ UE.Type_ ue' = UE.Type_ ue
        ∧ UE.Location ue' = UE.Location ue
        ∧ UE.Heading ue' = UE.Heading ue
        ∧ UE.CRNTI ue' = UE.CRNTI ue
        ∧ UE.Cells ue' = UE.Cells ue
        ∧ UE.IsAdmitted ue' = UE.IsAdmitted ue
        ∧ UE.RrcState ue' = UE.RrcState ue
        ∧ ∀ other, other ≠ imsi →
            ues (MoveToCell imsi ecgi strength s).2 !! other = ues s !! other
  | None =>
      MoveToCell imsi ecgi strength s
      = (Some (errors.New errors.NotFound "UE not found"), s)
  end.
Proof.
  unfold MoveToCell. destruct (ues s !! imsi) as [ue|]; [|done].
  eexists. split; [reflexivity|]. simpl. repeat split.
  intros other Hother. by rewrite lookup_insert_ne.
Qed.

(** *** SetUECount *)

Lemma int64_small (z : Z) : - 2 ^ 63 ≤ z < 2 ^ 63 → int64 z = z.
Proof. intros Hz. unfold int64. rewrite Z.mod_small; lia. Qed.

(** With the count already reached, [SetUECount] does nothing. *)
Lemma SetUECount_at_count (n : Z) (s : store) :
  0 ≤ n < 2 ^ 63 → Len s = n → SetUECount n s = Returned s.
Proof.
  intros Hn Hlen. unfold SetUECount.
  rewrite Hlen, (int64_small n), Z.sub_diag by lia.
  rewrite int64_small by lia. repeat case_decide; [lia..|done].
Qed.

Lemma removeSomeUEs_loop_zero (imsis : list Z) (s : store) :
  removeSomeUEs_loop imsis 0 s = s.
Proof.
  unfold removeSomeUEs_loop. induction imsis as [|imsi imsis IH]; [done|].
  simpl. exact IH.
Qed.

Lemma removeSomeUEs_loop_cons (imsi : Z) (imsis : list Z) (count : Z) (s : store) :
  count ≠ 0 →
  removeSomeUEs_loop (imsi :: imsis) count s
  = removeSomeUEs_loop imsis (int64 (count - 1)) (Delete imsi s).2.
Proof. intros Hc. unfold removeSomeUEs_loop. simpl. by case_decide. Qed.

(** Over distinct IMSIs of the store, the loop of [removeSomeUEs] removes
    as many UEs as it is asked to. *)
Lemma removeSomeUEs_loop_size (imsis : list Z) (count : Z) (s : store) :
  NoDup imsis → (∀ imsi, imsi ∈ imsis → is_Some (ues s !! imsi)) →
  0 ≤ count ≤ Z.of_nat (length imsis) → count < 2 ^ 63 →
  Len (removeSomeUEs_loop imsis count s) = Len s - count.
Proof.
  revert count s. induction imsis as [|imsi imsis IH]; intros count s Hnd Hin Hc Hc'.
  - simpl in Hc. assert (count = 0) as -> by lia.
    rewrite removeSomeUEs_loop_zero. lia.
  - destruct (decide (count = 0)) as [->|Hne].
    { rewrite removeSomeUEs_loop_zero. lia. }
    rewrite removeSomeUEs_loop_cons by done.
    rewrite int64_small by lia.
    apply NoDup_cons in Hnd as [Hnotin Hnd].
    destruct (Hin imsi) as [ue Hue]; [left|].
    assert (Delete imsi s
            = (inl ue, Send (event.mk imsi ue event.Deleted)
                            (with_ues (delete imsi (ues s)) s))) as ->.
    { unfold Delete. by rewrite Hue. }
    simpl. rewrite IH; [| done | | simpl in Hc; lia | lia].
    + unfold Len. simpl. rewrite map_size_delete, Hue.
      assert (size (ues s) ≠ 0%nat).
      { intros Hz. apply map_size_empty_iff in Hz. by rewrite Hz in Hue. }
      lia.
    + intros k Hk. simpl. rewrite lookup_delete_ne; [apply Hin; by right|].
      intros <-. done.
Qed.

Section order.
Context `{!go.MapOrderLawful}.

(** With more UEs in the store than the count, [SetUECount] removes UEs
    down to the count. *)
Lemma SetUECount_shrinks (n : Z) (s s' : store) :
  0 ≤ n < Len s → Len s < 2 ^ 63 →
  SetUECount n s = Returned s' → Len s' = n.
Proof.
  intros Hn Hlen. unfold SetUECount.
  rewrite (int64_small n), int64_small by lia.
  repeat case_decide; try lia. intros [= <-].
  unfold removeSomeUEs, range.
  pose proof (rangeOrder_perm (ranges (rt s)) _ _ (map_to_list (ues s))) as Hperm.
  rewrite removeSomeUEs_loop_size.
  - unfold Len. simpl. unfold Len in *. lia.
  - rewrite Hperm. apply NoDup_fst_map_to_list.
  - intros imsi Himsi. simpl.
    apply list_elem_of_fmap in Himsi as ([k ue] & -> & Hin).
    rewrite Hperm in Hin. apply elem_of_map_to_list in Hin. by eexists.
  - rewrite length_fmap, Hperm, length_map_to_list. unfold Len in *. lia.
  - lia.
Qed.

End order.

End ues_facts.
End ues_facts.

(** ** The RRC driver *)
Module mobility_facts.
Import model mobility mobility_spec.

Section mobility_facts.
Context `{rand.Source}.

(** C9.  [updateRrc] touches no UE but the one it is called for.  That UE
    either stays as it is, with nothing sent on [RrcUpdateChan]; or it was
    IDLE, is now CONNECTED, and the UE as it now is has been sent on the
    channel; or it was CONNECTED, is now IDLE, and has been sent likewise.
    A UE in any other state stays as it is, nothing is sent, and when the
    draw had selected the UE a warning has been logged. *)
Theorem C9_updateRrc_transitions (imsi : Z) (probabilityOfRrcStateChange : float)
    (d : driver) :
  let d' := updateRrc imsi probabilityOfRrcStateChange d in
  let chan := RrcUpdateChan (rrcCtrl d) in
  let chan' := RrcUpdateChan (rrcCtrl d') in
  (∀ other, other ≠ imsi →
     ues.ues (ueStore d') !! other = ues.ues (ueStore d) !! other)
  ∧ match ues.ues (ueStore d) !! imsi with
    | None => ues.ues (ueStore d') = ues.ues (ueStore d) ∧ chan' = chan
    | Some ue =>
        (ues.ues (ueStore d') = ues.ues (ueStore d) ∧ chan' = chan)
        ∨ (UE.RrcState ue = Rrcstatus_RRCSTATUS_IDLE
           ∧ ues.ues (ueStore d') !! imsi
             = Some (withRrcState Rrcstatus_RRCSTATUS_CONNECTED ue)
           ∧ chan' = chan ++ [withRrcState Rrcstatus_RRCSTATUS_CONNECTED ue])
        ∨ (UE.RrcState ue = Rrcstatus_RRCSTATUS_CONNECTED
           ∧ ues.ues (ueStore d') !! imsi
             = Some (withRrcState Rrcstatus_RRCSTATUS_IDLE ue)
           ∧ chan' = chan ++ [withRrcState Rrcstatus_RRCSTATUS_IDLE ue])
    end
  ∧ (∀ ue, ues.ues (ueStore d) !! imsi = Some ue →
       UE.RrcState ue ≠ Rrcstatus_RRCSTATUS_IDLE →
       UE.RrcState ue ≠ Rrcstatus_RRCSTATUS_CONNECTED →
       ues.ues (ueStore d') = ues.ues (ueStore d) ∧ chan' = chan
       ∧ (drawn probabilityOfRrcStateChange d = true →
          log d' = log d ++ [logging.mk logging.Warn
                               ("Invalid RrcState " +:+ Rrcstatus_String (UE.RrcState ue)
                                +:+ " for imsi " +:+ FormatUint imsi)])).
Proof.
  intros d' chan chan'. subst d' chan chan'.
  unfold updateRrc, drawn, rand.Float64, ues.Get. cbn beta iota.
  destruct (_ <? _)%float; cbn [ueStore rrcCtrl log ues.with_rt ues.ues].
  2: { split; [done|]. split; [by destruct (ues.ues (ueStore d) !! imsi); auto|].
       intros ue _ _ _. by repeat split. }
  destruct (ues.ues (ueStore d) !! imsi) as [ue|] eqn:Hue.
  2: { split; [done|]. split; [done|]. by intros ue [=]. }
  destruct (decide (UE.RrcState ue = Rrcstatus_RRCSTATUS_IDLE)) as [Hidle|Hnidle];
    [|destruct (decide (UE.RrcState ue = Rrcstatus_RRCSTATUS_CONNECTED))
        as [Hconn|Hnconn]]; simpl.
  - split; [intros other Hother; by rewrite lookup_insert_ne|].
    split; [|intros ? [= <-]; done].
    right; left. by rewrite lookup_insert_eq.
  - split; [intros other Hother; by rewrite lookup_insert_ne|].
    split; [|intros ? [= <-]; done].
    right; right. by rewrite lookup_insert_eq.
  - split; [done|]. split; [by left|]. by intros ? [= <-].
Qed.

End mobility_facts.
End mobility_facts.

(** ** The KPM v2 service model *)
Module kpm2_facts.
Import model e2appducontents e2smkpmv2 kpm2 kpm2_spec go_facts.

Section kpm2_facts.
Context `{Collaborators} `{e2ap.Pdus}.

(** *** Subscription *)

(** What the loop over the actions has collected, one action later. *)
Lemma RICSubscription_actions_snoc (actionList : list RicactionToBeSetupItem)
    (action : RicactionToBeSetupItem) :
  RICSubscription_actions (actionList ++ [action])
  = let '(accepted, notAdmitted) := RICSubscription_actions actionList in
    (if decide (RicActionType action = RicactionType_RICACTION_TYPE_REPORT)
     then accepted ++ [int32 (RicActionId action)] else accepted,
     if decide (RicActionType action = RicactionType_RICACTION_TYPE_INSERT
                ∨ RicActionType action = RicactionType_RICACTION_TYPE_POLICY)
     then <[int32 (RicActionId action) := notSupported]> notAdmitted
     else notAdmitted).
Proof.
  unfold RICSubscription_actions. rewrite foldl_snoc.
  by destruct (foldl _ _ actionList).
Qed.

(** The accepted actions are the REPORT actions of the request, in order. *)
Lemma RICSubscription_actions_accepted (actionList : list RicactionToBeSetupItem) :
  (RICSubscription_actions actionList).1
  = (λ action, int32 (RicActionId action))
      <$> filter (λ action, RicActionType action = RicactionType_RICACTION_TYPE_REPORT)
                 actionList.
Proof.
  induction actionList as [|action actionList IH] using rev_ind; [done|].
  rewrite RICSubscription_actions_snoc, filter_app, fmap_app.
  destruct (RICSubscription_actions actionList) as [accepted notAdmitted].
  simpl in *. rewrite IH, filter_cons, filter_nil.
  destruct (decide (RicActionType action = _)); simpl; by rewrite ?app_nil_r.
Qed.

(** The actions not admitted are the INSERT and POLICY actions of the
    request, and the cause of each is that the action is not supported. *)
Lemma RICSubscription_actions_notAdmitted (actionList : list RicactionToBeSetupItem)
    (actionID : Z) (cause : Cause) :
  (RICSubscription_actions actionList).2 !! actionID = Some cause
  ↔ cause = notSupported
    ∧ ∃ action, action ∈ actionList
        ∧ int32 (RicActionId action) = actionID
        ∧ (RicActionType action = RicactionType_RICACTION_TYPE_INSERT
           ∨ RicActionType action = RicactionType_RICACTION_TYPE_POLICY).
Proof.
  induction actionList as [|action actionList IH] using rev_ind.
  - simpl. rewrite lookup_empty. split; [done|].
    intros (_ & action & Hin & _). by apply elem_of_nil in Hin.
  - rewrite RICSubscription_actions_snoc.
    destruct (RICSubscription_actions actionList) as [accepted notAdmitted].
    simpl in *.
    assert (∀ P : RicactionToBeSetupItem → Prop,
              (∃ a, a ∈ actionList ++ [action] ∧ P a)
              ↔ (∃ a, a ∈ actionList ∧ P a) ∨ P action) as Hsplit.
    { intros P. split.
      - intros (a & [Hin|Hin%list_elem_of_singleton]%elem_of_app & Ha);
          [left; eauto | subst a; by right].
      - intros [(a & Hin & Ha)|Ha]; [exists a | exists action]; set_solver. }
    rewrite Hsplit.
    destruct (decide (RicActionType action = RicactionType_RICACTION_TYPE_INSERT
                      ∨ RicActionType action = RicactionType_RICACTION_TYPE_POLICY))
      as [Htype|Htype].
    + rewrite lookup_insert. case_decide as Hid.
      * split; [intros [= <-]; auto | by intros [-> _]].
      * rewrite IH. tauto.
    + rewrite IH. tauto.
Qed.

(** With no action accepted, the request is refused. *)
Lemma RICSubscription_refused (request : RicsubscriptionRequest) :
  (RICSubscription_actions (RicActionToBeSetupList request)).1 = [] →
  RICSubscription request
  = match e2ap.BuildSubscriptionFailure
            (subutils.NewSubscription
               (RicRequestorId request) (RanFunctionId request)
               (RicInstanceId request) []
               (RICSubscription_actions (RicActionToBeSetupList request)).2) with
    | inl subscriptionFailure => mkResult None (Some subscriptionFailure) None None
    | inr e => mkResult None None (Some e) None
    end.
Proof.
  unfold RICSubscription, subutils.GetRicActionToBeSetupList,
    subutils.GetRequesterID, subutils.GetRanFunctionID, subutils.GetRicInstanceID.
  destruct (RICSubscription_actions _) as [accepted notAdmitted].
  simpl. by intros ->.
Qed.

(** C3.  For every KPM subscription request: every REPORT action is among
    the accepted actions; every INSERT or POLICY action is among the actions
    not admitted, with the cause that the action is not supported; and when
    no action is accepted, the request gets no response and starts no
    emitter: it is answered with the failure PDU that
    [BuildSubscriptionFailure] makes of the subscription with these two
    lists (or, when that builder itself fails, with its error alone). *)
Theorem C3_subscription_actions (request : RicsubscriptionRequest) :
  let accepted := (RICSubscription_actions (RicActionToBeSetupList request)).1 in
  let notAdmitted := (RICSubscription_actions (RicActionToBeSetupList request)).2 in
  let subscription :=
    subutils.NewSubscription (RicRequestorId request) (RanFunctionId request)
                             (RicInstanceId request) accepted notAdmitted in
  (∀ action, action ∈ RicActionToBeSetupList request →
     RicActionType action = RicactionType_RICACTION_TYPE_REPORT →
     int32 (RicActionId action) ∈ accepted)
  ∧ (∀ action, action ∈ RicActionToBeSetupList request →
       RicActionType action = RicactionType_RICACTION_TYPE_INSERT
       ∨ RicActionType action = RicactionType_RICACTION_TYPE_POLICY →
       notAdmitted !! int32 (RicActionId action) = Some notSupported)
  ∧ (accepted = [] →
     response (RICSubscription request) = None
     ∧ started (RICSubscription request) = None
     ∧ match e2ap.BuildSubscriptionFailure subscription with
       | inl subscriptionFailure =>
           failure (RICSubscription request) = Some subscriptionFailure
           ∧ err (RICSubscription request) = None
       | inr e =>
           failure (RICSubscription request) = None
           ∧ err (RICSubscription request) = Some e
       end).
Proof.
  intros accepted notAdmitted subscription. split; [|split].
  - intros action Hin Htype. unfold accepted.
    rewrite RICSubscription_actions_accepted.
    apply list_elem_of_fmap. exists action. split; [done|].
    by apply list_elem_of_filter.
  - intros action Hin Htype. unfold notAdmitted.
    apply RICSubscription_actions_notAdmitted. eauto.
  - intros Hnone. rewrite (RICSubscription_refused request Hnone).
    subst subscription. rewrite Hnone.
    by destruct (e2ap.BuildSubscriptionFailure _).
Qed.

(** *** Subscription delete *)

(** What [RICSubscriptionDelete] does for a subscription of the store whose
    ticker is set, when the response can be built: it stops the ticker and
    returns the response; the subscription stays in the store. *)
Lemma RICSubscriptionDelete_known (request : RicsubscriptionDeleteRequest)
    (Subscriptions : gmap subscriptions.ID subscriptions.Subscription)
    (sub : subscriptions.Subscription) (ticking : bool)
    (subDeleteResponse : e2ap.RicsubscriptionDeleteResponse) :
  let subID :=
    subscriptions.NewID (subdeleteutils.GetRicInstanceID request)
                        (subdeleteutils.GetRequesterID request)
                        (subdeleteutils.GetRanFunctionID request) in
  Subscriptions !! subID = Some sub →
  subscriptions.Ticker sub = Some ticking →
  e2ap.BuildSubscriptionDeleteResponse
    (subdeleteutils.NewSubscriptionDelete
       (subdeleteutils.GetRequesterID request)
       (subdeleteutils.GetRanFunctionID request)
       (subdeleteutils.GetRicInstanceID request)) = inl subDeleteResponse →
  RICSubscriptionDelete request Subscriptions
  = Returned (mkDeleteResult (Some subDeleteResponse) None None,
              <[subID := subscriptions.mk (subscriptions.ID_ sub) (Some false)]>
                Subscriptions).
Proof.
  intros subID Hsub Hticker Hbuild. unfold RICSubscriptionDelete, subscriptions.Get.
  fold subID. by rewrite Hsub, Hbuild, Hticker.
Qed.

(** For an unknown subscription it returns the error of the store, and
    neither a response nor a failure PDU. *)
Lemma RICSubscriptionDelete_unknown (request : RicsubscriptionDeleteRequest)
    (Subscriptions : gmap subscriptions.ID subscriptions.Subscription) :
  Subscriptions !! subscriptions.NewID (subdeleteutils.GetRicInstanceID request)
                                       (subdeleteutils.GetRequesterID request)
                                       (subdeleteutils.GetRanFunctionID request)
  = None →
  RICSubscriptionDelete request Subscriptions
  = Returned (mkDeleteResult None None
                (Some (errors.New errors.NotFound "subscription not found")),
              Subscriptions).
Proof.
  intros Hsub. unfold RICSubscriptionDelete, subscriptions.Get. by rewrite Hsub.
Qed.

(** C2, as amended.  For a subscription of the store whose ticker is set,
    [RICSubscriptionDelete] stops the ticker and returns the delete response
    (when the response can be built), and the subscription stays in the
    store under its key, so that the same request, made again, is answered
    in the same way.  For an unknown subscription it returns the NotFound
    error of the store, without a response and without a failure PDU, and
    leaves the store as it is. *)
Theorem C2_delete_stops_ticker_keeps_subscription
    (request : RicsubscriptionDeleteRequest)
    (Subscriptions : gmap subscriptions.ID subscriptions.Subscription) :
  let subID :=
    subscriptions.NewID (subdeleteutils.GetRicInstanceID request)
                        (subdeleteutils.GetRequesterID request)
                        (subdeleteutils.GetRanFunctionID request) in
  let stopped sub := subscriptions.mk (subscriptions.ID_ sub) (Some false) in
  match Subscriptions !! subID with
  | Some sub =>
      ∀ ticking subDeleteResponse,
        subscriptions.Ticker sub = Some ticking →
        e2ap.BuildSubscriptionDeleteResponse
          (subdeleteutils.NewSubscriptionDelete
             (subdeleteutils.GetRequesterID request)
             (subdeleteutils.GetRanFunctionID request)
             (subdeleteutils.GetRicInstanceID request)) = inl subDeleteResponse →
        RICSubscriptionDelete request Subscriptions
        = Returned (mkDeleteResult (Some subDeleteResponse) None None,
                    <[subID := stopped sub]> Subscriptions)
        ∧ <[subID := stopped sub]> Subscriptions !! subID = Some (stopped sub)
        ∧ RICSubscriptionDelete request (<[subID := stopped sub]> Subscriptions)
          = Returned (mkDeleteResult (Some subDeleteResponse) None None,
                      <[subID := stopped sub]> Subscriptions)
  | None =>
      RICSubscriptionDelete request Subscriptions
      = Returned (mkDeleteResult None None
                    (Some (errors.New errors.NotFound "subscription not found")),
                  Subscriptions)
  end.
Proof.
  intros subID stopped.
  destruct (Subscriptions !! subID) as [sub|] eqn:Hsub;
    [|by apply RICSubscriptionDelete_unknown].
  intros ticking subDeleteResponse Hticker Hbuild.
  split; [by eapply RICSubscriptionDelete_known|].
  split; [by rewrite lookup_insert_eq|].
  erewrite RICSubscriptionDelete_known;
    [|by rewrite lookup_insert_eq|reflexivity|done].
  by rewrite insert_insert_eq.
Qed.

(** *** The indication message *)

(** The bytes that [createIndicationMessageFormat1] returns are the encoding
    of the message [indicationMessageFormat1]. *)
Lemma createIndicationMessageFormat1_encodes (ueStore : ues.store)
    (cellECGI : types.ECGI) (actionDefinitions : list E2SmKpmActionDefinition) :
  createIndicationMessageFormat1 ueStore cellECGI actionDefinitions
  = (r ← indicationMessageFormat1 ueStore cellECGI actionDefinitions;
     Returned match r with
              | inr err => inr err
              | inl None => inl None
              | inl (Some indicationMessage) => encode indicationMessage
              end).
Proof.
  unfold createIndicationMessageFormat1, indicationMessageFormat1.
  case_decide; [|done]. unfold createDefaultIndicationMsgFormat1.
  by destruct (defaultIndicationMessage _ _).
Qed.

Lemma measRecordItem_expected (ueStore : ues.store) (measType : measType MeasTypeName) :
  measRecordItem ueStore measType = expectedRecord ueStore measType.
Proof.
  unfold measRecordItem, expectedRecord. repeat case_decide; tauto || done.
Qed.

Lemma expectedRecord_fmap (ueStore : ues.store) (l : list (measType MeasTypeName)) :
  expectedRecord ueStore <$> l = measRecordItem ueStore <$> l.
Proof.
  apply list_fmap_ext. intros i measType _. symmetry.
  apply measRecordItem_expected.
Qed.

Lemma reported_declared (actionDefinitions : list E2SmKpmActionDefinition)
    (indicationMessage : IndicationMessage) (measType : measType MeasTypeName) :
  measType ∈ reported actionDefinitions indicationMessage → measType ∈ measTypes.
Proof.
  unfold reported, named. case_decide; [done|].
  intros (measInfo & Hin & _)%list_elem_of_bind.
  by apply list_elem_of_filter in Hin as [_ Hin].
Qed.

Lemma defaultMeasRecord_spec (ueStore : ues.store) :
  defaultMeasRecord ueStore = measRecordItem ueStore <$> measTypes.
Proof.
  unfold defaultMeasRecord. by rewrite foldl_snoc_fmap.
Qed.

(** The inner loop of [createRequestedIndMsgFormat1], when it returns. *)
Lemma requestedMeasRecord_inner (ueStore : ues.store) (measInfo : MeasurementInfoItem)
    (l : list (measType MeasTypeName)) (acc measRecord : list MeasurementRecordItem) :
  forEach (λ measType measRecord,
             name ← MeasName_Value (MeasType measInfo);
             Returned (if decide (String_ (measTypeName measType) = name)
                       then measRecord ++ [measRecordItem ueStore measType]
                       else measRecord)) l acc = Returned measRecord →
  measRecord
  = acc ++ (measRecordItem ueStore
              <$> filter (λ measType,
                            MeasType measInfo
                            = MeasurementType_MeasName (String_ (measTypeName measType))) l).
Proof.
  revert acc. induction l as [|measType l IH]; intros acc; simpl.
  - intros [= <-]. by rewrite app_nil_r.
  - destruct (MeasType measInfo) as [name|id] eqn:Htype; simpl; [|done].
    intros Hrun. apply IH in Hrun as ->. rewrite filter_cons.
    destruct (decide (String_ (measTypeName measType) = name)) as [Heq|Hne].
    + subst name. rewrite decide_True by done. simpl. by rewrite <- app_assoc.
    + rewrite decide_False; [done|]. by intros [= ->].
Qed.

Lemma requestedMeasRecord_outer (ueStore : ues.store)
    (measInfoList : list MeasurementInfoItem)
    (acc measRecord : list MeasurementRecordItem) :
  forEach (λ measInfo,
             forEach (λ measType measRecord,
                        name ← MeasName_Value (MeasType measInfo);
                        Returned (if decide (String_ (measTypeName measType) = name)
                                  then measRecord ++ [measRecordItem ueStore measType]
                                  else measRecord))
                     measTypes)
          measInfoList acc = Returned measRecord →
  measRecord = acc ++ (measRecordItem ueStore <$> named measInfoList).
Proof.
  unfold named. revert acc.
  induction measInfoList as [|measInfo l IH]; intros acc; simpl.
  - intros [= <-]. by rewrite app_nil_r.
  - intros Hrun. apply bind_inv in Hrun as (acc' & Hinner & Hrun).
    apply requestedMeasRecord_inner in Hinner as ->.
    apply IH in Hrun as ->. by rewrite fmap_app, app_assoc.
Qed.

Lemma requestedMeasRecord_spec (ueStore : ues.store)
    (measInfoList : list MeasurementInfoItem) (measRecord : list MeasurementRecordItem) :
  requestedMeasRecord ueStore measInfoList = Returned measRecord →
  measRecord = measRecordItem ueStore <$> named measInfoList.
Proof. apply requestedMeasRecord_outer. Qed.

(** The message built from action definitions carries the list of the
    definition it was built from, and one data item. *)
Lemma requestedIndicationMessage_spec (ueStore : ues.store) (cellECGI : types.ECGI)
    (actionDefinitions : list E2SmKpmActionDefinition)
    (indicationMessage : IndicationMessage) :
  requestedIndicationMessage ueStore cellECGI actionDefinitions
  = Returned (inl (Some indicationMessage)) →
  measData indicationMessage
  = [mkDataItem (measRecordItem ueStore <$> named (measInfoList indicationMessage))
                (Some IncompleteFlag_INCOMPLETE_FLAG_TRUE)]
  ∧ cellObjID indicationMessage = FormatUint (uint64 cellECGI)
  ∧ ∃ f, E2SmKpmActionDefinition_ActionDefinitionFormat1 f ∈ actionDefinitions
         ∧ CellObjId f = FormatUint (uint64 cellECGI)
         ∧ measInfoList indicationMessage = MeasInfoList f
         ∧ granularity indicationMessage = GranulPeriod f
         ∧ subscriptionID indicationMessage = SubscriptId f.
Proof.
  induction actionDefinitions as [|action l IH]; simpl; [done|].
  assert (requestedIndicationMessage ueStore cellECGI l
          = Returned (inl (Some indicationMessage)) →
          measData indicationMessage
          = [mkDataItem (measRecordItem ueStore <$> named (measInfoList indicationMessage))
                        (Some IncompleteFlag_INCOMPLETE_FLAG_TRUE)]
          ∧ cellObjID indicationMessage = FormatUint (uint64 cellECGI)
          ∧ ∃ f, E2SmKpmActionDefinition_ActionDefinitionFormat1 f ∈ action :: l
                 ∧ CellObjId f = FormatUint (uint64 cellECGI)
                 ∧ measInfoList indicationMessage = MeasInfoList f
                 ∧ granularity indicationMessage = GranulPeriod f
                 ∧ subscriptionID indicationMessage = SubscriptId f) as Hrest.
  { intros (Hdata & Hcell & f & Hin & Hf)%IH. repeat split; [done..|].
    exists f. split; [by right|done]. }
  destruct action as [f| |]; [|done..].
  case_decide as Hcell; [|done].
  intros Hrun. apply bind_inv in Hrun as (measRecord & Hrecord & Hrun).
  apply requestedMeasRecord_spec in Hrecord as ->.
  destruct (MeasurementDataItem_Build _); [done|].
  injection Hrun as <-. simpl. repeat split.
  exists f. split; [by left|done].
Qed.

(** C7 (as amended).  In every KPM v2 indication message of format 1 that
    the client builds, the measurement data is one item whose record holds,
    for each declared measurement type that the message reports (in order),
    an integer record with the current UE count of the store when the type
    is RRC.Conn.Max or RRC.Conn.Avg, and a NoValue record for any other
    type.  Without action definitions the message reports every declared
    measurement type, as the claim says.  With action definitions it
    reports the declared types that the items of one action definition name,
    the one of format 1 that is for the cell and whose list the message
    carries: a declared type that no item names has no record, and an item
    that names no declared type has none either. *)
Theorem C7_measurement_records (ueStore : ues.store) (cellECGI : types.ECGI)
    (actionDefinitions : list E2SmKpmActionDefinition)
    (indicationMessage : IndicationMessage) :
  indicationMessageFormat1 ueStore cellECGI actionDefinitions
  = Returned (inl (Some indicationMessage)) →
  measData indicationMessage
  = [mkDataItem (expectedRecord ueStore <$> reported actionDefinitions indicationMessage)
                (Some IncompleteFlag_INCOMPLETE_FLAG_TRUE)]
  ∧ (∀ measType, measType ∈ reported actionDefinitions indicationMessage →
       measType ∈ measTypes)
  ∧ (actionDefinitions = [] →
     reported actionDefinitions indicationMessage = measTypes
     ∧ everyDeclaredTypeReported ueStore indicationMessage)
  ∧ (actionDefinitions ≠ [] →
     reported actionDefinitions indicationMessage
     = named (measInfoList indicationMessage)
     ∧ ∃ f, E2SmKpmActionDefinition_ActionDefinitionFormat1 f ∈ actionDefinitions
            ∧ CellObjId f = FormatUint (uint64 cellECGI)
            ∧ measInfoList indicationMessage = MeasInfoList f).
Proof.
  intros Hrun.
  assert (measData indicationMessage
          = [mkDataItem
               (expectedRecord ueStore <$> reported actionDefinitions indicationMessage)
               (Some IncompleteFlag_INCOMPLETE_FLAG_TRUE)]) as Hdata.
  { unfold indicationMessageFormat1, reported in *.
    rewrite expectedRecord_fmap. case_decide.
    - unfold defaultIndicationMessage, createMeasDefaultData in Hrun.
      destruct createDefaultMeasInfoList; [|done].
      destruct (MeasurementDataItem_Build _); [done|].
      injection Hrun as <-. simpl. by rewrite defaultMeasRecord_spec.
    - by apply requestedIndicationMessage_spec in Hrun as [-> _]. }
  split; [done|]. split; [apply reported_declared|]. split.
  - intros ->. split; [done|]. unfold everyDeclaredTypeReported. by rewrite Hdata.
  - intros Hdefinitions. unfold reported, indicationMessageFormat1 in *.
    assert (length actionDefinitions ≠ 0%nat) as Hlength
      by (by destruct actionDefinitions).
    rewrite decide_False by done. split; [done|].
    case_decide; [done|].
    apply requestedIndicationMessage_spec in Hrun as (_ & _ & f & Hin & Hcell & Hlist & _).
    by exists f.
Qed.

End kpm2_facts.
End kpm2_facts.

(** ** The MHO indications *)
Module mho_facts.
Import model mho mho_spec go_facts.

Section mho_facts.
Context `{types.Packing} `{go.MapOrder} `{Collaborators}.

Lemma ListUEs_spec (ecgi : types.ECGI) (ueStore : ues.store) :
  ues.ListUEs ecgi ueStore
  = (filter (λ ue, UECell.ECGI (UE.Cell ue) = ecgi)
            (rangeOrder (ranges (ues.rt ueStore)) (map_to_list (ues.ues ueStore))).*2,
     (ues.range (ues.ues ueStore) ueStore).2).
Proof.
  unfold ues.ListUEs, ues.range. f_equal.
  generalize (rangeOrder (ranges (ues.rt ueStore)) (map_to_list (ues.ues ueStore))).
  intros entries.
  assert (∀ acc : list UE.t,
            foldl (λ list '(_, ue),
                     if decide (UECell.ECGI (UE.Cell ue) = ecgi) then list ++ [ue]
                     else list) acc entries
            = acc ++ filter (λ ue, UECell.ECGI (UE.Cell ue) = ecgi) entries.*2)
    as Hloop; [|apply (Hloop [])].
  induction entries as [|[imsi ue] entries IH]; intros acc; simpl.
  - by rewrite app_nil_r.
  - rewrite IH, filter_cons. simpl. case_decide; [|done].
    by rewrite <- app_assoc.
Qed.

Lemma ListUEs_ues (ecgi : types.ECGI) (ueStore : ues.store) :
  ues.ues (ues.ListUEs ecgi ueStore).2 = ues.ues ueStore.
Proof. by rewrite ListUEs_spec. Qed.

(** The inner loop of [sendRicIndication], when it returns. *)
Lemma sendRicIndication_inner (m : Mho) (subscription : subutils.Subscription)
    (ncgi : types.NCGI) (ues : list UE.t) (sent sent' : list e2ap.Ricindication) :
  forEach (sendRicIndication_body m subscription ncgi) ues sent = Returned sent' →
  sent' = sent ++ (ue ← ues; handed m subscription (ncgi, ue)).
Proof.
  revert sent. induction ues as [|ue ues IH]; intros sent; simpl.
  - intros [= <-]. by rewrite app_nil_r.
  - intros Hrun. apply bind_inv in Hrun as (sent1 & Hbody & Hrun).
    apply IH in Hrun as ->. rewrite app_assoc. f_equal.
    unfold sendRicIndication_body, handed in *. simpl.
    case_decide.
    + injection Hbody as <-. by rewrite app_nil_r.
    + apply bind_inv in Hbody as ([e indication] & -> & Hbody).
      by injection Hbody as <-.
Qed.

Lemma sendRicIndication_outer (m : Mho) (subscription : subutils.Subscription)
    (cells : list types.NCGI) (ueStore ueStore' : ues.store)
    (sent sent' : list e2ap.Ricindication) :
  forEach (λ ncgi '(sent, ueStore),
             let '(ues, ueStore) := ues.ListUEs ncgi ueStore in
             sent ← forEach (sendRicIndication_body m subscription ncgi) ues sent;
             Returned (sent, ueStore))
          cells (sent, ueStore) = Returned (sent', ueStore') →
  sent' = sent ++ (listed ← listedUEs cells ueStore; handed m subscription listed).
Proof.
  revert sent ueStore. induction cells as [|ncgi cells IH]; intros sent ueStore.
  - simpl. intros [= <- <-]. by rewrite app_nil_r.
  - cbn [forEach listedUEs].
    destruct (ues.ListUEs ncgi ueStore) as [listed ueStore1].
    intros Hrun. apply bind_inv in Hrun as ([sent1 ueStore2] & Hbody & Hrun).
    apply bind_inv in Hbody as (sent2 & Hinner & Hbody).
    injection Hbody as <- <-.
    apply sendRicIndication_inner in Hinner as ->.
    apply IH in Hrun as ->.
    rewrite bind_app, app_assoc. f_equal. f_equal.
    clear. induction listed as [|ue listed IH]; [done|].
    cbn [fmap list_fmap mbind list_bind]. by rewrite <- IH.
Qed.

(** A UE without candidate cells gets no message, and nothing is handed to
    the channel for it. *)
Lemma no_candidates_no_message (m : Mho) (subscription : subutils.Subscription)
    (ncgi : types.NCGI) (ue : UE.t) :
  UE.Cells ue = [] →
  indicationMessageFormat1 m ue = None
  ∧ createIndicationMsgFormat1 m ue = inl None
  ∧ handed m subscription (ncgi, ue) = [].
Proof.
  intros Hcells.
  assert (indicationMessageFormat1 m ue = None) as Hmsg.
  { unfold indicationMessageFormat1. by rewrite Hcells. }
  assert (createIndicationMsgFormat1 m ue = inl None) as Hbytes.
  { unfold createIndicationMsgFormat1. by rewrite Hmsg. }
  repeat split; [done..|].
  unfold handed, sendRicIndicationFormat1. simpl. case_decide; [done|].
  destruct (subscriptions.Get _ _); [|done].
  destruct (createIndicationHeaderBytes m ncgi) as [[?|?]|?]; simpl; [|done..].
  by rewrite Hbytes.
Qed.

(** The message of a UE with candidate cells: the serving cell first, then
    the candidate cells in the order of the UE's list. *)
Lemma candidates_message (m : Mho) (ue : UE.t) :
  UE.Cells ue ≠ [] →
  indicationMessageFormat1 m ue
  = Some (NewIndicationMessage
            (Itoa (int64 (UE.IMSI ue)))
            (reportItem m (UE.Cell ue) :: (reportItem m <$> UE.Cells ue))).
Proof.
  intros Hcells. unfold indicationMessageFormat1.
  destruct (UE.Cells ue) as [|cell cells] eqn:Heq; [done|].
  rewrite decide_False by done. by rewrite foldl_snoc_fmap.
Qed.

(** [sendRicIndicationFormat1] returns for a cell that the store of cells
    knows, with or without an error. *)
Lemma sendRicIndicationFormat1_returns (m : Mho) (ncgi : types.NCGI) (ue : UE.t)
    (subscription : subutils.Subscription) :
  is_Some (CellStore_Get ncgi) →
  ∃ r, sendRicIndicationFormat1 m ncgi ue subscription = Returned r.
Proof.
  intros [cell Hcell]. unfold sendRicIndicationFormat1, createIndicationHeaderBytes.
  destruct (subscriptions.Get _ _); [|by eexists].
  rewrite Hcell. simpl.
  destruct (GetPlugin (OID m)) as [mhoModelPlugin|?]; [|by eexists].
  destruct (MhoToAsn1Bytes _ _); [|by eexists].
  destruct (createIndicationMsgFormat1 m ue) as [[?|]|?]; [|by eexists..].
  destruct (e2ap.Indication_Build _); by eexists.
Qed.

(** A tick returns when the store of cells knows the cells of the node. *)
Lemma sendRicIndication_returns (m : Mho) (subscription : subutils.Subscription)
    (ueStore : ues.store) :
  (∀ ncgi, ncgi ∈ Node.Cells (Node m) → is_Some (CellStore_Get ncgi)) →
  ∃ sent ueStore',
    sendRicIndication m subscription ueStore = Returned (sent, ueStore').
Proof.
  intros Hcells. unfold sendRicIndication.
  lazymatch goal with
  | |- ∃ sent ueStore', forEach ?body ?cells ?s = _ =>
      destruct (forEach_returns body cells s) as [[sent ueStore'] Hrun];
        [|by exists sent, ueStore']
  end.
  intros ncgi [sent ueStore1] Hin.
  destruct (ues.ListUEs ncgi ueStore1) as [listed ueStore2].
  destruct (forEach_returns (sendRicIndication_body m subscription ncgi) listed sent)
    as [sent' Hinner].
  - intros ue sent1 _. unfold sendRicIndication_body.
    case_decide; [by eexists|].
    destruct (sendRicIndicationFormat1_returns m ncgi ue subscription (Hcells ncgi Hin))
      as [[e handed] ->].
    by eexists.
  - rewrite Hinner. by eexists.
Qed.

(** What the code hands to the channel for a listed UE is what the spec has
    the tick emit for it. *)
Lemma handed_emitted (m : Mho) (subscription : subutils.Subscription)
    (listed : types.NCGI * UE.t) :
  handed m subscription listed = emitted m subscription listed.
Proof.
  destruct listed as [ncgi ue]. unfold handed, emitted. cbn [fst snd].
  case_decide; [done|].
  unfold sendRicIndicationFormat1, reportPDU, subscriptions.Get,
    createIndicationHeaderBytes.
  destruct (decide (UE.Cells ue = [])) as [Hcells|Hcells].
  - destruct (no_candidates_no_message m subscription ncgi ue Hcells)
      as (_ & Hbytes & _).
    rewrite Hbytes.
    destruct (Subscriptions m !! _); [|done].
    destruct (CellStore_Get ncgi); [|done]. cbn [mbind result_bind].
    destruct (GetPlugin (OID m)); [|done]. by destruct (MhoToAsn1Bytes _ _).
  - unfold createIndicationMsgFormat1. rewrite (candidates_message m ue Hcells).
    change (reportItem m) with (reportEntry m).
    fold (measurementReport m ue).
    destruct (Subscriptions m !! _); [|done].
    destruct (CellStore_Get ncgi); [|done]. cbn [mbind result_bind].
    destruct (GetPlugin (OID m)) as [mhoModelPlugin|]; [|done].
    destruct (MhoToAsn1Bytes _ _); [|done].
    destruct (ToAsn1Bytes _ _); [|done].
    by destruct (e2ap.Indication_Build _).
Qed.

Lemma bind_handed_emitted (m : Mho) (subscription : subutils.Subscription)
    (l : list (types.NCGI * UE.t)) :
  (listed ← l; handed m subscription listed)
  = (listed ← l; emitted m subscription listed).
Proof.
  induction l as [|listed l IH]; [done|].
  by rewrite !bind_cons, IH, handed_emitted.
Qed.

(** Lists split by a key that is in a list without repetition. *)
Lemma filter_key_cons {A K : Type} `{EqDecision K} (key : A → K) (k : K)
    (ks : list K) (l : list A) :
  k ∉ ks →
  filter (λ x, key x ∈ k :: ks) l
  ≡ₚ filter (λ x, key x = k) l ++ filter (λ x, key x ∈ ks) l.
Proof.
  intros Hk. induction l as [|x l IH]; [done|].
  rewrite !filter_cons.
  destruct (decide (key x = k)) as [Hx|Hx].
  - rewrite decide_True by (rewrite Hx; left).
    rewrite decide_False by (by rewrite Hx). simpl. by rewrite IH.
  - destruct (decide (key x ∈ ks)) as [Hin|Hin].
    + rewrite decide_True by (by right). rewrite IH.
      by rewrite Permutation_middle.
    + rewrite decide_False; [done|].
      intros [?|?]%elem_of_cons; done.
Qed.

Section order.
Context `{!go.MapOrderLawful}.

(** A tick lists every UE of the store that a cell of the node serves, and
    lists it once. *)
Lemma listedUEs_once (cells : list types.NCGI) (ueStore : ues.store) :
  NoDup cells →
  (listedUEs cells ueStore).*2
  ≡ₚ filter (λ ue, UECell.NCGI (UE.Cell ue) ∈ cells)
            (map_to_list (ues.ues ueStore)).*2.
Proof.
  intros Hnd. revert ueStore.
  induction Hnd as [|ncgi cells Hnotin Hnd IH]; intros ueStore.
  - simpl. induction (map_to_list (ues.ues ueStore)).*2 as [|ue l IHl]; [done|].
    rewrite filter_cons, decide_False; [done|]. apply not_elem_of_nil.
  - cbn [listedUEs]. rewrite ListUEs_spec. cbn beta iota.
    rewrite fmap_app, IH.
    replace (ues.ues (ues.range (ues.ues ueStore) ueStore).2)
      with (ues.ues ueStore) by done.
    rewrite (filter_key_cons (λ ue, UECell.NCGI (UE.Cell ue))) by done.
    apply Permutation_app; [|done].
    rewrite <- list_fmap_compose.
    rewrite (list_fmap_ext (snd ∘ pair ncgi) id) by done.
    rewrite list_fmap_id.
    apply filter_Permutation, fmap_Permutation, rangeOrder_perm.
Qed.

(** A UE that one tick lists was listed for a cell of the node, which
    serves it, and is a UE of the store. *)
Lemma listedUEs_served (cells : list types.NCGI) (ueStore : ues.store)
    (ncgi : types.NCGI) (ue : UE.t) :
  (ncgi, ue) ∈ listedUEs cells ueStore →
  ncgi ∈ cells
  ∧ UECell.NCGI (UE.Cell ue) = ncgi
  ∧ ∃ imsi, ues.ues ueStore !! imsi = Some ue.
Proof.
  revert ueStore. induction cells as [|cell cells IH]; intros ueStore.
  - by intros ?%elem_of_nil.
  - cbn [listedUEs]. rewrite ListUEs_spec. cbn beta iota.
    intros [Hin|Hin]%elem_of_app.
    + apply list_elem_of_fmap in Hin as (ue' & [= -> ->] & Hin).
      apply list_elem_of_filter in Hin as [Hserved Hin].
      split; [left|]. split; [done|].
      apply list_elem_of_fmap in Hin as ([imsi stored] & -> & Hin).
      rewrite rangeOrder_perm in Hin. apply elem_of_map_to_list in Hin.
      by exists imsi.
    + apply IH in Hin as (Hcell & Hserved & Hstore).
      split; [by right|]. by split.
Qed.

(** C8 (as amended).  One tick of the MHO emitter returns (when the store
    of cells knows the cells of the node) and hands to the E2 channel, in
    order, for each UE listed for the cells of the node, what the spec has
    it emit: nothing for an idle UE and nothing for a UE without candidate
    cells, and for any other UE the PDU made of the header of the cell and
    of the UE's measurement report.  The report holds the serving cell
    first, then the candidate cells in the order of the UE's list, each with
    the identity of the cell and, as RSRP, its strength cut to the integer
    type of the field.  A UE is listed for a cell of the node that serves
    it; when the cells of the node are distinct, every UE that a cell of
    the node serves is listed once, so that a report is built at most once
    for it.  The tick goes on with the other UEs after a UE that gets no
    PDU. *)
Theorem C8_format1_once_per_UE_serving_cell_first
    (m : Mho) (subscription : subutils.Subscription) (ueStore : ues.store) :
  ((∀ ncgi, ncgi ∈ Node.Cells (Node m) → is_Some (CellStore_Get ncgi)) →
   ∃ sent ueStore',
     sendRicIndication m subscription ueStore = Returned (sent, ueStore'))
  ∧ (∀ sent ueStore',
     sendRicIndication m subscription ueStore = Returned (sent, ueStore') →
     sent = (listed ← listedUEs (Node.Cells (Node m)) ueStore;
             emitted m subscription listed))
  ∧ (∀ listed, (length (emitted m subscription listed) ≤ 1)%nat)
  ∧ (∀ ncgi ue, (ncgi, ue) ∈ listedUEs (Node.Cells (Node m)) ueStore →
       ncgi ∈ Node.Cells (Node m)
       ∧ UECell.NCGI (UE.Cell ue) = ncgi
       ∧ ∃ imsi, ues.ues ueStore !! imsi = Some ue)
  ∧ (NoDup (Node.Cells (Node m)) →
     (listedUEs (Node.Cells (Node m)) ueStore).*2
     ≡ₚ filter (λ ue, UECell.NCGI (UE.Cell ue) ∈ Node.Cells (Node m))
               (map_to_list (ues.ues ueStore)).*2)
  ∧ (∀ ue, UE.Cells ue ≠ [] →
       indicationMessageFormat1 m ue = Some (measurementReport m ue)
       ∧ ueID (measurementReport m ue) = Itoa (int64 (UE.IMSI ue))
       ∧ measReport (measurementReport m ue)
         = (λ cell,
              mkItem (types.Uint24_ToBytes (uint32 (PlmnID m)))
                     (uint64 (types.GetNCI (UECell.NCGI cell)), 36)
                     (int32_of_float64 (UECell.Strength cell)))
             <$> UE.Cell ue :: UE.Cells ue)
  ∧ (∀ ncgi ue, UE.Cells ue = [] →
       indicationMessageFormat1 m ue = None
       ∧ createIndicationMsgFormat1 m ue = inl None
       ∧ handed m subscription (ncgi, ue) = []
       ∧ emitted m subscription (ncgi, ue) = []).
Proof.
  split; [|split; [|split; [|split; [|split; [|split]]]]].
  - apply sendRicIndication_returns.
  - intros sent ueStore' Hrun. unfold sendRicIndication in Hrun.
    apply sendRicIndication_outer in Hrun as ->. simpl.
    apply bind_handed_emitted.
  - intros listed. unfold emitted. repeat case_decide; simpl; [lia..|].
    destruct (reportPDU _ _ _ _); simpl; lia.
  - intros ncgi ue. apply listedUEs_served.
  - apply listedUEs_once.
  - intros ue Hcells. split; [by apply candidates_message|done].
  - intros ncgi ue Hcells.
    destruct (no_candidates_no_message m subscription ncgi ue Hcells)
      as (Hmessage & Hbytes & Hhanded).
    do 3 (split; [done|]). unfold emitted. simpl.
    case_decide; [done|]. by rewrite decide_True.
Qed.

End order.

End mho_facts.
End mho_facts.

(** ** Loops and texts, continued *)
Module go_more.
Import go_facts.

(** An invariant that counts the rounds of a loop over [0, n). *)
Lemma forEach_seq_invariant {S : Type} (P : nat → S → Prop)
    (body : nat → S → result S) (n : nat) (s s' : S) :
  P 0%nat s →
  (∀ i t t', (i < n)%nat → P i t → body i t = Returned t' → P (Datatypes.S i) t') →
  forEach body (seq 0 n) s = Returned s' → P n s'.
Proof.
  intros Hs. revert s'. induction n as [|n IH]; intros s' Hbody Hrun.
  - simpl in Hrun. by injection Hrun as <-.
  - rewrite seq_S, forEach_app in Hrun. simpl in Hrun.
    apply bind_inv in Hrun as (t & Hfirst & Hlast).
    apply bind_inv in Hlast as (t' & Hlast & Hret). injection Hret as <-.
    apply (Hbody n t t'); [lia| |done].
    apply IH; [|done]. intros i u u' Hi. apply Hbody. lia.
Qed.

(** The decimal text of a number that is not negative tells the number. *)
Lemma FormatUint_inj (a b : Z) : 0 ≤ a → 0 ≤ b → FormatUint a = FormatUint b → a = b.
Proof.
  intros Ha Hb Heq. unfold FormatUint in Heq. apply (inj pretty) in Heq. lia.
Qed.

End go_more.

(** ** The topology generator, continued *)
Module honeycomb_more.
Import model honeycomb honeycomb_spec honeycomb_layout go_facts honeycomb_facts.
Import go_more.

Lemma cellNameOf_inj (j k : nat) :
  Z.of_nat j + 1 < 2 ^ 64 → Z.of_nat k + 1 < 2 ^ 64 →
  cellNameOf j = cellNameOf k → j = k.
Proof.
  intros Hj Hk. unfold cellNameOf. intros [= Heq].
  apply FormatUint_inj in Heq.
  - unfold uint64, wrap in Heq. rewrite !Z.mod_small in Heq by lia. lia.
  - unfold uint64, wrap. apply Z.mod_pos_bound. lia.
  - unfold uint64, wrap. apply Z.mod_pos_bound. lia.
Qed.

Lemma nodeNameOf_inj (j k : nat) : nodeNameOf j = nodeNameOf k → j = k.
Proof.
  unfold nodeNameOf. intros [= Heq]. apply FormatUint_inj in Heq; lia.
Qed.

Section honeycomb_more.
Context `{math.Libm} `{types.Packing} `{hexgrid.Layout} `{go.MapOrder}
        `{strconv.Lib}.

Section entries.
Variables (mapCenter : Coordinate.t) (sectorsPerTower : nat)
          (plmnID : types.PlmnID) (enbStart : Z) (singleNode : bool)
          (aspectRatio : float) (points : list Coordinate.t) (arc : Z)
          (controllers models : list string).

Local Abbreviation cellAt :=
  (cellAt mapCenter sectorsPerTower plmnID enbStart singleNode aspectRatio points arc).
Local Abbreviation sectorCell :=
  (sectorCell mapCenter sectorsPerTower plmnID enbStart singleNode aspectRatio points arc).
Local Abbreviation nodeAt :=
  (nodeAt mapCenter sectorsPerTower plmnID enbStart singleNode aspectRatio points arc
          controllers models).
Local Abbreviation nodeSingle :=
  (nodeSingle mapCenter sectorsPerTower plmnID enbStart singleNode aspectRatio points
              arc controllers models).
Local Abbreviation cellEntries :=
  (cellEntries mapCenter sectorsPerTower plmnID enbStart singleNode aspectRatio points
               arc).
Local Abbreviation nodeEntries :=
  (nodeEntries mapCenter sectorsPerTower plmnID enbStart singleNode aspectRatio points
               arc controllers models).
Local Abbreviation nodesAfter :=
  (nodesAfter mapCenter sectorsPerTower plmnID enbStart singleNode aspectRatio points
              arc controllers models).
Local Abbreviation inTower :=
  (inTower mapCenter sectorsPerTower plmnID enbStart singleNode aspectRatio points arc).
Local Abbreviation towersDone :=
  (towersDone mapCenter sectorsPerTower plmnID enbStart singleNode aspectRatio points
              arc controllers models).


Lemma cellEntries_S (n : nat) :
  cellEntries (S n) = cellEntries n ++ [(cellNameOf n, cellAt n)].
Proof. unfold honeycomb_layout.cellEntries. by rewrite seq_S, fmap_app. Qed.

Lemma cellEntries_fresh (n : nat) :
  Z.of_nat n + 1 < 2 ^ 64 → cellNameOf n ∉ (cellEntries n).*1.
Proof.
  intros Hn. unfold honeycomb_layout.cellEntries. rewrite <- list_fmap_compose.
  intros (k & Heq & Hk%elem_of_seq)%list_elem_of_fmap. simpl in Heq.
  apply cellNameOf_inj in Heq; lia.
Qed.

Lemma NoDup_cellEntries (n : nat) :
  Z.of_nat n < 2 ^ 64 → NoDup (cellEntries n).*1.
Proof.
  induction n as [|n IH]; intros Hn; [constructor|].
  rewrite cellEntries_S, fmap_app. apply NoDup_app. split; [apply IH; lia|].
  split; [|apply NoDup_singleton].
  intros name Hname ->%list_elem_of_singleton.
  by apply cellEntries_fresh in Hname; [|lia].
Qed.

Lemma nodeEntries_S (n : nat) :
  nodeEntries (S n) = nodeEntries n ++ [(nodeNameOf n, nodeAt n)].
Proof. unfold honeycomb_layout.nodeEntries. by rewrite seq_S, fmap_app. Qed.

Lemma nodeEntries_fresh (n : nat) : nodeNameOf n ∉ (nodeEntries n).*1.
Proof.
  unfold honeycomb_layout.nodeEntries. rewrite <- list_fmap_compose.
  intros (k & Heq & Hk%elem_of_seq)%list_elem_of_fmap. simpl in Heq.
  apply nodeNameOf_inj in Heq. lia.
Qed.

Lemma NoDup_nodeEntries (n : nat) : NoDup (nodeEntries n).*1.
Proof.
  induction n as [|n IH]; [constructor|].
  rewrite nodeEntries_S, fmap_app. apply NoDup_app. split; [done|].
  split; [|apply NoDup_singleton].
  intros name Hname ->%list_elem_of_singleton. by apply nodeEntries_fresh in Hname.
Qed.


End entries.

Section loops.
Variables (mapCenter : Coordinate.t) (sectorsPerTower : nat)
          (plmnID : types.PlmnID) (enbStart : Z) (singleNode : bool)
          (aspectRatio : float) (points : list Coordinate.t) (arc : Z)
          (controllers models : list string).

Local Abbreviation cellAt :=
  (cellAt mapCenter sectorsPerTower plmnID enbStart singleNode aspectRatio points arc).
Local Abbreviation sectorCell :=
  (sectorCell mapCenter sectorsPerTower plmnID enbStart singleNode aspectRatio points arc).
Local Abbreviation nodeAt :=
  (nodeAt mapCenter sectorsPerTower plmnID enbStart singleNode aspectRatio points arc
          controllers models).
Local Abbreviation nodeSingle :=
  (nodeSingle mapCenter sectorsPerTower plmnID enbStart singleNode aspectRatio points
              arc controllers models).
Local Abbreviation cellEntries :=
  (cellEntries mapCenter sectorsPerTower plmnID enbStart singleNode aspectRatio points
               arc).
Local Abbreviation nodeEntries :=
  (nodeEntries mapCenter sectorsPerTower plmnID enbStart singleNode aspectRatio points
               arc controllers models).
Local Abbreviation nodesAfter :=
  (nodesAfter mapCenter sectorsPerTower plmnID enbStart singleNode aspectRatio points
              arc controllers models).
Local Abbreviation inTower :=
  (inTower mapCenter sectorsPerTower plmnID enbStart singleNode aspectRatio points arc).
Local Abbreviation towersDone :=
  (towersDone mapCenter sectorsPerTower plmnID enbStart singleNode aspectRatio points
              arc controllers models).


Lemma cellAt_sector (t s : nat) :
  (s < sectorsPerTower)%nat → cellAt (t * sectorsPerTower + s) = sectorCell t s.
Proof.
  intros Hs. unfold honeycomb_layout.cellAt.
  rewrite Nat.div_add_l, Nat.div_small, Nat.add_0_r by lia.
  by rewrite Nat.add_comm, Nat.Div0.mod_add, Nat.mod_small by lia.
Qed.


Lemma sectorLoopBody_inTower (t : nat) (v0 : vars) (s : nat) (v v' : vars) :
  Z.of_nat (t * sectorsPerTower + s) + 1 < 2 ^ 64 →
  (s < sectorsPerTower)%nat →
  enbID v0 = enbIDOf enbStart (if singleNode then 0%nat else t) →
  inTower t v0 s v →
  sectorLoopBody mapCenter sectorsPerTower plmnID singleNode aspectRatio points arc t
    (if decide (sectorsPerTower = 6%nat)
     then int32_of_float64 (math.Mod (float64 (Z.of_nat t)) 2 * 30)%float
     else 0) s v = Returned v' →
  inTower t v0 (S s) v'.
Proof.
  intros Hsmall Hs HenbID (Hm & Hid & Hname & Hnode). unfold sectorLoopBody, index.
  destruct (points !! t) as [p|] eqn:Hp; [|done]. rewrite bind_Returned.
  assert (Cell.mk
            (types.ToECGI plmnID
               (types.ToECI (enbID v)
                  (if singleNode && bool_decide (sectorsPerTower = 1%nat)
                   then types.CellID (Z.of_nat t + 1)
                   else types.CellID (Z.of_nat s + 1))))
            (Sector.mk
               (Coordinate.mk (Coordinate.Lat mapCenter + Coordinate.Lat p)
                  (Coordinate.Lng mapCenter + Coordinate.Lng p / aspectRatio))
               (if decide (0 < s)%nat
                then int32 (uint64 (uint64 (360 * Z.of_nat s) / Z.of_nat sectorsPerTower
                       + uint64 (if decide (sectorsPerTower = 6%nat)
                                 then int32_of_float64
                                        (math.Mod (float64 (Z.of_nat t)) 2 * 30)%float
                                 else 0)))
                else if decide (sectorsPerTower = 6%nat)
                     then int32_of_float64 (math.Mod (float64 (Z.of_nat t)) 2 * 30)%float
                     else 0)
               arc)
            "green" 99999 [] 11
          = cellAt (t * sectorsPerTower + s)) as Hcell.
  { rewrite cellAt_sector by done. unfold honeycomb_layout.sectorCell.
    rewrite Hp, Hid, HenbID. reflexivity. }
  cbv zeta. rewrite Hcell.
  replace (Z.of_nat t * Z.of_nat sectorsPerTower + Z.of_nat s + 1)
    with (Z.of_nat (t * sectorsPerTower + s) + 1) by lia.
  fold (cellNameOf (t * sectorsPerTower + s)).
  intros [= <-]. unfold honeycomb_layout.inTower. cbn [m enbID nodeName node].
  split; [|split; [done|split; [done|]]].
  - rewrite Hm, Nat.add_succ_r, cellEntries_S.
    rewrite list_to_map_snoc by (apply cellEntries_fresh; lia). done.
  - rewrite Hnode, seq_S, fmap_app, app_assoc. done.
Qed.



Lemma towerLoopBody_towersDone (m0 : Model.t) (n t : nat) (v v' : vars) :
  Z.of_nat (n * sectorsPerTower) < 2 ^ 64 → (t < n)%nat →
  towersDone m0 t v →
  towerLoopBody mapCenter sectorsPerTower plmnID enbStart singleNode aspectRatio points
    arc controllers models t v = Returned v' →
  towersDone m0 (S t) v'.
Proof.
  intros Hsmall Ht [Hm Hsingle]. unfold towerLoopBody. intros Hrun.
  apply bind_inv in Hrun as (v2 & Hsectors & Hrun). injection Hrun as <-.
  match type of Hsectors with forEach _ _ ?w = _ => set (v1 := w) in * end.
  assert (enbID v1 = enbIDOf enbStart (if singleNode then 0%nat else t)
          ∧ m v1 = m v) as [HenbID Hm1].
  { unfold v1. destruct singleNode; simpl.
    - case_bool_decide as Ht0; simpl; [by subst t|].
      split; [|done]. apply Hsingle; [done|lia].
    - done. }
  apply (forEach_seq_invariant (inTower t v1)) in Hsectors.
  - destruct Hsectors as (Hm2 & Hid2 & Hname2 & Hnode2).
    unfold honeycomb_layout.towersDone. cbn [m enbID nodeName node].
    assert (nodeName v1 = nodeNameOf (if singleNode then 0%nat else t)
            ∧ Node.with_Cells
                (Node.Cells (node v1)
                 ++ (Cell.ECGI ∘ cellAt <$> seq (t * sectorsPerTower) sectorsPerTower))
                (node v1)
              = if singleNode then nodeSingle (S t) else nodeAt t) as [Hname1 Hnode1].
    { unfold v1. destruct singleNode; simpl.
      - case_bool_decide as Ht0; simpl.
        + subst t. split; [done|]. unfold honeycomb_layout.nodeSingle.
          by rewrite Nat.mul_0_l, Nat.mul_1_l.
        + destruct (Hsingle eq_refl) as (_ & -> & ->); [lia|]. split; [done|].
          unfold honeycomb_layout.nodeSingle, Node.with_Cells. simpl.
          by rewrite <- fmap_app, <- seq_app, (Nat.add_comm sectorsPerTower).
      - done. }
    rewrite Hname2, Hnode2, Hname1, Hnode1, Hm2, Hid2, HenbID, Hm1, Hm.
    split.
    + unfold Model.with_Nodes, Model.with_Cells. simpl. f_equal.
      * f_equal. f_equal. lia.
      * unfold honeycomb_layout.nodesAfter. destruct singleNode.
        -- destruct t as [|t]; [by rewrite insert_empty|].
           by rewrite insert_singleton_eq.
        -- rewrite nodeEntries_S, list_to_map_snoc by apply nodeEntries_fresh. done.
    + intros -> _. done.
  - unfold honeycomb_layout.inTower. rewrite Nat.add_0_r, Hm1, Hm. simpl. rewrite app_nil_r.
    by destruct (node v1).
  - intros s u u' Hs Hu. apply sectorLoopBody_inTower; [|done|done|done].
    assert (t * sectorsPerTower + s < n * sectorsPerTower)%nat by nia. lia.
Qed.

(** The tower loop of the generator, from the empty model [m0]. *)
Lemma towerLoop_towersDone (m0 : Model.t) (n : nat) (v0 v : vars) :
  Z.of_nat (n * sectorsPerTower) < 2 ^ 64 →
  m v0 = m0 → Model.Cells m0 = ∅ → Model.Nodes m0 = ∅ →
  forEach (towerLoopBody mapCenter sectorsPerTower plmnID enbStart singleNode
             aspectRatio points arc controllers models) (seq 0 n) v0 = Returned v →
  towersDone m0 n v.
Proof.
  intros Hsmall Hm0 Hcells Hnodes.
  apply (forEach_seq_invariant (towersDone m0)).
  - split; [|lia]. rewrite Hm0. unfold honeycomb_layout.nodesAfter.
    destruct m0; simpl in *; subst. by destruct singleNode.
  - intros t u u' Ht. by apply towerLoopBody_towersDone with n.
Qed.

End loops.

(** *** The pass that adds the neighbors *)

Lemma withNeighborsOf_refl (cells : gmap string Cell.t) : withNeighborsOf cells cells.
Proof. intros name. destruct (cells !! name) as [[]|]; done. Qed.

Lemma withNeighborsOf_lookup (cells0 cells : gmap string Cell.t) (name : string)
    (cell : Cell.t) :
  withNeighborsOf cells0 cells → cells !! name = Some cell →
  ∃ cell0, cells0 !! name = Some cell0
           ∧ cell = Cell.with_Neighbors (Cell.Neighbors cell) cell0.
Proof.
  intros Hcells Hcell. specialize (Hcells name). rewrite Hcell in Hcells.
  destruct (cells0 !! name) as [cell0|]; [eauto|done].
Qed.

Lemma withNeighborsOf_lookup_0 (cells0 cells : gmap string Cell.t) (name : string)
    (cell0 : Cell.t) :
  withNeighborsOf cells0 cells → cells0 !! name = Some cell0 →
  ∃ cell, cells !! name = Some cell
          ∧ cell = Cell.with_Neighbors (Cell.Neighbors cell) cell0.
Proof.
  intros Hcells Hcell. specialize (Hcells name). rewrite Hcell in Hcells.
  destruct (cells !! name) as [cell|]; [eauto|done].
Qed.

Lemma withNeighborsOf_insert (cells0 cells : gmap string Cell.t) (name : string)
    (cell0 cell : Cell.t) :
  withNeighborsOf cells0 cells → cells0 !! name = Some cell0 →
  cell = Cell.with_Neighbors (Cell.Neighbors cell) cell0 →
  withNeighborsOf cells0 (<[name := cell]> cells).
Proof.
  intros Hcells Hcell0 Hcell name'. rewrite lookup_insert. case_decide as Hname.
  - subst name'. by rewrite Hcell0.
  - apply Hcells.
Qed.

Lemma isNeighbor_sector (cell cell' other other' : Cell.t) (maxDistance : float)
    (onlyDistance : bool) :
  Cell.Sector cell = Cell.Sector cell' → Cell.Sector other = Cell.Sector other' →
  isNeighbor cell other maxDistance onlyDistance
  = isNeighbor cell' other' maxDistance onlyDistance.
Proof. unfold isNeighbor. by intros -> ->. Qed.

(** What the inner loop does to a cell without neighbors: the cell keeps
    its other fields, and every neighbor it gets is the ECGI of one of the
    [others], which is not its own and which [isNeighbor] accepts. *)
Lemma addNeighbors_sound (sectorsPerTower : nat) (maxDistance : float)
    (maxNeighbors : Z) (others : list Cell.t) (cell : Cell.t) :
  Cell.Neighbors cell = [] →
  let cell' := addNeighbors sectorsPerTower maxDistance maxNeighbors cell others in
  cell' = Cell.with_Neighbors (Cell.Neighbors cell') cell
  ∧ ∀ ecgi, ecgi ∈ Cell.Neighbors cell' →
      ∃ other, other ∈ others ∧ Cell.ECGI other = ecgi
               ∧ isNeighbor cell other maxDistance
                   (bool_decide (sectorsPerTower = 1%nat)) = true.
Proof.
  intros Hnone. cbv zeta. unfold addNeighbors.
  apply (foldl_invariant
           (λ c, c = Cell.with_Neighbors (Cell.Neighbors c) cell
                 ∧ ∀ ecgi, ecgi ∈ Cell.Neighbors c →
                     ∃ other, other ∈ others ∧ Cell.ECGI other = ecgi
                              ∧ isNeighbor cell other maxDistance
                                  (bool_decide (sectorsPerTower = 1%nat)) = true)).
  - intros c other Hother [Hc Hns].
    destruct (bool_decide _ && _ && bool_decide _) eqn:Hcond; [|done].
    apply andb_prop in Hcond as [Hcond _].
    apply andb_prop in Hcond as [_ Hnear].
    split.
    + rewrite Hc at 2. done.
    + intros ecgi. simpl. rewrite elem_of_app, list_elem_of_singleton.
      intros [Hin | ->]; [by apply Hns|].
      exists other. split; [done|]. split; [done|].
      rewrite <- Hnear. apply isNeighbor_sector; [|done]. by rewrite Hc.
  - split; [by destruct cell|]. rewrite Hnone. by intros ecgi ?%elem_of_nil.
Qed.

Section neighbors.
Context `{!go.MapOrderLawful}.

(** The pass over a model whose cells have no neighbors yet: the model
    keeps its other fields, the cells keep theirs, and every neighbor of a
    cell is the ECGI of a cell of the model that [isNeighbor] accepts. *)
Lemma addCellsNeighbors_sound (sectorsPerTower : nat) (maxDistance : float)
    (maxNeighbors : Z) (m0 : Model.t) :
  (∀ cellName cell, Model.Cells m0 !! cellName = Some cell → Cell.Neighbors cell = []) →
  let model := addCellsNeighbors sectorsPerTower maxDistance maxNeighbors m0 in
  model = Model.with_Cells (Model.Cells model) m0
  ∧ size (Model.Cells model) = size (Model.Cells m0)
  ∧ withNeighborsOf (Model.Cells m0) (Model.Cells model)
  ∧ ∀ cellName cell ecgi,
      Model.Cells model !! cellName = Some cell → ecgi ∈ Cell.Neighbors cell →
      ∃ otherName other,
        Model.Cells model !! otherName = Some other ∧ Cell.ECGI other = ecgi
        ∧ isNeighbor cell other maxDistance (bool_decide (sectorsPerTower = 1%nat))
          = true.
Proof.
  intros Hnone. cbv zeta. unfold addCellsNeighbors.
  set (near (cell : Cell.t) (ecgi : types.ECGI) :=
         ∃ otherName other,
           Model.Cells m0 !! otherName = Some other ∧ Cell.ECGI other = ecgi
           ∧ isNeighbor cell other maxDistance (bool_decide (sectorsPerTower = 1%nat))
             = true).
  match goal with |- context [foldl ?f ?a ?l] =>
    assert ((foldl f a l).2 = Model.with_Cells (Model.Cells (foldl f a l).2) m0
            ∧ size (Model.Cells (foldl f a l).2) = size (Model.Cells m0)
            ∧ withNeighborsOf (Model.Cells m0) (Model.Cells (foldl f a l).2)
            ∧ ∀ cellName cell ecgi,
                Model.Cells (foldl f a l).2 !! cellName = Some cell →
                ecgi ∈ Cell.Neighbors cell → near cell ecgi)
      as (Hframe & Hsize & Hcells & Hnear)
  end.
  { apply (foldl_invariant
             (λ im : nat * Model.t,
                im.2 = Model.with_Cells (Model.Cells im.2) m0
                ∧ size (Model.Cells im.2) = size (Model.Cells m0)
                ∧ withNeighborsOf (Model.Cells m0) (Model.Cells im.2)
                ∧ ∀ cellName cell ecgi,
                    Model.Cells im.2 !! cellName = Some cell →
                    ecgi ∈ Cell.Neighbors cell → near cell ecgi)).
    - intros [i mi] [name c] Hin (Hframe & Hsize & Hcells & Hnear). cbn [snd] in *.
      rewrite rangeOrder_perm in Hin. apply elem_of_map_to_list in Hin.
      destruct (addNeighbors_sound sectorsPerTower maxDistance maxNeighbors
                  (rangeOrder (3 + i) (map_to_list (Model.Cells mi))).*2 c
                  (Hnone _ _ Hin)) as [Hc Hns].
      destruct (withNeighborsOf_lookup_0 _ _ _ _ Hcells Hin) as (ci & Hci & _).
      split; [by rewrite Hframe|]. cbn [Model.Cells Model.with_Cells].
      split; [by rewrite map_size_insert_Some|].
      split; [by apply withNeighborsOf_insert with c|].
      intros cellName cell ecgi. rewrite lookup_insert.
      destruct (decide (name = cellName)) as [_|Hname].
      + intros [= <-] Hecgi. apply Hns in Hecgi as (other & Hother & Hid & Hok).
        apply list_elem_of_fmap in Hother as ([otherName other'] & -> & Hother).
        rewrite rangeOrder_perm in Hother. apply elem_of_map_to_list in Hother.
        destruct (withNeighborsOf_lookup _ _ _ _ Hcells Hother) as (other0 & Hother0 & Heq).
        exists otherName, other0. split; [done|]. cbn [snd] in *.
        split; [by rewrite <- Hid, Heq|].
        rewrite <- Hok. apply isNeighbor_sector; [|by rewrite Heq].
        change (S (S (S i))) with (3 + i)%nat. by rewrite Hc.
      + apply Hnear.
    - cbn [snd]. split; [by destruct m0|]. split; [done|].
      split; [apply withNeighborsOf_refl|].
      intros cellName cell ecgi Hcell. apply Hnone in Hcell. rewrite Hcell.
      by intros ?%elem_of_nil. }
  split; [done|]. split; [done|]. split; [done|].
  intros cellName cell ecgi Hcell Hecgi.
  destruct (Hnear _ _ _ Hcell Hecgi) as (otherName & other0 & Hother0 & Hid & Hok).
  destruct (withNeighborsOf_lookup_0 _ _ _ _ Hcells Hother0) as (other & Hother & Heq).
  exists otherName, other. split; [done|]. split; [by rewrite Heq|].
  rewrite <- Hok. apply isNeighbor_sector; [done|]. by rewrite Heq.
Qed.


End neighbors.

(** *** The generator *)

Section GenerateHoneycombTopology.
Variables (mapCenter : Coordinate.t) (numTowers sectorsPerTower : nat)
          (plmnID : types.PlmnID) (enbStart : Z) (pitch : float)
          (maxDistance : float) (maxNeighbors : Z)
          (controllerAddresses serviceModels : list string)
          (singleNode : bool).

Local Abbreviation aspectRatio := (utils.AspectRatio (Coordinate.Lat mapCenter)).
Local Abbreviation points := (hexMesh pitch numTowers).
Local Abbreviation arc := (int32 (360 / Z.of_nat sectorsPerTower)).
Local Abbreviation controllers :=
  ((rangeOrder 0 (map_to_list (generateControllers controllerAddresses))).*1).
Local Abbreviation models :=
  ((rangeOrder 1 (map_to_list (generateServiceModels serviceModels))).*1).
Local Abbreviation m0 :=
  (Model.mk plmnID (MapLayout.mk mapCenter 1.25) ∅ ∅
            (generateControllers controllerAddresses)
            (generateServiceModels serviceModels)).

(** The two passes of the generator. *)
Lemma GenerateHoneycombTopology_passes (model : Model.t) (err : option error) :
  Z.of_nat (numTowers * sectorsPerTower) < 2 ^ 64 →
  GenerateHoneycombTopology mapCenter numTowers sectorsPerTower plmnID enbStart
    pitch maxDistance maxNeighbors controllerAddresses serviceModels singleNode
  = Returned (model, err) →
  ∃ v, towersDone mapCenter sectorsPerTower plmnID enbStart singleNode aspectRatio
         points arc controllers models m0 numTowers v
       ∧ noNeighbors v
       ∧ (numTowers ≤ length points)%nat
       ∧ model = addCellsNeighbors sectorsPerTower maxDistance maxNeighbors (m v).
Proof.
  intros Hsmall Hrun.
  assert (numTowers ≤ length points)%nat as Hfits.
  { destruct (decide (sectorsPerTower = 0%nat)) as [Hzero|Hsectors].
    - unfold GenerateHoneycombTopology in Hrun. by rewrite decide_True in Hrun.
    - destruct (decide (numTowers ≤ length points)%nat) as [|Hshort]; [done|].
      rewrite GenerateHoneycombTopology_out_of_range in Hrun by (done || lia). done. }
  unfold GenerateHoneycombTopology in Hrun.
  apply bind_inv in Hrun as (arc' & Harc & Hrun).
  destruct (decide (sectorsPerTower = 0%nat)); [done|]. injection Harc as <-.
  apply bind_inv in Hrun as (v & Htowers & Hrun). injection Hrun as <- <-.
  exists v. split; [|split; [|done]].
  - eapply towerLoop_towersDone in Htowers; [exact Htowers|done..].
  - eapply towerLoop_noNeighbors; [|done]. intros name c. simpl.
    by rewrite lookup_empty.
Qed.


(** X1.  Whether [GenerateHoneycombTopology] returns is decided by two of
    its arguments.  Without sectors ([sectorsPerTower = 0]) it panics on the
    division [360 / sectorsPerTower], whatever the number of towers.
    Otherwise it returns a model, and no error, for up to 397 towers, and
    for more it panics on the first tower for which the mesh has no point.
    It never returns an error. *)
Theorem generator_returns_or_panics :
  match GenerateHoneycombTopology mapCenter numTowers sectorsPerTower plmnID enbStart
          pitch maxDistance maxNeighbors controllerAddresses serviceModels singleNode
  with
  | Returned (model, err) =>
      sectorsPerTower ≠ 0%nat ∧ (numTowers ≤ 397)%nat ∧ err = None
  | Panicked p =>
      (sectorsPerTower = 0%nat ∧ p = IntegerDivideByZero)
      ∨ (sectorsPerTower ≠ 0%nat ∧ (397 < numTowers)%nat
         ∧ p = IndexOutOfRange (Z.of_nat (length points))
                               (Z.of_nat (length points)))
  end.
Proof.
  destruct (decide (sectorsPerTower = 0%nat)) as [Hzero|Hsectors].
  - unfold GenerateHoneycombTopology. rewrite decide_True by done. by left.
  - pose proof (hexMesh_holds_towers pitch numTowers) as Hfits.
    destruct (decide (numTowers ≤ 397)%nat) as [Hle|Hgt].
    + destruct (GenerateHoneycombTopology_returns mapCenter numTowers
                  sectorsPerTower plmnID enbStart pitch maxDistance maxNeighbors
                  controllerAddresses serviceModels singleNode Hsectors)
        as [model ->]; [tauto|done].
    + rewrite GenerateHoneycombTopology_out_of_range by (done || lia).
      right. split; [done|]. split; [lia|done].
Qed.

(** X2.  The nodes of the generated model and the fields the generator
    copies.  With [singleNode] unset there is one node for each tower, named
    node1, node2, ..., the node of tower [t] having the ECGIs of its sectors
    in order.  With [singleNode] set there is one node, node1, with the
    ECGIs of all cells in order (and none at all without towers).  The
    neighbor pass leaves the nodes as the tower loop made them. *)
Theorem nodes_of_the_honeycomb (model : Model.t) (err : option error) :
  Z.of_nat (numTowers * sectorsPerTower) < 2 ^ 64 →
  GenerateHoneycombTopology mapCenter numTowers sectorsPerTower plmnID enbStart
    pitch maxDistance maxNeighbors controllerAddresses serviceModels singleNode
  = Returned (model, err) →
  Model.PlmnID model = plmnID
  ∧ Model.MapLayout model = MapLayout.mk mapCenter 1.25
  ∧ Model.Controllers model = generateControllers controllerAddresses
  ∧ Model.ServiceModels model = generateServiceModels serviceModels
  ∧ if singleNode
    then Model.Nodes model
         = if decide (numTowers = 0%nat) then ∅
           else {[ "node1" :=
                     nodeSingle mapCenter sectorsPerTower plmnID enbStart singleNode
                       aspectRatio points arc controllers models numTowers ]}
    else size (Model.Nodes model) = numTowers
         ∧ ∀ t, (t < numTowers)%nat →
             Model.Nodes model !! nodeNameOf t
             = Some (nodeAt mapCenter sectorsPerTower plmnID enbStart singleNode
                       aspectRatio points arc controllers models t).
Proof.
  intros Hsmall Hrun.
  destruct (GenerateHoneycombTopology_passes model err Hsmall Hrun)
    as (v & [Hm _] & _ & _ & ->).
  unfold addCellsNeighbors.
  match goal with |- context [foldl ?f ?a ?l] =>
    assert (Model.PlmnID (foldl f a l).2 = Model.PlmnID (m v)
            ∧ Model.MapLayout (foldl f a l).2 = Model.MapLayout (m v)
            ∧ Model.Controllers (foldl f a l).2 = Model.Controllers (m v)
            ∧ Model.ServiceModels (foldl f a l).2 = Model.ServiceModels (m v)
            ∧ Model.Nodes (foldl f a l).2 = Model.Nodes (m v))
      as (-> & -> & -> & -> & ->)
  end.
  { apply (foldl_invariant
             (λ im : nat * Model.t,
                Model.PlmnID im.2 = Model.PlmnID (m v)
                ∧ Model.MapLayout im.2 = Model.MapLayout (m v)
                ∧ Model.Controllers im.2 = Model.Controllers (m v)
                ∧ Model.ServiceModels im.2 = Model.ServiceModels (m v)
                ∧ Model.Nodes im.2 = Model.Nodes (m v))).
    - by intros [i mi] [name c] _ Hframe.
    - done. }
  rewrite Hm.
  cbn [Model.PlmnID Model.MapLayout Model.Controllers Model.ServiceModels Model.Nodes
       Model.with_Nodes Model.with_Cells].
  repeat (split; [done|]). unfold honeycomb_layout.nodesAfter.
  destruct singleNode.
  - destruct numTowers; [done|]. by rewrite decide_False.
  - split.
    + rewrite map_size_list_to_map by apply NoDup_nodeEntries.
      unfold honeycomb_layout.nodeEntries. by rewrite length_fmap, length_seq.
    + intros t Ht. apply elem_of_list_to_map; [apply NoDup_nodeEntries|].
      unfold honeycomb_layout.nodeEntries. apply list_elem_of_fmap.
      exists t. split; [done|]. apply elem_of_seq. lia.
Qed.

Section order.
Context `{!go.MapOrderLawful}.

(** X3.  The cells of the generated model: [numTowers * sectorsPerTower]
    of them; sector [s] of tower [t] is named cell<t*sectorsPerTower+s+1>,
    stands on the [t]-th point of the mesh, and is the cell that the tower
    loop made ([sectorCell]) but for its neighbors. *)
Theorem cells_of_the_honeycomb (model : Model.t) (err : option error) :
  Z.of_nat (numTowers * sectorsPerTower) < 2 ^ 64 →
  GenerateHoneycombTopology mapCenter numTowers sectorsPerTower plmnID enbStart
    pitch maxDistance maxNeighbors controllerAddresses serviceModels singleNode
  = Returned (model, err) →
  size (Model.Cells model) = (numTowers * sectorsPerTower)%nat
  ∧ ∀ t s, (t < numTowers)%nat → (s < sectorsPerTower)%nat →
      is_Some (points !! t)
      ∧ ∃ cell,
          Model.Cells model !! cellNameOf (t * sectorsPerTower + s) = Some cell
          ∧ cell = Cell.with_Neighbors (Cell.Neighbors cell)
                     (sectorCell mapCenter sectorsPerTower plmnID enbStart singleNode
                        aspectRatio points arc t s).
Proof.
  intros Hsmall Hrun.
  destruct (GenerateHoneycombTopology_passes model err Hsmall Hrun)
    as (v & [Hm _] & Hnone & Hfits & ->).
  destruct (addCellsNeighbors_sound sectorsPerTower maxDistance maxNeighbors (m v) Hnone)
    as (_ & Hsize & Hcells & _).
  assert (NoDup (cellEntries mapCenter sectorsPerTower plmnID enbStart singleNode
                   aspectRatio points arc (numTowers * sectorsPerTower)).*1) as Hnames
    by (apply NoDup_cellEntries; lia).
  assert (Model.Cells (m v)
          = list_to_map (cellEntries mapCenter sectorsPerTower plmnID enbStart
                           singleNode aspectRatio points arc
                           (numTowers * sectorsPerTower))) as Hmade
    by (by rewrite Hm).
  rewrite Hmade in Hsize, Hcells.
  split.
  - rewrite Hsize, map_size_list_to_map by done.
    unfold honeycomb_layout.cellEntries. by rewrite length_fmap, length_seq.
  - intros t s Ht Hs. split.
    + apply lookup_lt_is_Some_2. lia.
    + eapply withNeighborsOf_lookup_0 in Hcells as (cell & Hcell & Heq).
      * exists cell. split; [exact Hcell|]. rewrite <- cellAt_sector by done.
        exact Heq.
      * apply elem_of_list_to_map; [done|].
        unfold honeycomb_layout.cellEntries. apply list_elem_of_fmap.
        exists (t * sectorsPerTower + s)%nat. split; [done|]. apply elem_of_seq. nia.
Qed.

(** X4.  Every neighbor of a cell of the generated model is the ECGI of a
    cell of the model, one that [isNeighbor] accepts for the cell: at the
    same coordinates, within [maxDistance] when towers have one sector, or
    with a reach point within half of [maxDistance]. *)
Theorem neighbors_are_near_cells_of_the_model (model : Model.t) (err : option error) :
  GenerateHoneycombTopology mapCenter numTowers sectorsPerTower plmnID enbStart
    pitch maxDistance maxNeighbors controllerAddresses serviceModels singleNode
  = Returned (model, err) →
  ∀ cellName cell ecgi,
    Model.Cells model !! cellName = Some cell → ecgi ∈ Cell.Neighbors cell →
    ∃ otherName other,
      Model.Cells model !! otherName = Some other ∧ Cell.ECGI other = ecgi
      ∧ isNeighbor cell other maxDistance (bool_decide (sectorsPerTower = 1%nat))
        = true.
Proof.
  intros Hrun. unfold GenerateHoneycombTopology in Hrun.
  apply bind_inv in Hrun as (arc' & _ & Hrun).
  apply bind_inv in Hrun as (v & Htowers & Hrun). injection Hrun as <- <-.
  apply towerLoop_noNeighbors in Htowers.
  - apply (addCellsNeighbors_sound sectorsPerTower maxDistance maxNeighbors (m v) Htowers).
  - intros name c. simpl. by rewrite lookup_empty.
Qed.

(** X5.  With a cap of zero or less ([maxNeighbors ≤ 0]) no cell of the
    generated model has a neighbor. *)
Theorem no_neighbors_under_a_cap_of_zero (model : Model.t) (err : option error) :
  maxNeighbors ≤ 0 →
  GenerateHoneycombTopology mapCenter numTowers sectorsPerTower plmnID enbStart
    pitch maxDistance maxNeighbors controllerAddresses serviceModels singleNode
  = Returned (model, err) →
  ∀ cellName cell,
    Model.Cells model !! cellName = Some cell → Cell.Neighbors cell = [].
Proof.
  intros Hcap Hrun cellName cell Hcell. unfold GenerateHoneycombTopology in Hrun.
  apply bind_inv in Hrun as (arc' & _ & Hrun).
  apply bind_inv in Hrun as (v & Htowers & Hrun). injection Hrun as <- <-.
  apply towerLoop_noNeighbors in Htowers.
  - destruct (addCellsNeighbors_OK _ _ _ _ Htowers _ _ Hcell) as [Hlen _].
    apply length_zero_iff_nil. lia.
  - intros name c. simpl. by rewrite lookup_empty.
Qed.

End order.
End GenerateHoneycombTopology.
End honeycomb_more.
End honeycomb_more.

Module honeycomb_controllers.
Import model honeycomb honeycomb_layout go_facts go_more honeycomb_more.


Lemma controllerNameOf_inj (i j : nat) :
  controllerNameOf i = controllerNameOf j → i = j.
Proof.
  unfold controllerNameOf. intros [= Heq]. apply FormatUint_inj in Heq; lia.
Qed.

Lemma controllerEntries_names (addresses : list string) :
  (controllerEntries addresses).*1 = controllerNameOf <$> seq 0 (length addresses).
Proof.
  unfold controllerEntries. rewrite fmap_imap, <- (imap_seq_0 addresses).
  by apply imap_ext.
Qed.

Lemma NoDup_controllerEntries (addresses : list string) :
  NoDup (controllerEntries addresses).*1.
Proof.
  rewrite controllerEntries_names. apply NoDup_fmap_2; [|apply NoDup_seq].
  intros i j. apply controllerNameOf_inj.
Qed.

Lemma generateControllers_entries (addresses : list string) :
  generateControllers addresses = list_to_map (controllerEntries addresses).
Proof.
  unfold generateControllers, controllerEntries.
  induction addresses as [|address addresses IH] using rev_ind; [done|].
  rewrite !imap_app, foldl_app, IH. cbn [imap foldl]. rewrite Nat.add_0_r.
  rewrite list_to_map_snoc; [done|].
  fold (controllerEntries addresses). rewrite controllerEntries_names.
  intros (i & Heq & Hi%elem_of_seq)%list_elem_of_fmap.
  apply controllerNameOf_inj in Heq. lia.
Qed.

(** X6.  [generateControllers] makes one controller for each address:
    the controller of the [i]-th address (from 0) is named e2t-<i+1>,
    carries this name as its identifier, the address, and port 36421; there
    are no other controllers. *)
Theorem one_controller_for_each_address (addresses : list string) :
  size (generateControllers addresses) = length addresses
  ∧ (∀ i address,
       addresses !! i = Some address →
       generateControllers addresses !! controllerNameOf i
       = Some (Controller.mk (controllerNameOf i) address 36421))
  ∧ (∀ name controller,
       generateControllers addresses !! name = Some controller →
       Controller.ID controller = name ∧ Controller.Port controller = 36421
       ∧ Controller.Address controller ∈ addresses).
Proof.
  rewrite generateControllers_entries.
  pose proof (NoDup_controllerEntries addresses) as Hnames.
  split; [|split].
  - rewrite map_size_list_to_map by done. apply length_imap.
  - intros i address Haddress. apply elem_of_list_to_map; [done|].
    unfold controllerEntries.
    apply (elem_of_lookup_imap_2
             (λ i address, (controllerNameOf i,
                            Controller.mk (controllerNameOf i) address 36421))
             addresses address i Haddress).
  - intros name controller Hlookup%elem_of_list_to_map; [|done].
    apply elem_of_lookup_imap_1 in Hlookup as (i & address & [= -> ->] & Haddress).
    simpl. split; [done|]. split; [done|]. by eapply list_elem_of_lookup_2.
Qed.

End honeycomb_controllers.

(** ** The UE store, continued *)
Module ues_more.
Import model ues ues_spec ues_terms go_facts go_more ues_facts.

Section ues_more.
Context `{rand.Source} `{cells.Store} `{go.MapOrder}.

(** X7.  [Delete] of a UE of the store returns the UE, takes it out of the
    store and sends one Deleted event that carries it; afterwards [Get] and
    a second [Delete] of the same IMSI answer NotFound, the store is one UE
    shorter and every other UE is found as before.  [Delete] of an IMSI that
    is not in the store answers NotFound and leaves the store, events
    included, as it is. *)
Theorem Delete_takes_the_UE_out (imsi : Z) (s : store) :
  let notFound := errors.New errors.NotFound "UE not found" in
  match ues s !! imsi with
  | Some ue =>
      Delete imsi s
      = (inl ue, Store (delete imsi (ues s))
                       (watchers s ++ [event.mk imsi ue event.Deleted])
                       (cellStore s) (rt s))
      ∧ Get imsi (Delete imsi s).2 = inr notFound
      ∧ Delete imsi (Delete imsi s).2 = (inr notFound, (Delete imsi s).2)
      ∧ Len (Delete imsi s).2 = Len s - 1
      ∧ ∀ other, other ≠ imsi → Get other (Delete imsi s).2 = Get other s
  | None => Delete imsi s = (inr notFound, s)
  end.
Proof.
  intros notFound. unfold Delete, Get, Len.
  destruct (ues s !! imsi) as [ue|] eqn:Hue; [|done]. simpl.
  rewrite lookup_delete_eq. repeat split.
  - rewrite map_size_delete, Hue.
    assert (size (ues s) ≠ 0%nat).
    { intros Hz. apply map_size_empty_iff in Hz. by rewrite Hz in Hue. }
    lia.
  - intros other Hother. by rewrite lookup_delete_ne.
Qed.

(** X8.  For a UE of the store, [MoveToCoordinate] returns no error, puts
    the location and the heading into that UE and sends one Updated event
    that carries the UE as it now is; the serving cell and every other
    field of the UE, and every other UE, stay as they are.  For an IMSI that
    is not in the store it returns NotFound and leaves the store as it
    is. *)
Theorem MoveToCoordinate_frame (imsi : Z) (location : Coordinate.t) (heading : Z)
    (s : store) :
  match ues s !! imsi with
  | Some ue =>
      ∃ ue',
        MoveToCoordinate imsi location heading s
        = (None, Store (<[imsi := ue']> (ues s))
                       (watchers s ++ [event.mk (UE.IMSI ue) ue' event.Updated])
                       (cellStore s) (rt s))
        ∧ UE.Location ue' = location
        ∧ UE.Heading ue' = heading
        ∧ UE.Cell ue' = UE.Cell ue
        ∧ UE.IMSI ue' = UE.IMSI ue
        ∧ UE.Type_ ue' = UE.Type_ ue
        ∧ UE.CRNTI ue' = UE.CRNTI ue
        ∧ UE.Cells ue' = UE.Cells ue
        ∧ UE.IsAdmitted ue' = UE.IsAdmitted ue
        ∧ UE.RrcState ue' = UE.RrcState ue
        ∧ Get imsi (MoveToCoordinate imsi location heading s).2 = inl ue'
        ∧ ∀ other, other ≠ imsi →
            Get other (MoveToCoordinate imsi location heading s).2 = Get other s
  | None =>
      MoveToCoordinate imsi location heading s
      = (Some (errors.New errors.NotFound "UE not found"), s)
  end.
Proof.
  unfold MoveToCoordinate, Get.
  destruct (ues s !! imsi) as [ue|] eqn:Hue; [|done].
  eexists. split; [reflexivity|]. simpl. rewrite lookup_insert_eq.
  repeat split. intros other Hother. by rewrite lookup_insert_ne.
Qed.

(** X9.  A move to a cell and a move to a coordinate of the same UE can be
    made in either order: the UEs of the store are the same afterwards, and
    each of the two orders has sent two Updated events. *)
Theorem moves_commute (imsi : Z) (ecgi : types.ECGI) (strength : float)
    (location : Coordinate.t) (heading : Z) (s : store) :
  let s1 := (MoveToCoordinate imsi location heading
               (MoveToCell imsi ecgi strength s).2).2 in
  let s2 := (MoveToCell imsi ecgi strength
               (MoveToCoordinate imsi location heading s).2).2 in
  ues s1 = ues s2
  ∧ (is_Some (ues s !! imsi) →
     length (watchers s1) = (length (watchers s) + 2)%nat
     ∧ length (watchers s2) = (length (watchers s) + 2)%nat
     ∧ ∃ ue, ues s1 !! imsi = Some ue
             ∧ UECell.ECGI (UE.Cell ue) = ecgi
             ∧ UECell.Strength (UE.Cell ue) = strength
             ∧ UE.Location ue = location ∧ UE.Heading ue = heading).
Proof.
  intros s1 s2. subst s1 s2. unfold MoveToCoordinate, MoveToCell.
  destruct (ues s !! imsi) as [ue|] eqn:Hue; simpl.
  - rewrite !lookup_insert_eq. simpl. rewrite !lookup_insert_eq, !insert_insert_eq.
    split; [done|]. intros _. rewrite !length_app. simpl.
    split; [lia|]. split; [lia|]. eexists. by split.
  - rewrite Hue. simpl. rewrite Hue. split; [done|]. by intros [??].
Qed.


(** One round of [CreateUEs]: what it stores, and what it leaves alone. *)
Lemma CreateUEs_body_fresh (i : nat) (s s' : store) :
  CreateUEs_body i s = Returned s' →
  ∃ ue randomCell,
    cells.GetRandomCell_result (cellStore s) = Some randomCell
    ∧ ues s' = <[UE.IMSI ue := ue]> (ues s)
    ∧ watchers s' = watchers s
    ∧ cellStore s' = S (cellStore s)
    ∧ freshPhone ue
    ∧ UECell.ECGI (UE.Cell ue) = Cell.ECGI randomCell
    ∧ UE.CRNTI ue = types.CRNTI (uint64 (90125 + Z.of_nat i))
    ∧ minIMSI ≤ UE.IMSI ue < maxIMSI.
Proof.
  intros Hrun. unfold CreateUEs_body in Hrun.
  apply bind_inv in Hrun as ([r rt1] & Hdraw & Hrun).
  destruct (drawn_IMSI_range _ _ _ Hdraw) as (Hr & _ & _).
  apply bind_inv in Hrun as ([imsi rt2] & Hretry & Hrun).
  assert (minIMSI ≤ imsi < maxIMSI) as Himsi.
  { case_decide.
    - apply bind_inv in Hretry as ([r' rt2'] & Hdraw' & Hretry).
      injection Hretry as <- <-.
      by destruct (drawn_IMSI_range _ _ _ Hdraw') as (Hr' & _ & _).
    - by injection Hretry as <- <-. }
  destruct (cells.GetRandomCell_result (cellStore s)) as [randomCell|]; [|done].
  destruct (rand.Float64 rt2) as [f rt3].
  injection Hrun as <-.
  exists (UE.mk imsi "phone" (Coordinate.mk 0 0) 0
                (UECell.mk (types.GEnbID (Cell.ECGI randomCell))
                           (Cell.ECGI randomCell) (f * 100))
                (types.CRNTI (uint64 (90125 + Z.of_nat i)))
                [] false Rrcstatus_zero), randomCell.
  unfold freshPhone. simpl. repeat split; lia.
Qed.

(** What a run of [CreateUEs] leaves behind, by the number of its rounds. *)
Lemma CreateUEs_rounds (count : Z) (s s' : store) :
  CreateUEs count s = Returned s' →
  watchers s' = watchers s
  ∧ cellStore s' = (cellStore s + Z.to_nat count)%nat
  ∧ Len s ≤ Len s' ≤ Len s + Z.max 0 count
  ∧ ∀ imsi ue, ues s' !! imsi = Some ue →
      ues s !! imsi = Some ue
      ∨ (freshPhone ue ∧ UE.IMSI ue = imsi ∧ minIMSI ≤ imsi < maxIMSI).
Proof.
  unfold CreateUEs. intros Hrun.
  apply (forEach_seq_invariant
           (λ i t, watchers t = watchers s
                   ∧ cellStore t = (cellStore s + i)%nat
                   ∧ Len s ≤ Len t ≤ Len s + Z.of_nat i
                   ∧ ∀ imsi ue, ues t !! imsi = Some ue →
                       ues s !! imsi = Some ue
                       ∨ (freshPhone ue ∧ UE.IMSI ue = imsi
                          ∧ minIMSI ≤ imsi < maxIMSI))) in Hrun.
  - destruct Hrun as (? & ? & ? & ?). repeat split; [done|done|lia|lia|done].
  - repeat split; [lia..|]. auto.
  - intros i t t' _ (Hw & Hc & Hlen & Hues) Hbody.
    destruct (CreateUEs_body_fresh i t t' Hbody)
      as (ue & cell & _ & Hues' & Hw' & Hc' & Hfresh & _ & _ & Hrange).
    split; [congruence|]. split; [lia|]. split.
    + unfold Len in *. rewrite Hues'.
      pose proof (map_size_insert (UE.IMSI ue) ue (ues t)) as Hsize.
      destruct (ues t !! UE.IMSI ue); unfold id in Hsize; lia.
    + intros imsi u. rewrite Hues', lookup_insert.
      case_decide as Heq; [|apply Hues].
      intros [= <-]. right. by rewrite <- Heq.
Qed.

(** X10.  [CreateUEs] is silent and bounded: it sends no event, asks the
    store of cells for one cell in every round, and leaves at least the
    UEs that were there in number and at most [count] more (a round whose
    second draw is in the store too overwrites a UE).  Every UE of the store
    afterwards is the UE that was there under its IMSI, or a fresh phone
    under an IMSI of [minIMSI, maxIMSI). *)
Theorem CreateUEs_silent_and_bounded (count : Z) (s s' : store) :
  CreateUEs count s = Returned s' →
  watchers s' = watchers s
  ∧ cellStore s' = (cellStore s + Z.to_nat count)%nat
  ∧ Len s ≤ Len s' ≤ Len s + Z.max 0 count
  ∧ ∀ imsi ue, ues s' !! imsi = Some ue →
      ues s !! imsi = Some ue
      ∨ (freshPhone ue ∧ UE.IMSI ue = imsi ∧ minIMSI ≤ imsi < maxIMSI).
Proof. apply CreateUEs_rounds. Qed.

(** The loop of [removeSomeUEs] over distinct IMSIs of the store: the UEs
    it takes out and the events it sends. *)
Lemma removeSomeUEs_loop_spec (imsis : list Z) (count : Z) (s : store) :
  NoDup imsis → (∀ imsi, imsi ∈ imsis → is_Some (ues s !! imsi)) →
  0 ≤ count ≤ Z.of_nat (length imsis) → count < 2 ^ 63 →
  (∀ imsi, ues (removeSomeUEs_loop imsis count s) !! imsi
           = if decide (imsi ∈ take (Z.to_nat count) imsis) then None
             else ues s !! imsi)
  ∧ (∃ events,
       watchers (removeSomeUEs_loop imsis count s) = watchers s ++ events
       ∧ deletedEvents s (take (Z.to_nat count) imsis) events)
  ∧ cellStore (removeSomeUEs_loop imsis count s) = cellStore s
  ∧ rt (removeSomeUEs_loop imsis count s) = rt s.
Proof.
  revert count s. induction imsis as [|imsi imsis IH]; intros count s Hnd Hin Hc Hlt.
  { simpl in Hc. assert (count = 0) as -> by lia.
    rewrite removeSomeUEs_loop_zero. simpl. repeat split; [|done..].
    exists []. rewrite app_nil_r. split; [done|constructor]. }
  destruct (decide (count = 0)) as [->|Hcount].
  { rewrite removeSomeUEs_loop_zero. simpl. repeat split; [|done..].
    exists []. rewrite app_nil_r. split; [done|constructor]. }
  rewrite removeSomeUEs_loop_cons by done.
  rewrite int64_small by lia.
  apply NoDup_cons in Hnd as [Hnotin Hnd].
  destruct (Hin imsi) as [ue Hue]; [left|].
  assert (Delete imsi s
          = (inl ue, Send (event.mk imsi ue event.Deleted)
                          (with_ues (delete imsi (ues s)) s))) as ->.
  { unfold Delete. by rewrite Hue. }
  cbn [snd].
  destruct (IH (count - 1) (Send (event.mk imsi ue event.Deleted)
                                 (with_ues (delete imsi (ues s)) s)))
    as (Hues & (events & Hw & Hevents) & Hcs & Hrt); [done| |simpl in Hc; lia|lia|].
  { intros k Hk. simpl. rewrite lookup_delete_ne; [apply Hin; by right|].
    by intros <-. }
  replace (Z.to_nat count) with (S (Z.to_nat (count - 1))) by lia.
  cbn [take]. repeat split.
  - intros k. rewrite Hues. simpl.
    destruct (decide (k = imsi)) as [->|Hk].
    + rewrite lookup_delete_eq.
      destruct (decide (imsi ∈ imsi :: take (Z.to_nat (count - 1)) imsis)) as [_|Hn];
        [by case_decide|]. exfalso. apply Hn. left.
    + rewrite lookup_delete_ne by done.
      destruct (decide (k ∈ take (Z.to_nat (count - 1)) imsis)) as [Hk'|Hk'].
      * by rewrite decide_True by (by right).
      * rewrite decide_False; [done|]. by intros [?|?]%elem_of_cons.
  - exists (event.mk imsi ue event.Deleted :: events). split.
    + rewrite Hw. simpl. by rewrite <- app_assoc.
    + constructor; [by exists ue|].
      eapply Forall2_impl; [exact Hevents|].
      intros k e (u & Hu & ->). exists u. split; [|done].
      simpl in Hu. by apply lookup_delete_Some in Hu as [_ Hu].
  - by rewrite Hcs.
  - by rewrite Hrt.
Qed.

Section order.
Context `{!go.MapOrderLawful}.

(** Shrinking: which UEs [SetUECount] takes out, and what it sends. *)
Lemma SetUECount_shrink_spec (n : Z) (s : store) :
  0 ≤ n ≤ Len s → Len s < 2 ^ 63 →
  ∃ s' removed events,
    SetUECount n s = Returned s'
    ∧ NoDup removed
    ∧ Z.of_nat (length removed) = Len s - n
    ∧ (∀ imsi, ues s' !! imsi
               = if decide (imsi ∈ removed) then None else ues s !! imsi)
    ∧ watchers s' = watchers s ++ events
    ∧ deletedEvents s removed events
    ∧ Len s' = n.
Proof.
  intros Hn Hlen. unfold SetUECount.
  rewrite (int64_small n) by lia. rewrite int64_small by lia.
  rewrite decide_False by lia.
  destruct (decide (0 < Len s - n)) as [Hpos|Hzero].
  2:{ exists s, [], []. rewrite app_nil_r.
      split; [done|]. split; [apply NoDup_nil_2|]. split; [simpl; lia|].
      split; [done|]. split; [done|]. split; [constructor|lia]. }
  unfold removeSomeUEs, range. cbn beta iota.
  set (entries := rangeOrder (ranges (rt s)) (map_to_list (ues s))).
  assert (entries ≡ₚ map_to_list (ues s)) as Hperm by apply rangeOrder_perm.
  assert (NoDup entries.*1) as Hnd.
  { rewrite Hperm. apply NoDup_fst_map_to_list. }
  assert (Z.of_nat (length entries.*1) = Len s) as Hlength.
  { rewrite length_fmap, Hperm. unfold Len. by rewrite length_map_to_list. }
  set (s0 := with_rt _ s).
  destruct (removeSomeUEs_loop_spec entries.*1 (Len s - n) s0)
    as (Hues & (events & Hw & Hevents) & _ & _); [done| |lia|lia|].
  { intros imsi Himsi. simpl.
    apply list_elem_of_fmap in Himsi as ([k ue] & -> & Hin).
    rewrite Hperm in Hin. apply elem_of_map_to_list in Hin. by eexists. }
  eexists _, (take (Z.to_nat (Len s - n)) entries.*1), events.
  split; [reflexivity|]. split; [by eapply sublist_NoDup; [|apply sublist_take]|].
  split; [rewrite length_take; lia|].
  split; [exact Hues|]. split; [exact Hw|]. split; [exact Hevents|].
  rewrite (removeSomeUEs_loop_size entries.*1 (Len s - n) s0); [|done| |lia|lia].
  - unfold Len, s0. simpl. lia.
  - intros imsi Himsi. simpl.
    apply list_elem_of_fmap in Himsi as ([k ue] & -> & Hin).
    rewrite Hperm in Hin. apply elem_of_map_to_list in Hin. by eexists.
Qed.

(** X11.  On a store with at least [n] UEs, [SetUECount(n)] returns, takes
    [Len - n] different UEs out of the store and leaves the others as they
    are, so that [Len] is [n] afterwards; it sends one Deleted event for
    every UE it takes out, which carries that UE, and no other event. *)
Theorem SetUECount_shrinks_with_events (n : Z) (s : store) :
  0 ≤ n ≤ Len s → Len s < 2 ^ 63 →
  ∃ s' removed events,
    SetUECount n s = Returned s'
    ∧ NoDup removed
    ∧ Z.of_nat (length removed) = Len s - n
    ∧ (∀ imsi, ues s' !! imsi
               = if decide (imsi ∈ removed) then None else ues s !! imsi)
    ∧ watchers s' = watchers s ++ events
    ∧ deletedEvents s removed events
    ∧ Len s' = n.
Proof. apply SetUECount_shrink_spec. Qed.

(** X12.  On a store with fewer than [n] UEs, [SetUECount(n)] is
    [CreateUEs(n - Len)]: when it returns it has sent no event and has
    asked the store of cells [n - Len] times, no UE is lost in number, and
    [Len] is at most [n] afterwards (it is less when a round has overwritten
    a UE). *)
Theorem SetUECount_grows_silently (n : Z) (s s' : store) :
  Len s < n < 2 ^ 63 →
  SetUECount n s = Returned s' →
  SetUECount n s = CreateUEs (n - Len s) s
  ∧ watchers s' = watchers s
  ∧ cellStore s' = (cellStore s + Z.to_nat (n - Len s))%nat
  ∧ Len s ≤ Len s' ≤ n.
Proof.
  intros Hn. unfold SetUECount.
  assert (0 ≤ Len s) by (unfold Len; lia).
  rewrite (int64_small n) by lia. rewrite int64_small by lia.
  rewrite decide_True by lia.
  assert (uint64 (- (Len s - n)) = n - Len s) as ->.
  { unfold uint64, wrap. rewrite Z.mod_small; lia. }
  intros Hrun. split; [done|].
  destruct (CreateUEs_rounds _ _ _ Hrun) as (Hw & Hc & Hlen & _).
  repeat split; [done|done|lia|lia].
Qed.

(** X13.  [ListAllUEs] returns every UE of the store once, and [ListUEs]
    those of them whose serving cell is the given one; neither changes a UE
    or sends an event. *)
Theorem lists_of_UEs (ecgi : types.ECGI) (s : store) :
  (ListAllUEs s).1 ≡ₚ (map_to_list (ues s)).*2
  ∧ Z.of_nat (length (ListAllUEs s).1) = Len s
  ∧ (ListUEs ecgi s).1
    ≡ₚ filter (λ ue, UECell.ECGI (UE.Cell ue) = ecgi) (map_to_list (ues s)).*2
  ∧ (∀ ue, ue ∈ (ListUEs ecgi s).1
           ↔ ue ∈ (ListAllUEs s).1 ∧ UECell.ECGI (UE.Cell ue) = ecgi)
  ∧ ues (ListUEs ecgi s).2 = ues s ∧ watchers (ListUEs ecgi s).2 = watchers s
  ∧ ues (ListAllUEs s).2 = ues s ∧ watchers (ListAllUEs s).2 = watchers s.
Proof.
  assert ((ListAllUEs s).1
          = (rangeOrder (ranges (rt s)) (map_to_list (ues s))).*2) as Hall.
  { unfold ListAllUEs, range. cbn beta iota. cbn [fst].
    generalize (rangeOrder (ranges (rt s)) (map_to_list (ues s))). intros entries.
    assert (∀ acc : list UE.t,
              foldl (λ list '(_, ue), list ++ [ue]) acc entries = acc ++ entries.*2)
      as Hloop; [|apply (Hloop [])].
    induction entries as [|[imsi ue] entries IH]; intros acc; simpl.
    - by rewrite app_nil_r.
    - by rewrite IH, <- app_assoc. }
  assert ((ListAllUEs s).1 ≡ₚ (map_to_list (ues s)).*2) as Hperm.
  { rewrite Hall. apply fmap_Permutation, rangeOrder_perm. }
  assert ((ListUEs ecgi s).1
          ≡ₚ filter (λ ue, UECell.ECGI (UE.Cell ue) = ecgi)
               (map_to_list (ues s)).*2) as Hlist.
  { rewrite mho_facts.ListUEs_spec. cbn [fst].
    apply filter_Permutation, fmap_Permutation, rangeOrder_perm. }
  split; [done|]. split.
  { rewrite Hperm, length_fmap, length_map_to_list. done. }
  split; [done|]. split.
  { intros ue. rewrite Hlist, Hperm, list_elem_of_filter. tauto. }
  rewrite mho_facts.ListUEs_spec. unfold ListAllUEs, range. done.
Qed.

End order.

End ues_more.
End ues_more.

(** ** The KPM service model, continued *)
Module kpm2_more.
Import model e2appducontents e2smkpmv2 kpm2 kpm2_spec kpm2_emitter go_facts go_more kpm2_facts.

Section kpm2_more.
Context `{Emitter}.

(** *** The answer to a subscription request *)

(** X14.  [RICSubscription] gives exactly one of its three results: a
    response, a failure PDU or an error.  It starts the emitter exactly
    when it gives the response, and then with the report period of the
    request, the subscription with the two lists of actions, and the action
    definitions that [getActionDefinition] has returned, whether or not
    that function has returned an error as well.  It gives the response
    exactly when an action is accepted, the report period can be read and
    the response can be built. *)
Theorem RICSubscription_one_answer (request : RicsubscriptionRequest) :
  let r := RICSubscription request in
  let actionList := RicActionToBeSetupList request in
  let accepted := (RICSubscription_actions actionList).1 in
  let notAdmitted := (RICSubscription_actions actionList).2 in
  let subscription :=
    subutils.NewSubscription (RicRequestorId request) (RanFunctionId request)
                             (RicInstanceId request) accepted notAdmitted in
  ((is_Some (response r) ∧ failure r = None ∧ err r = None)
   ∨ (response r = None ∧ is_Some (failure r) ∧ err r = None)
   ∨ (response r = None ∧ failure r = None ∧ is_Some (err r)))
  ∧ (is_Some (started r) ↔ is_Some (response r))
  ∧ (is_Some (response r)
     ↔ accepted ≠ []
       ∧ (∃ reportInterval, getReportPeriod request = inl reportInterval)
       ∧ ∃ subscriptionResponse,
           e2ap.BuildSubscriptionResponse subscription = inl subscriptionResponse)
  ∧ (∀ g, started r = Some g →
       getReportPeriod request = inl (interval g)
       ∧ kpm2.subscription g = subscription
       ∧ actionDefinitions g = (getActionDefinition actionList accepted).1).
Proof.
  intros r actionList accepted notAdmitted subscription.
  subst r accepted notAdmitted subscription actionList.
  unfold RICSubscription, subutils.GetRicActionToBeSetupList,
    subutils.GetRequesterID, subutils.GetRanFunctionID, subutils.GetRicInstanceID.
  destruct (RICSubscription_actions (RicActionToBeSetupList request))
    as [accepted notAdmitted]. cbn [fst snd].
  set (subscription := subutils.NewSubscription _ _ _ _ _).
  assert (∀ A B (x : A + B), (∃ a, x = inl a) ∨ (∃ b, x = inr b)) as Hsum.
  { intros A B [a|b]; eauto. }
  case_decide as Hacc.
  { apply length_zero_iff_nil in Hacc.
    destruct (e2ap.BuildSubscriptionFailure subscription); simpl;
      (split; [right; eauto|]); (split; [by split; intros [??]|]);
      (split; [|done]); (split; [by intros [??]|]);
      by intros (? & _). }
  assert (accepted ≠ []) as Hne.
  { intros ->. done. }
  destruct (getReportPeriod request) as [reportInterval|e].
  2:{ destruct (e2ap.BuildSubscriptionFailure subscription); simpl;
        (split; [right; eauto|]); (split; [by split; intros [??]|]);
        (split; [|done]); (split; [by intros [??]|]);
        by intros (_ & [? ?] & _). }
  destruct (getActionDefinition _ _) as [definitions e] eqn:Hdef.
  destruct (e2ap.BuildSubscriptionResponse subscription) as [subscriptionResponse|e'];
    simpl.
  - split; [left; eauto|]. split; [by split; eauto|].
    split; [split; eauto|]. by intros g [= <-].
  - split; [right; right; eauto|]. split; [by split; intros [??]|].
    split; [|done]. split; [by intros [??]|]. by intros (_ & _ & [? ?]).
Qed.

(** The three named types of action are different values. *)
Lemma RicactionType_distinct :
  RicactionType_RICACTION_TYPE_REPORT ≠ RicactionType_RICACTION_TYPE_INSERT
  ∧ RicactionType_RICACTION_TYPE_REPORT ≠ RicactionType_RICACTION_TYPE_POLICY
  ∧ RicactionType_RICACTION_TYPE_INSERT ≠ RicactionType_RICACTION_TYPE_POLICY.
Proof. by compute. Qed.

(** The actions not admitted, counted. *)
Lemma RICSubscription_actions_size (actionList : list RicactionToBeSetupItem) :
  NoDup ((λ action, int32 (RicActionId action)) <$> actionList) →
  size (RICSubscription_actions actionList).2
  = length (filter (λ action,
                      RicActionType action = RicactionType_RICACTION_TYPE_INSERT
                      ∨ RicActionType action = RicactionType_RICACTION_TYPE_POLICY)
                   actionList).
Proof.
  induction actionList as [|action actionList IH] using rev_ind; [done|].
  rewrite fmap_app. intros (Hnd & Hfresh & _)%NoDup_app.
  pose proof (RICSubscription_actions_notAdmitted actionList
                (int32 (RicActionId action))) as Hlookup.
  rewrite RICSubscription_actions_snoc, filter_app, length_app.
  destruct (RICSubscription_actions actionList) as [accepted notAdmitted].
  simpl in *. rewrite filter_cons, filter_nil.
  destruct (decide (RicActionType action = RicactionType_RICACTION_TYPE_INSERT
                    ∨ RicActionType action = RicactionType_RICACTION_TYPE_POLICY))
    as [Htype|Htype].
  - assert (notAdmitted !! int32 (RicActionId action) = None) as Hnone.
    { destruct (notAdmitted !! int32 (RicActionId action)) as [cause|] eqn:Hin; [|done].
      destruct (proj1 (Hlookup cause) eq_refl) as (_ & other & Hother & Hid & _).
      exfalso. apply (Hfresh (int32 (RicActionId action))).
      - rewrite <- Hid. apply list_elem_of_fmap. by exists other.
      - apply list_elem_of_singleton. done. }
    rewrite map_size_insert_None by done. rewrite IH by done. simpl. lia.
  - rewrite IH by done. simpl. lia.
Qed.

(** X15.  When the actions of a request have different identifiers, an
    action is accepted exactly when its type is REPORT and not admitted
    exactly when its type is INSERT or POLICY, never both; an action of any
    other type is in neither list.  Together the lists are as long as the
    request has actions of the three types, which can be fewer than it has
    actions. *)
Theorem actions_are_partitioned (actionList : list RicactionToBeSetupItem) :
  let accepted := (RICSubscription_actions actionList).1 in
  let notAdmitted := (RICSubscription_actions actionList).2 in
  NoDup ((λ action, int32 (RicActionId action)) <$> actionList) →
  (∀ action, action ∈ actionList →
     (int32 (RicActionId action) ∈ accepted
      ↔ RicActionType action = RicactionType_RICACTION_TYPE_REPORT)
     ∧ (is_Some (notAdmitted !! int32 (RicActionId action))
        ↔ RicActionType action = RicactionType_RICACTION_TYPE_INSERT
          ∨ RicActionType action = RicactionType_RICACTION_TYPE_POLICY)
     ∧ ¬ (int32 (RicActionId action) ∈ accepted
          ∧ is_Some (notAdmitted !! int32 (RicActionId action))))
  ∧ (length accepted + size notAdmitted
     = length (filter (λ action,
                         RicActionType action = RicactionType_RICACTION_TYPE_REPORT
                         ∨ RicActionType action = RicactionType_RICACTION_TYPE_INSERT
                         ∨ RicActionType action = RicactionType_RICACTION_TYPE_POLICY)
                      actionList))%nat
  ∧ (length accepted + size notAdmitted ≤ length actionList)%nat.
Proof.
  intros accepted notAdmitted Hnd. subst accepted notAdmitted.
  destruct RicactionType_distinct as (Hri & Hrp & Hip).
  assert (∀ action, action ∈ actionList →
            (int32 (RicActionId action) ∈ (RICSubscription_actions actionList).1
             ↔ RicActionType action = RicactionType_RICACTION_TYPE_REPORT)
            ∧ (is_Some ((RICSubscription_actions actionList).2
                          !! int32 (RicActionId action))
               ↔ RicActionType action = RicactionType_RICACTION_TYPE_INSERT
                 ∨ RicActionType action = RicactionType_RICACTION_TYPE_POLICY))
    as Hlists.
  { intros action Hin.
    assert (∀ other, other ∈ actionList →
              int32 (RicActionId other) = int32 (RicActionId action) →
              other = action) as Hsame.
    { intros other Hother Hid.
      apply list_elem_of_lookup in Hin as [i Hi].
      apply list_elem_of_lookup in Hother as [j Hj].
      assert (i = j); [|congruence].
      eapply NoDup_lookup; [exact Hnd| |].
      - by rewrite list_lookup_fmap, Hi.
      - rewrite list_lookup_fmap, Hj. simpl. by rewrite Hid. }
    split.
    - rewrite RICSubscription_actions_accepted, list_elem_of_fmap. split.
      + intros (other & Hid & [Htype Hother]%list_elem_of_filter).
        by rewrite <- (Hsame other).
      + intros Htype. exists action. split; [done|]. by apply list_elem_of_filter.
    - split.
      + intros [cause Hcause].
        apply RICSubscription_actions_notAdmitted in Hcause
          as (_ & other & Hother & Hid & Htype).
        by rewrite <- (Hsame other).
      + intros Htype. exists notSupported.
        apply RICSubscription_actions_notAdmitted. split; [done|].
        by exists action. }
  split; [|split].
  - intros action Hin. destruct (Hlists action Hin) as [Haccepted Hnot].
    split; [done|]. split; [done|].
    rewrite Haccepted, Hnot. intros [-> [?|?]]; done.
  - rewrite RICSubscription_actions_size by done.
    rewrite RICSubscription_actions_accepted, length_fmap.
    clear -Hri Hrp. induction actionList as [|action actionList IH]; [done|].
    rewrite !filter_cons.
    destruct (decide (RicActionType action = RicactionType_RICACTION_TYPE_REPORT))
      as [Htype|Htype].
    + rewrite decide_False by (rewrite Htype; intros [?|?]; done).
      rewrite decide_True by auto. simpl. lia.
    + destruct (decide (RicActionType action = RicactionType_RICACTION_TYPE_INSERT
                        ∨ RicActionType action = RicactionType_RICACTION_TYPE_POLICY))
        as [Hother|Hother].
      * rewrite decide_True by auto. simpl. lia.
      * rewrite decide_False by tauto. simpl. lia.
  - rewrite RICSubscription_actions_size by done.
    rewrite RICSubscription_actions_accepted, length_fmap.
    clear -Hri Hrp. induction actionList as [|action actionList IH]; [done|].
    rewrite !filter_cons.
    destruct (decide (RicActionType action = RicactionType_RICACTION_TYPE_REPORT))
      as [Htype|Htype].
    + rewrite decide_False by (rewrite Htype; intros [?|?]; done). simpl. lia.
    + destruct (decide (RicActionType action = RicactionType_RICACTION_TYPE_INSERT
                        ∨ RicActionType action = RicactionType_RICACTION_TYPE_POLICY));
        simpl; lia.
Qed.

(** *** The requested message and the cell *)

(** X16.  The action definitions of a subscription are matched to a cell by
    the decimal text of its ECGI.  When every action definition of format 1
    names another cell, no message is built for the cell: the builder
    returns no bytes and no error, whatever the UE store holds. *)
Theorem definitions_of_other_cells (ueStore : ues.store) (cellECGI : types.ECGI)
    (actionDefinitions : list E2SmKpmActionDefinition) :
  actionDefinitions ≠ [] →
  (∀ f, E2SmKpmActionDefinition_ActionDefinitionFormat1 f ∈ actionDefinitions →
        ∃ other, 0 ≤ other ∧ other ≠ uint64 cellECGI ∧ CellObjId f = FormatUint other) →
  requestedIndicationMessage ueStore cellECGI actionDefinitions = Returned (inl None)
  ∧ createIndicationMessageFormat1 ueStore cellECGI actionDefinitions
    = Returned (inl None).
Proof.
  intros Hne Hother.
  assert (requestedIndicationMessage ueStore cellECGI actionDefinitions
          = Returned (inl None)) as Hmsg.
  { clear Hne. induction actionDefinitions as [|[f| |] rest IH]; [done| | |].
    - simpl. destruct (Hother f) as (other & Hpos & Hdiff & Hid); [left|].
      rewrite decide_False.
      + apply IH. intros g Hg. apply Hother. by right.
      + rewrite Hid. intros Heq%FormatUint_inj; [done|done|].
        unfold uint64, wrap. apply Z.mod_pos_bound. lia.
    - simpl. apply IH. intros g Hg. apply Hother. by right.
    - simpl. apply IH. intros g Hg. apply Hother. by right. }
  split; [done|].
  unfold createIndicationMessageFormat1, createRequestedIndMsgFormat1.
  rewrite decide_False; [by rewrite Hmsg|].
  by destruct actionDefinitions.
Qed.

(** *** A tick of the emitter *)

Lemma createRicIndication_clock (sm : Client) (UEs : ues.store) (ecgi : types.ECGI)
    (subscription : subutils.Subscription)
    (actionDefinitions : list E2SmKpmActionDefinition) (clock clock' : nat)
    (r : option e2ap.Ricindication + error) :
  createRicIndication sm UEs ecgi subscription actionDefinitions clock
  = Returned (r, clock') →
  (clock ≤ clock' ≤ clock + 1)%nat
  ∧ (∀ ricIndication, r = inl (Some ricIndication) → clock' = S clock)
  ∧ (actionDefinitions = [] → r ≠ inl None).
Proof.
  unfold createRicIndication. intros Hrun.
  apply bind_inv in Hrun as (message & Hmessage & Hrun).
  assert (actionDefinitions = [] → message ≠ inl None) as Hdefault.
  { intros ->. unfold createIndicationMessageFormat1 in Hmessage. simpl in Hmessage.
    injection Hmessage as <-. unfold createDefaultIndicationMsgFormat1, encode.
    destruct (defaultIndicationMessage _ _); [|done].
    destruct (GetPlugin _); [|done]. by destruct (ToAsn1Bytes _ _). }
  unfold createIndicationHeaderBytes in Hrun.
  repeat case_match; simplify_eq/=; (split; [lia|]); (split; [done|]); try done.
  intros Hd. by destruct (Hdefault Hd).
Qed.

(** The loop of a tick, counted. *)
Lemma sendRicIndication_loop_count (sm : Client) (UEs : ues.store)
    (subID : subscriptions.ID) (subscription : subutils.Subscription)
    (actionDefinitions : list E2SmKpmActionDefinition) (cells : list types.ECGI)
    (sent sent' : list e2ap.Ricindication) (clock clock' : nat) (err : option error) :
  sendRicIndication_loop sm UEs subID subscription actionDefinitions cells sent clock
  = Returned (err, sent', clock') →
  (∃ new, sent' = sent ++ new
          ∧ (length new ≤ length cells)%nat
          ∧ (err = None → actionDefinitions = [] → length new = length cells))
  ∧ (clock ≤ clock' ≤ clock + length cells)%nat.
Proof.
  revert sent clock. induction cells as [|ecgi cells IH]; intros sent clock.
  - simpl. intros [= <- <- <-]. split; [|lia].
    exists []. by rewrite app_nil_r.
  - simpl. intros Hrun.
    apply bind_inv in Hrun as ([r clock1] & Hcreate & Hrun).
    destruct (createRicIndication_clock _ _ _ _ _ _ _ _ Hcreate)
      as (Hclock & _ & Hdefault).
    destruct r as [[ricIndication|]|e].
    + destruct (RICIndication subID ricIndication) as [e|].
      * injection Hrun as <- <- <-. split; [|lia].
        exists [ricIndication]. split; [done|]. split; [simpl; lia|done].
      * apply IH in Hrun as ((new & -> & Hlen & Hall) & Hclock').
        split; [|lia]. exists (ricIndication :: new).
        split; [by rewrite <- app_assoc|]. split; [simpl; lia|].
        intros He Hd. simpl. by rewrite Hall.
    + apply IH in Hrun as ((new & -> & Hlen & Hall) & Hclock').
      split; [|lia]. exists new. split; [done|]. split; [lia|].
      intros _ Hd. by destruct (Hdefault Hd).
    + injection Hrun as <- <- <-. split; [|lia].
      exists []. rewrite app_nil_r. split; [done|]. split; [simpl; lia|done].
Qed.

(** X17.  A tick of the KPM emitter hands at most one indication to the E2
    channel for every cell of the node, and reads the clock at most once
    for every cell.  For a subscription without action definitions, a tick
    that ends without an error has handed over exactly one indication for
    every cell.  For a subscription that is not in the store the tick returns
    the NotFound error with nothing handed over and the clock not read. *)
Theorem tick_of_the_KPM_emitter (sm : Client) (UEs : ues.store)
    (subscription : subutils.Subscription)
    (actionDefinitions : list E2SmKpmActionDefinition) (clock : nat) :
  let subID :=
    subscriptions.NewID (subutils.ricInstanceID subscription)
                        (subutils.reqID subscription)
                        (subutils.ranFuncID subscription) in
  (Subscriptions sm !! subID = None →
   sendRicIndication sm UEs subscription actionDefinitions clock
   = Returned (Some (errors.New errors.NotFound "subscription not found"), [], clock))
  ∧ (∀ err sent clock',
       sendRicIndication sm UEs subscription actionDefinitions clock
       = Returned (err, sent, clock') →
       (length sent ≤ length (Node.Cells (Node sm)))%nat
       ∧ (clock ≤ clock' ≤ clock + length (Node.Cells (Node sm)))%nat
       ∧ (err = None → actionDefinitions = [] →
          is_Some (Subscriptions sm !! subID) →
          length sent = length (Node.Cells (Node sm)))).
Proof.
  intros subID. unfold sendRicIndication, subscriptions.Get. fold subID. split.
  { by intros ->. }
  intros err sent clock'.
  destruct (Subscriptions sm !! subID) as [sub|].
  - intros Hrun.
    apply sendRicIndication_loop_count in Hrun as ((new & -> & Hlen & Hall) & Hclock).
    simpl. split; [done|]. split; [done|]. auto.
  - intros [= <- <- <-]. simpl. split; [lia|]. split; [lia|]. by intros _ _ [??].
Qed.

(** A tick that ends with an error has ended: more cells change nothing. *)
Lemma sendRicIndication_loop_stops (sm : Client) (UEs : ues.store)
    (subID : subscriptions.ID) (subscription : subutils.Subscription)
    (actionDefinitions : list E2SmKpmActionDefinition)
    (cells1 cells2 : list types.ECGI)
    (sent sent' : list e2ap.Ricindication) (clock clock' : nat) (e : error) :
  sendRicIndication_loop sm UEs subID subscription actionDefinitions cells1 sent clock
  = Returned (Some e, sent', clock') →
  sendRicIndication_loop sm UEs subID subscription actionDefinitions
                         (cells1 ++ cells2) sent clock
  = Returned (Some e, sent', clock').
Proof.
  revert sent clock. induction cells1 as [|ecgi cells1 IH]; intros sent clock; [done|].
  simpl.
  destruct (createRicIndication _ _ _ _ _ _) as [[[[ricIndication|]|e'] clock1]|p];
    simpl; [|by apply IH|done..].
  destruct (RICIndication subID ricIndication); [done|by apply IH].
Qed.

(** The loop reads the node of the service model only through the tick. *)
Lemma sendRicIndication_loop_node (node : Node.t) (plmnID : types.PlmnID)
    (subs : gmap subscriptions.ID subscriptions.Subscription)
    (cells1 cells2 cells : list types.ECGI) (UEs : ues.store)
    (subID : subscriptions.ID) (subscription : subutils.Subscription)
    (actionDefinitions : list E2SmKpmActionDefinition)
    (sent : list e2ap.Ricindication) (clock : nat) :
  sendRicIndication_loop (mkClient (Node.with_Cells cells1 node) plmnID subs)
                         UEs subID subscription actionDefinitions cells sent clock
  = sendRicIndication_loop (mkClient (Node.with_Cells cells2 node) plmnID subs)
                           UEs subID subscription actionDefinitions cells sent clock.
Proof.
  revert sent clock. induction cells as [|ecgi cells IH]; intros sent clock; [done|].
  simpl.
  assert (∀ cs, createRicIndication (mkClient (Node.with_Cells cs node) plmnID subs)
                  UEs ecgi subscription actionDefinitions clock
                = createRicIndication (mkClient node plmnID subs)
                    UEs ecgi subscription actionDefinitions clock) as Hnode.
  { intros cs. reflexivity. }
  rewrite (Hnode cells1), (Hnode cells2).
  destruct (createRicIndication _ _ _ _ _ _) as [[[[ricIndication|]|e'] clock1]|p];
    simpl; [|by apply IH|done..].
  destruct (RICIndication subID ricIndication); [done|by apply IH].
Qed.

(** X18.  An error ends a tick of the KPM emitter: when the tick over the
    first cells of a node ends with an error, the tick over the node with
    more cells behind them ends with the same error, the same indications
    handed over and the same readings of the clock. *)
Theorem tick_ends_at_the_first_error (node : Node.t) (plmnID : types.PlmnID)
    (subs : gmap subscriptions.ID subscriptions.Subscription)
    (cells1 cells2 : list types.ECGI) (UEs : ues.store)
    (subscription : subutils.Subscription)
    (actionDefinitions : list E2SmKpmActionDefinition)
    (sent : list e2ap.Ricindication) (clock clock' : nat) (e : error) :
  sendRicIndication (mkClient (Node.with_Cells cells1 node) plmnID subs)
                    UEs subscription actionDefinitions clock
  = Returned (Some e, sent, clock') →
  sendRicIndication (mkClient (Node.with_Cells (cells1 ++ cells2) node) plmnID subs)
                    UEs subscription actionDefinitions clock
  = Returned (Some e, sent, clock').
Proof.
  unfold sendRicIndication. cbn [Subscriptions Node Node.with_Cells Node.Cells].
  destruct (subscriptions.Get _ subs) as [sub|e']; [|done].
  intros Hrun. rewrite (sendRicIndication_loop_node _ _ _ _ cells1).
  by apply sendRicIndication_loop_stops.
Qed.

(** *** The emitter and its ticker *)

(** The loop of [reportIndication] leaves the subscriptions as they are,
    but for the ticker that it stops when the context is done. *)
Lemma reportIndication_loop_ticker (subID : subscriptions.ID)
    (sub : subscriptions.Subscription) (subscription : subutils.Subscription)
    (actionDefinitions : list E2SmKpmActionDefinition) (cases : list selected)
    (e e' : emitter) (r : ended) :
  reportIndication_loop subID sub subscription actionDefinitions cases e
  = Returned (r, e') →
  Subscriptions (client e')
  = match r with
    | Returns None => Subscriptions (setTicker subID sub false (client e))
    | _ => Subscriptions (client e)
    end.
Proof.
  revert e. induction cases as [|[UEs|] cases IH]; intros e; simpl.
  - by intros [= <- <-].
  - intros Hrun. apply bind_inv in Hrun as ([[err sent] clock'] & _ & Hrun).
    destruct err as [err|].
    + by injection Hrun as <- <-.
    + by apply IH in Hrun.
  - by intros [= <- <-].
Qed.

(** With a positive report period, a run of [reportIndication] for a
    subscription of the store leaves the ticker stopped when it has ended
    with the context done, and running otherwise. *)
Lemma reportIndication_ticker (interval : Z) (subscription : subutils.Subscription)
    (actionDefinitions : list E2SmKpmActionDefinition) (cases : list selected)
    (e e' : emitter) (sub : subscriptions.Subscription) (r : ended) :
  let subID :=
    subscriptions.NewID (subutils.ricInstanceID subscription)
                        (subutils.reqID subscription)
                        (subutils.ranFuncID subscription) in
  Subscriptions (client e) !! subID = Some sub →
  0 < interval < 2 ^ 31 →
  reportIndication interval subscription actionDefinitions cases e = Returned (r, e') →
  Subscriptions (client e')
  = <[subID := subscriptions.mk (subscriptions.ID_ sub)
                 (Some (if r is Returns None then false else true))]>
      (Subscriptions (client e)).
Proof.
  intros subID Hsub Hinterval. unfold reportIndication, subscriptions.Get. fold subID.
  rewrite Hsub. rewrite (ues_facts.int64_small interval) by lia.
  unfold time.Millisecond, time.NewTicker.
  rewrite ues_facts.int64_small by lia. rewrite decide_False by lia. simpl.
  intros Hrun. apply reportIndication_loop_ticker in Hrun. rewrite Hrun.
  destruct r as [[err|]|]; simpl; [done| |done].
  by rewrite insert_insert_eq.
Qed.

(** X19.  [reportIndication] and the ticker of the subscription.  For a
    subscription that is not in the store it returns the NotFound error and
    touches nothing.  For a subscription of the store, a report period that
    is not positive makes [time.NewTicker] panic; with a positive period the
    ticker is set, and it is stopped when the run ends because the context
    of the E2 channel is done, and only then: a run that has ended with an
    error of a tick, or that waits for the next tick, leaves the ticker
    running.  No other subscription is touched. *)
Theorem reportIndication_and_the_ticker (interval : Z)
    (subscription : subutils.Subscription)
    (actionDefinitions : list E2SmKpmActionDefinition) (cases : list selected)
    (e : emitter) :
  let subID :=
    subscriptions.NewID (subutils.ricInstanceID subscription)
                        (subutils.reqID subscription)
                        (subutils.ranFuncID subscription) in
  - 2 ^ 31 ≤ interval < 2 ^ 31 →
  match Subscriptions (client e) !! subID with
  | None =>
      reportIndication interval subscription actionDefinitions cases e
      = Returned (Returns (Some (errors.New errors.NotFound "subscription not found")), e)
  | Some sub =>
      (interval ≤ 0 →
       reportIndication interval subscription actionDefinitions cases e
       = Panicked (Explicit "non-positive interval for NewTicker"))
      ∧ (0 < interval →
         ∀ r e',
           reportIndication interval subscription actionDefinitions cases e
           = Returned (r, e') →
           Subscriptions (client e')
           = <[subID := subscriptions.mk (subscriptions.ID_ sub)
                          (Some (if r is Returns None then false else true))]>
               (Subscriptions (client e)))
  end.
Proof.
  intros subID Hinterval.
  destruct (Subscriptions (client e) !! subID) as [sub|] eqn:Hsub.
  2:{ unfold reportIndication, subscriptions.Get. fold subID. by rewrite Hsub. }
  split.
  - intros Hle. unfold reportIndication, subscriptions.Get. fold subID.
    rewrite Hsub. rewrite (ues_facts.int64_small interval) by lia.
    unfold time.Millisecond, time.NewTicker.
    rewrite ues_facts.int64_small by lia. by rewrite decide_True by lia.
  - intros Hpos r e' Hrun.
    by apply (reportIndication_ticker interval subscription actionDefinitions
                cases e e' sub r); [|lia|].
Qed.

(** X20.  A delete request and the emitter.  Once [reportIndication] has
    set the ticker of a subscription, however the run stands, a delete of
    the subscription is answered with the response and leaves the ticker
    stopped.  A delete that comes while the ticker of the subscription is
    not set yet panics, after the response has been built. *)
Theorem delete_and_the_emitter (request : RicsubscriptionDeleteRequest)
    (subDeleteResponse : e2ap.RicsubscriptionDeleteResponse)
    (interval : Z) (subscription : subutils.Subscription)
    (actionDefinitions : list E2SmKpmActionDefinition) (cases : list selected)
    (e : emitter) (sub : subscriptions.Subscription) :
  let subID :=
    subscriptions.NewID (subdeleteutils.GetRicInstanceID request)
                        (subdeleteutils.GetRequesterID request)
                        (subdeleteutils.GetRanFunctionID request) in
  subutils.ricInstanceID subscription = subdeleteutils.GetRicInstanceID request →
  subutils.reqID subscription = subdeleteutils.GetRequesterID request →
  subutils.ranFuncID subscription = subdeleteutils.GetRanFunctionID request →
  Subscriptions (client e) !! subID = Some sub →
  e2ap.BuildSubscriptionDeleteResponse
    (subdeleteutils.NewSubscriptionDelete
       (subdeleteutils.GetRequesterID request)
       (subdeleteutils.GetRanFunctionID request)
       (subdeleteutils.GetRicInstanceID request)) = inl subDeleteResponse →
  0 < interval < 2 ^ 31 →
  (subscriptions.Ticker sub = None →
   RICSubscriptionDelete request (Subscriptions (client e)) = Panicked NilDereference)
  ∧ (∀ r e',
       reportIndication interval subscription actionDefinitions cases e
       = Returned (r, e') →
       RICSubscriptionDelete request (Subscriptions (client e'))
       = Returned (mkDeleteResult (Some subDeleteResponse) None None,
                   <[subID := subscriptions.mk (subscriptions.ID_ sub) (Some false)]>
                     (Subscriptions (client e)))).
Proof.
  intros subID Hinst Hreq Hfunc Hsub Hbuild Hinterval. split.
  - intros Hticker. unfold RICSubscriptionDelete, subscriptions.Get. fold subID.
    by rewrite Hsub, Hbuild, Hticker.
  - intros r e' Hrun.
    assert (subscriptions.NewID (subutils.ricInstanceID subscription)
                                (subutils.reqID subscription)
                                (subutils.ranFuncID subscription) = subID) as HsubID.
    { unfold subID. by rewrite Hinst, Hreq, Hfunc. }
    pose proof (reportIndication_ticker interval subscription actionDefinitions
                  cases e e' sub r) as Hticker.
    cbv zeta in Hticker. rewrite HsubID in Hticker.
    rewrite (Hticker Hsub Hinterval Hrun).
    erewrite RICSubscriptionDelete_known;
      [|apply lookup_insert_eq|reflexivity|exact Hbuild].
    fold subID. simpl. by rewrite insert_insert_eq.
Qed.

End kpm2_more.
End kpm2_more.

(** ** The MHO service model, continued *)
Module mho_more.
Import model mho mho_spec mho_format2 go_facts mho_facts.

Section mho_more.
Context `{types.Packing} `{go.MapOrder} `{Encoder}.

(** A listing of UEs touches nothing but the count of the ranges. *)
Lemma listedUEs_frame (m : Mho) (subscription : subutils.Subscription)
    (cells : list types.NCGI) (ueStore ueStore' : ues.store)
    (sent sent' : list e2ap.Ricindication) :
  forEach (λ ncgi '(sent, ueStore),
             let '(ues, ueStore) := ues.ListUEs ncgi ueStore in
             sent ← forEach (sendRicIndication_body m subscription ncgi) ues sent;
             Returned (sent, ueStore))
          cells (sent, ueStore) = Returned (sent', ueStore') →
  ues.ues ueStore' = ues.ues ueStore
  ∧ ues.watchers ueStore' = ues.watchers ueStore
  ∧ ues.cellStore ueStore' = ues.cellStore ueStore
  ∧ ranges (ues.rt ueStore') = (ranges (ues.rt ueStore) + length cells)%nat
  ∧ Int63n_calls (ues.rt ueStore') = Int63n_calls (ues.rt ueStore)
  ∧ Float64_calls (ues.rt ueStore') = Float64_calls (ues.rt ueStore).
Proof.
  revert sent ueStore. induction cells as [|ncgi cells IH]; intros sent ueStore.
  - simpl. intros [= <- <-]. repeat split. lia.
  - cbn [forEach]. rewrite ListUEs_spec. cbn beta iota.
    intros Hrun. apply bind_inv in Hrun as ([sent1 ueStore1] & Hbody & Hrun).
    apply bind_inv in Hbody as (sent2 & _ & Hbody). injection Hbody as <- <-.
    apply IH in Hrun as (-> & -> & -> & -> & -> & ->).
    unfold ues.range. simpl. repeat split. lia.
Qed.

(** What [handed] hands over: at most one indication, and none for an idle
    UE. *)
Lemma handed_length (m : Mho) (subscription : subutils.Subscription)
    (listed : types.NCGI * UE.t) :
  (length (handed m subscription listed)
   ≤ if decide (UE.RrcState listed.2 = Rrcstatus_RRCSTATUS_IDLE) then 0 else 1)%nat.
Proof.
  unfold handed. case_decide; [done|].
  destruct (sendRicIndicationFormat1 _ _ _ _) as [[e [ind|]]|]; simpl; lia.
Qed.

Lemma bind_handed_length (m : Mho) (subscription : subutils.Subscription)
    (l : list (types.NCGI * UE.t)) :
  (length (listed ← l; handed m subscription listed)
   ≤ length (filter (λ ue, UE.RrcState ue ≠ Rrcstatus_RRCSTATUS_IDLE) l.*2))%nat.
Proof.
  induction l as [|listed l IH]; [done|].
  rewrite bind_cons, length_app, fmap_cons, filter_cons.
  pose proof (handed_length m subscription listed) as Hone.
  destruct (decide (UE.RrcState listed.2 = Rrcstatus_RRCSTATUS_IDLE)) as [Hidle|Hidle].
  - rewrite decide_False by (by intros ?). lia.
  - rewrite decide_True by done. simpl. lia.
Qed.

(** A send for a subscription that is not in the store. *)
Lemma unknown_subscription_format1 (m : Mho) (ncgi : types.NCGI) (ue : UE.t)
    (subscription : subutils.Subscription) :
  Subscriptions m !! subscriptions.NewID (subutils.ricInstanceID subscription)
                                         (subutils.reqID subscription)
                                         (subutils.ranFuncID subscription) = None →
  sendRicIndicationFormat1 m ncgi ue subscription
  = Returned (Some (errors.New errors.NotFound "subscription not found"), None).
Proof.
  intros Hsub. unfold sendRicIndicationFormat1, subscriptions.Get. by rewrite Hsub.
Qed.

(** The loops of a tick for a subscription that is not in the store. *)
Lemma unknown_subscription_loop (m : Mho) (subscription : subutils.Subscription)
    (cells : list types.NCGI) (sent : list e2ap.Ricindication)
    (ueStore : ues.store) :
  Subscriptions m !! subscriptions.NewID (subutils.ricInstanceID subscription)
                                         (subutils.reqID subscription)
                                         (subutils.ranFuncID subscription) = None →
  ∃ ueStore',
    forEach (λ ncgi '(sent, ueStore),
               let '(ues, ueStore) := ues.ListUEs ncgi ueStore in
               sent ← forEach (sendRicIndication_body m subscription ncgi) ues sent;
               Returned (sent, ueStore))
            cells (sent, ueStore) = Returned (sent, ueStore').
Proof.
  intros Hsub. revert sent ueStore.
  induction cells as [|ncgi cells IH]; intros sent s; [by eexists|].
  cbn [forEach]. destruct (ues.ListUEs ncgi s) as [listed s1].
  assert (∀ sent, forEach (sendRicIndication_body m subscription ncgi) listed sent
                  = Returned sent) as ->.
  { clear IH. induction listed as [|ue listed IHl]; intros sent0; [done|].
    cbn [forEach].
    assert (sendRicIndication_body m subscription ncgi ue sent0 = Returned sent0)
      as ->; [|apply IHl].
    unfold sendRicIndication_body. case_decide; [done|].
    rewrite unknown_subscription_format1 by done. simpl.
    by rewrite app_nil_r. }
  simpl. apply IH.
Qed.

Section order.
Context `{!go.MapOrderLawful}.

(** X21.  A tick of the MHO emitter only reads the UE store: the UEs, the
    events sent and the calls made to the store of cells are the same
    afterwards, and one listing has been made for every cell of the node.
    It hands over at most one indication for every UE that a cell of the
    node serves and that is not idle (the cells of the node being
    distinct). *)
Theorem tick_reads_only (m : Mho) (subscription : subutils.Subscription)
    (ueStore ueStore' : ues.store) (sent : list e2ap.Ricindication) :
  NoDup (Node.Cells (Node m)) →
  sendRicIndication m subscription ueStore = Returned (sent, ueStore') →
  ues.ues ueStore' = ues.ues ueStore
  ∧ ues.watchers ueStore' = ues.watchers ueStore
  ∧ ues.cellStore ueStore' = ues.cellStore ueStore
  ∧ ranges (ues.rt ueStore')
    = (ranges (ues.rt ueStore) + length (Node.Cells (Node m)))%nat
  ∧ (length sent
     ≤ length (filter (λ ue, UE.RrcState ue ≠ Rrcstatus_RRCSTATUS_IDLE
                             ∧ UECell.NCGI (UE.Cell ue) ∈ Node.Cells (Node m))
                      (map_to_list (ues.ues ueStore)).*2))%nat.
Proof.
  intros Hnd Hrun. unfold sendRicIndication in Hrun.
  destruct (listedUEs_frame _ _ _ _ _ _ _ Hrun) as (Hues & Hw & Hc & Hr & _).
  do 4 (split; [done|]).
  apply sendRicIndication_outer in Hrun as ->. simpl.
  etransitivity; [apply bind_handed_length|].
  rewrite (listedUEs_once _ ueStore Hnd).
  rewrite list_filter_filter. done.
Qed.

End order.

(** X22.  For a subscription that is not in the store of subscriptions, a
    tick of the MHO emitter returns with nothing handed to an E2 channel,
    whatever the UEs are and whether or not the store of cells knows the
    cells of the node: every send ends with the NotFound error of the store,
    before the cell is looked up. *)
Theorem tick_of_unknown_subscription (m : Mho)
    (subscription : subutils.Subscription) (ueStore : ues.store) :
  Subscriptions m !! subscriptions.NewID (subutils.ricInstanceID subscription)
                                         (subutils.reqID subscription)
                                         (subutils.ranFuncID subscription) = None →
  (∃ ueStore', sendRicIndication m subscription ueStore = Returned ([], ueStore'))
  ∧ (∀ ncgi ue,
       sendRicIndicationFormat1 m ncgi ue subscription
       = Returned (Some (errors.New errors.NotFound "subscription not found"), None)
       ∧ sendRicIndicationFormat2 m ncgi ue subscription
         = Returned (Some (errors.New errors.NotFound "subscription not found"), None)).
Proof.
  intros Hsub. split.
  - unfold sendRicIndication. by apply unknown_subscription_loop.
  - intros ncgi ue. split; [by apply unknown_subscription_format1|].
    unfold sendRicIndicationFormat2, subscriptions.Get. by rewrite Hsub.
Qed.

(** X23.  What the result of a send says.  A send of format 2 that returns
    no error has handed over an indication: it skips no UE.  A send of
    format 1 that returns no error has handed over an indication exactly
    when the UE has candidate cells.  In both formats, an error that comes
    with an indication handed over is the error of the E2 channel. *)
Theorem sends_hand_over (m : Mho) (ncgi : types.NCGI) (ue : UE.t)
    (subscription : subutils.Subscription) :
  let subID :=
    subscriptions.NewID (subutils.ricInstanceID subscription)
                        (subutils.reqID subscription)
                        (subutils.ranFuncID subscription) in
  (∀ handed, sendRicIndicationFormat2 m ncgi ue subscription = Returned (None, handed) →
             is_Some handed)
  ∧ (∀ handed, sendRicIndicationFormat1 m ncgi ue subscription = Returned (None, handed) →
               (is_Some handed ↔ UE.Cells ue ≠ []))
  ∧ (∀ err indication,
       sendRicIndicationFormat1 m ncgi ue subscription
       = Returned (Some err, Some indication)
       ∨ sendRicIndicationFormat2 m ncgi ue subscription
         = Returned (Some err, Some indication) →
       RICIndication subID indication = Some err).
Proof.
  intros subID. unfold sendRicIndicationFormat1, sendRicIndicationFormat2. fold subID.
  destruct (subscriptions.Get subID (Subscriptions m)) as [sub|e].
  2:{ repeat split; try done. intros err indication [?|?]; done. }
  destruct (createIndicationHeaderBytes m ncgi) as [[header|e]|p]; simpl.
  2,3: repeat split; try done; intros err indication [?|?]; done.
  split; [|split].
  - intros handed. unfold createIndicationMsgFormat2.
    destruct (GetPlugin (OID m)); [|done].
    destruct (ToAsn1Bytes _ _); [|done].
    destruct (e2ap.Indication_Build _); [|done].
    intros [= _ <-]. by eexists.
  - intros handed. unfold createIndicationMsgFormat1, indicationMessageFormat1.
    case_decide as Hcells.
    + intros [= <-]. apply length_zero_iff_nil in Hcells.
      split; [by intros [??]|done].
    + destruct (GetPlugin (OID m)); [|done].
      destruct (mho.ToAsn1Bytes _ _); [|done].
      destruct (e2ap.Indication_Build _); [|done].
      intros [= _ <-]. split; [|by eexists].
      intros _ Hnil. by rewrite Hnil in Hcells.
  - intros err indication [Hrun|Hrun].
    + destruct (createIndicationMsgFormat1 m ue) as [[bytes|]|]; [|done..].
      destruct (e2ap.Indication_Build _); [|done]. by injection Hrun as Herr <-.
    + destruct (createIndicationMsgFormat2 m ue) as [[bytes|]|]; [|done..].
      destruct (e2ap.Indication_Build _); [|done]. by injection Hrun as Herr <-.
Qed.

(** X24.  The UE identifier of an indication of format 2 (and of format 1:
    the same text) tells the UEs apart: two UEs whose IMSIs fit the type
    [int] get the same identifier exactly when their IMSIs are the same. *)
Theorem ueID_identifies_the_UE (ue1 ue2 : UE.t) :
  0 ≤ UE.IMSI ue1 < 2 ^ 63 → 0 ≤ UE.IMSI ue2 < 2 ^ 63 →
  ueID (indicationMessageFormat2 ue1) = ueID (indicationMessageFormat2 ue2)
  ↔ UE.IMSI ue1 = UE.IMSI ue2.
Proof.
  intros Hue1 Hue2. unfold indicationMessageFormat2. simpl.
  rewrite !ues_facts.int64_small by lia. unfold Itoa. split.
  - apply (inj pretty).
  - by intros ->.
Qed.

End mho_more.
End mho_more.

(** ** Numbers in names *)
Module strconv_facts.
Import strconv_atoi.


Lemma isDigit_pretty_N_char (x : N) : isDigit (pretty_N_char x) = true.
Proof. unfold pretty_N_char. by repeat case_match. Qed.

Lemma pretty_N_char_value (x : N) :
  (x < 10)%N → Z.of_nat (nat_of_ascii (pretty_N_char x)) - 48 = Z.of_N x.
Proof.
  intros Hx.
  assert (x = 0 ∨ x = 1 ∨ x = 2 ∨ x = 3 ∨ x = 4 ∨ x = 5 ∨ x = 6 ∨ x = 7
          ∨ x = 8 ∨ x = 9)%N as Hcases by lia.
  repeat destruct Hcases as [->|Hcases]; try done. by subst.
Qed.

(** The digits that [pretty] puts in front of a string, and their value. *)
Lemma pretty_N_go_digits (x : N) (s : string) :
  ∃ l,
    String.list_ascii_of_string (pretty_N_go x s) = l ++ String.list_ascii_of_string s
    ∧ forallb isDigit l = true
    ∧ foldl (λ n c, 10 * n + (Z.of_nat (nat_of_ascii c) - 48)) 0 l = Z.of_N x
    ∧ (0 < x → l ≠ [])%N.
Proof.
  revert s. induction (N.lt_wf_0 x) as [x _ IH]; intros s.
  destruct (decide (x = 0)%N) as [->|Hx].
  - exists []. rewrite pretty_N_go_0. repeat split; [done..|lia].
  - rewrite pretty_N_go_step by lia.
    destruct (IH (x `div` 10)%N) with (s := String (pretty_N_char (x `mod` 10)) s)
      as (l & Hl & Hdigits & Hvalue & _).
    { apply N.div_lt; lia. }
    exists (l ++ [pretty_N_char (x `mod` 10)%N]). repeat split.
    + rewrite Hl. simpl. by rewrite <- app_assoc.
    + rewrite forallb_app, Hdigits. simpl. by rewrite isDigit_pretty_N_char.
    + rewrite foldl_app. simpl. rewrite Hvalue.
      rewrite pretty_N_char_value by (apply N.mod_lt; lia).
      rewrite (N.div_mod x 10) at 3 by lia. lia.
    + intros _. by destruct l.
Qed.

(** The text that [Itoa] gives for a number that is not negative: digits,
    at least one, that write the number. *)
Lemma Itoa_digits (k : Z) :
  0 ≤ k →
  ∃ c l,
    String.list_ascii_of_string (Itoa k) = c :: l
    ∧ forallb isDigit (c :: l) = true
    ∧ digitsValue (Itoa k) = k.
Proof.
  intros Hk. unfold Itoa, digitsValue, pretty, pretty_Z.
  destruct k as [|p|p]; [by exists "0"%char, [] | | lia].
  unfold pretty, pretty_positive, pretty, pretty_N.
  rewrite decide_False by done.
  destruct (pretty_N_go_digits (N.pos p) "") as (l & Hl & Hdigits & Hvalue & Hne).
  rewrite app_nil_r in Hl. rewrite Hl.
  destruct l as [|c l]; [by destruct Hne|].
  exists c, l. repeat split; [done|]. rewrite Hvalue. lia.
Qed.

End strconv_facts.

(** ** The names and identifiers of the manager *)
Module e2_facts.
Import strconv_atoi e2 e2_spec strconv_facts.
Import go_facts ues_facts.

Lemma leadingDigits_all (l : list Ascii.ascii) :
  forallb isDigit l = true →
  regexp.leadingDigits (String.string_of_list_ascii l) = String.string_of_list_ascii l.
Proof.
  induction l as [|c l IH]; [done|]. simpl.
  intros [Hc Hl]%andb_prop. rewrite Hc. by rewrite IH.
Qed.

Lemma digits_FindAllString_1_prefix (prefix digits : string) :
  noDigit prefix →
  digits ≠ "" →
  forallb isDigit (String.list_ascii_of_string digits) = true →
  regexp.digits_FindAllString_1 (prefix +:+ digits) = [digits].
Proof.
  intros Hprefix Hne Hdigits. induction prefix as [|c prefix IH].
  - simpl. destruct digits as [|c digits]; [done|]. simpl in *.
    apply andb_prop in Hdigits as [Hc Hdigits]. rewrite Hc.
    rewrite <- (String.string_of_list_ascii_of_string digits) at 1.
    rewrite leadingDigits_all by done.
    by rewrite String.string_of_list_ascii_of_string.
  - unfold noDigit in Hprefix. simpl in *.
    apply andb_prop in Hprefix as [Hc Hprefix].
    apply negb_true_iff in Hc. rewrite Hc. by apply IH.
Qed.

(** A number printed behind a name without digits is read back. *)
Lemma firstNumber_Itoa (prefix : string) (k : Z) :
  noDigit prefix → 0 ≤ k < 2 ^ 63 →
  firstNumber (prefix +:+ Itoa k) = Returned k.
Proof.
  intros Hprefix Hk.
  destruct (Itoa_digits k) as (c & l & Hlist & Hdigits & Hvalue); [lia|].
  unfold firstNumber. rewrite digits_FindAllString_1_prefix; [|done| |].
  - unfold Atoi.
    destruct (Itoa k) as [|c' s] eqn:Hitoa; [done|].
    injection Hlist as -> Hs.
    assert (c ≠ "-"%char ∧ c ≠ "+"%char) as [Hminus Hplus].
    { simpl in Hdigits. apply andb_prop in Hdigits as [Hc _].
      split; intros ->; done. }
    assert ((let '(neg, digits) :=
               match String c s with
               | String "-" rest => (true, rest)
               | String "+" rest => (false, rest)
               | _ => (false, String c s)
               end in
             (neg, digits)) = (false, String c s)) as Hsign.
    { destruct c as [[] [] [] [] [] [] [] []]; try done. }
    revert Hsign.
    destruct (match String c s with
              | String "-" rest => (true, rest)
              | String "+" rest => (false, rest)
              | _ => (false, String c s)
              end) as [neg digits].
    intros [= -> ->].
    rewrite bool_decide_eq_false_2 by done.
    simpl String.list_ascii_of_string. rewrite Hs, Hdigits. simpl negb. cbn [orb].
    rewrite Hvalue. rewrite decide_False by lia. rewrite decide_False by lia. done.
  - intros Hempty. by rewrite Hempty in Hlist.
  - by rewrite Hlist.
Qed.


(** *** What [firstNumber] reads *)

Lemma noDigit_no_match (name : string) :
  noDigit name ↔ regexp.digits_FindAllString_1 name = [].
Proof.
  unfold noDigit. induction name as [|c name IH]; [done|]. simpl.
  destruct (isDigit c); simpl; [by split|done].
Qed.

Lemma leadingDigits_digits (s : string) :
  forallb isDigit (String.list_ascii_of_string (regexp.leadingDigits s)) = true.
Proof.
  induction s as [|c s IH]; [done|]. simpl.
  destruct (isDigit c) eqn:Hc; [|done]. simpl. by rewrite Hc.
Qed.

Lemma digitsValue_nonneg (l : list Ascii.ascii) (acc : Z) :
  forallb isDigit l = true → 0 ≤ acc →
  0 ≤ foldl (λ n c, 10 * n + (Z.of_nat (nat_of_ascii c) - 48)) acc l.
Proof.
  revert acc. induction l as [|c l IH]; intros acc Hl Hacc; [done|]. simpl in *.
  apply andb_prop in Hl as [Hc Hl]. apply IH; [done|].
  apply bool_decide_eq_true in Hc. lia.
Qed.

(** The number read from a name is the value of an [int] that is not
    negative; a name without a digit makes the index panic. *)
Lemma firstNumber_cases (name : string) :
  (noDigit name ∧ firstNumber name = Panicked (IndexOutOfRange 0 0))
  ∨ (∃ id, firstNumber name = Returned id ∧ 0 ≤ id < 2 ^ 63).
Proof.
  unfold firstNumber.
  destruct (regexp.digits_FindAllString_1 name) as [|m rest] eqn:Hmatch.
  { left. split; [by apply noDigit_no_match|done]. }
  right. eexists. split; [done|].
  assert (∃ c s, m = String c s ∧ isDigit c = true
                 ∧ forallb isDigit (String.list_ascii_of_string s) = true)
    as (c & s & -> & Hc & Hs).
  { clear -Hmatch. induction name as [|c name IH]; [done|]. simpl in Hmatch.
    destruct (isDigit c) eqn:Hc; [|by apply IH].
    injection Hmatch as <- <-. exists c, (regexp.leadingDigits name).
    split; [done|]. split; [done|]. apply leadingDigits_digits. }
  unfold Atoi.
  assert ((let '(neg, digits) :=
             match String c s with
             | String "-" rest => (true, rest)
             | String "+" rest => (false, rest)
             | _ => (false, String c s)
             end in
           (neg, digits)) = (false, String c s)) as Hsign.
  { destruct c as [[] [] [] [] [] [] [] []]; done. }
  revert Hsign.
  destruct (match String c s with
            | String "-" rest => (true, rest)
            | String "+" rest => (false, rest)
            | _ => (false, String c s)
            end) as [neg digits].
  intros [= -> ->].
  rewrite bool_decide_eq_false_2 by done.
  simpl String.list_ascii_of_string. simpl forallb. rewrite Hc, Hs. cbn [andb negb orb].
  pose proof (digitsValue_nonneg (c :: String.list_ascii_of_string s) 0) as Hnonneg.
  simpl forallb in Hnonneg. rewrite Hc, Hs in Hnonneg.
  specialize (Hnonneg eq_refl (Z.le_refl 0)).
  unfold digitsValue. simpl String.list_ascii_of_string.
  cbn [foldl] in *. repeat case_decide; cbn [fst]; lia.
Qed.

(** *** Hexadecimal digits *)








Lemma rowcol_of (n x y : Z) :
  0 < n → 0 ≤ y < n → row n (x * n + y + 1) = x ∧ col n (x * n + y + 1) = y.
Proof.
  intros Hn Hy. unfold row, col.
  replace (x * n + y + 1 - 1) with (y + x * n) by lia.
  rewrite Z.div_add, Z.mod_add by lia.
  rewrite Z.div_small, Z.mod_small by lia. lia.
Qed.

Lemma rowcol_number (n k : Z) : 0 < n → k = row n k * n + col n k + 1.
Proof. intros Hn. unfold row, col. pose proof (Z.div_mod (k - 1) n). lia. Qed.

Lemma rowcol_range (n k : Z) :
  0 < n → 1 ≤ k ≤ n * n → 0 ≤ row n k < n ∧ 0 ≤ col n k < n.
Proof.
  intros Hn Hk. unfold row, col. split; [|apply Z.mod_pos_bound; lia].
  split; [apply Z.div_pos; lia|]. apply Z.div_lt_upper_bound; lia.
Qed.

(** In a grid with as many rows as columns, the neighbors of a tower are
    the towers next to it in its row and in its column. *)
Lemma makeNeighbors_square (name : string) (n k maxUEs : Z) :
  firstNumber name = Returned k →
  0 < n < 2 ^ 31 → 1 ≤ k ≤ n * n →
  ∃ l,
    makeNeighbors name (mkTowersParams n n maxUEs) = Returned l
    ∧ ∀ name', name' ∈ l
        ↔ ∃ k', 1 ≤ k' ≤ n * n ∧ adjacent n k k' ∧ name' = "Tower-" +:+ Itoa k'.
Proof.
  intros Hfirst Hn Hk.
  destruct (rowcol_range n k) as [Hi Hj]; [lia..|].
  assert (n * n < 2 ^ 62) as Hnn by nia.
  unfold makeNeighbors. rewrite Hfirst. cbn [mbind result_bind TowerRows TowerCols].
  rewrite (int64_small (k - 1)) by lia.
  unfold quo, rem. rewrite !decide_False by lia. cbn [mbind result_bind].
  rewrite Z.quot_div_nonneg, Z.rem_mod_nonneg by lia.
  fold (row n k) (col n k).
  rewrite (int64_small (row n k)) by lia.
  assert (- 2 ^ 63 ≤ row n k - 1 < 2 ^ 63) by lia.
  assert (- 2 ^ 63 ≤ col n k + 1 < 2 ^ 63) by lia.
  assert (- 2 ^ 63 ≤ n - 1 < 2 ^ 63) by lia.
  rewrite (int64_small (row n k - 1)) by lia. rewrite (int64_small (row n k + 1)) by lia.
   rewrite (int64_small (col n k - 1)) by lia. rewrite (int64_small (col n k + 1)) by lia.
    rewrite (int64_small (n - 1)) by lia.
  eexists. split; [reflexivity|]. intros name'.
  rewrite list_elem_of_bind. setoid_rewrite list_elem_of_bind.
  unfold upTo, Max, Min. split.
  - intros (x & (y & Hin & [Hy1 Hy2]%elem_of_seqZ) & [Hx1 Hx2]%elem_of_seqZ).
    assert (0 ≤ x < n ∧ 0 ≤ y < n) as [Hx Hy] by (repeat case_decide; lia).
    destruct (rowcol_of n x y) as [Hrow Hcol]; [lia..|].
    destruct (_ || _) eqn:Hcond in Hin; [|by apply elem_of_nil in Hin].
    apply list_elem_of_singleton in Hin as ->.
    assert (0 ≤ x * n ≤ n * n) by nia.
    rewrite (int64_small (x * n)) by lia. rewrite (int64_small (x * n + y)) by lia.
    rewrite (int64_small (x * n + y + 1)) by lia.
    exists (x * n + y + 1). split; [nia|]. split; [|done].
    unfold adjacent. rewrite Hrow, Hcol.
    repeat (apply orb_prop in Hcond as [Hcond|Hcond]);
      apply bool_decide_eq_true in Hcond; lia.
  - intros (k' & Hk' & Hadj & ->).
    destruct (rowcol_range n k') as [Hi' Hj']; [lia..|].
    exists (row n k'). split; [exists (col n k'); split|].
    + assert (0 ≤ row n k' * n ≤ n * n) by nia.
      rewrite (int64_small (row n k' * n)) by lia.
      rewrite (int64_small (row n k' * n + col n k')) by lia.
      rewrite (int64_small (row n k' * n + col n k' + 1)) by lia.
      rewrite <- rowcol_number by lia.
      unfold adjacent in Hadj.
      rewrite (proj2 (orb_true_iff _ _)); [by left|].
      rewrite !orb_true_iff, !bool_decide_eq_true. lia.
    + apply elem_of_seqZ. unfold adjacent in Hadj. repeat case_decide; lia.
    + apply elem_of_seqZ. unfold adjacent in Hadj. repeat case_decide; lia.
Qed.


(** A nested loop that appends a function of the pairs it selects. *)
Lemma bind_select_fmap {A B C : Type} (c : A → B → bool) (g : A → B → C)
    (xs : list A) (ys : list B) :
  (x ← xs; y ← ys; if c x y then [g x y] else [])
  = (λ p, g p.1 p.2) <$> (x ← xs; y ← ys; if c x y then [(x, y)] else []).
Proof.
  induction xs as [|x xs IH]; [done|].
  rewrite !bind_cons, fmap_app, IH. f_equal.
  clear. induction ys as [|y ys IH]; [done|].
  rewrite !bind_cons, fmap_app, IH. f_equal. by destruct (c x y).
Qed.

Lemma NoDup_select {A B : Type} (c : A → B → bool) (xs : list A) (ys : list B) :
  NoDup xs → NoDup ys →
  NoDup (x ← xs; y ← ys; if c x y then [(x, y)] else []).
Proof.
  intros Hxs Hys.
  assert (∀ x p, p ∈ (y ← ys; if c x y then [(x, y)] else []) → p.1 = x) as Hfst.
  { intros x p (y & Hp & _)%list_elem_of_bind.
    destruct (c x y); [|by apply elem_of_nil in Hp].
    by apply list_elem_of_singleton in Hp as ->. }
  apply NoDup_bind; [| |done].
  - intros x1 x2 p _ _ H1 H2. apply Hfst in H1, H2. congruence.
  - intros x _. apply NoDup_bind; [| |done].
    + intros y1 y2 p _ _ H1 H2.
      destruct (c x y1); [|by apply elem_of_nil in H1].
      destruct (c x y2); [|by apply elem_of_nil in H2].
      apply list_elem_of_singleton in H1, H2. congruence.
    + intros y _. destruct (c x y); [apply NoDup_singleton | apply NoDup_nil_2].
Qed.

(** The loops of [makeNeighbors] select at most four pairs. *)
Lemma select_at_most_4 (xs ys : list Z) (i j a b c d : Z) (g : Z → Z → string) :
  NoDup xs → NoDup ys →
  (length (x ← xs; y ← ys;
           if bool_decide (x = i ∧ y = a) || bool_decide (x = i ∧ y = b)
              || bool_decide (x = c ∧ y = j) || bool_decide (x = d ∧ y = j)
           then [g x y] else []) ≤ 4)%nat.
Proof.
  intros Hxs Hys.
  rewrite (bind_select_fmap
             (λ x y, bool_decide (x = i ∧ y = a) || bool_decide (x = i ∧ y = b)
                     || bool_decide (x = c ∧ y = j) || bool_decide (x = d ∧ y = j))).
  rewrite length_fmap.
  change 4%nat with (length [(i, a); (i, b); (c, j); (d, j)]).
  apply submseteq_length, NoDup_submseteq; [by apply NoDup_select|].
  intros p (x & (y & Hp & _)%list_elem_of_bind & _)%list_elem_of_bind.
  destruct (_ || _) eqn:Hcond in Hp; [|by apply elem_of_nil in Hp].
  apply list_elem_of_singleton in Hp as ->.
  rewrite !orb_true_iff, !bool_decide_eq_true in Hcond.
  rewrite !elem_of_cons.
  destruct Hcond as [[[[-> ->]|[-> ->]]|[-> ->]]|[-> ->]]; auto.
Qed.

(** The edges of [makeNeighbors]: a name without a digit and a grid without
    rows or columns make it panic; otherwise it returns at most four
    names. *)
Lemma makeNeighbors_cases (towerName : string) (towerParams : TowersParams) :
  (noDigit towerName
   ∧ makeNeighbors towerName towerParams = Panicked (IndexOutOfRange 0 0))
  ∨ (¬ noDigit towerName
     ∧ (TowerRows towerParams = 0 ∨ TowerCols towerParams = 0)
     ∧ makeNeighbors towerName towerParams = Panicked IntegerDivideByZero)
  ∨ (¬ noDigit towerName
     ∧ TowerRows towerParams ≠ 0 ∧ TowerCols towerParams ≠ 0
     ∧ ∃ neighbors,
         makeNeighbors towerName towerParams = Returned neighbors
         ∧ (length neighbors ≤ 4)%nat).
Proof.
  unfold makeNeighbors.
  destruct (firstNumber_cases towerName) as [[Hno ->]|(id & Hid & _)]; [by left|].
  right. rewrite Hid.
  assert (¬ noDigit towerName) as Hdigit.
  { intros Hno%noDigit_no_match. unfold firstNumber in Hid. by rewrite Hno in Hid. }
  cbn [mbind result_bind]. unfold quo, rem.
  destruct (decide (TowerRows towerParams = 0)) as [Hrows|Hrows]; [left; auto|].
  cbn [mbind result_bind].
  destruct (decide (TowerCols towerParams = 0)) as [Hcols|Hcols]; [left; auto|].
  right. do 3 (split; [done|]). eexists. split; [reflexivity|].
  apply select_at_most_4; apply NoDup_seqZ.
Qed.


Lemma noDigit_Tower : noDigit "Tower-".
Proof. reflexivity. Qed.

Lemma adjacent_sym (n k k' : Z) : adjacent n k k' → adjacent n k' k.
Proof. unfold adjacent. lia. Qed.

Lemma adjacent_irrefl (n k : Z) : ¬ adjacent n k k.
Proof. unfold adjacent. lia. Qed.

Lemma towerName_inj (k k' : Z) : "Tower-" +:+ Itoa k = "Tower-" +:+ Itoa k' → k = k'.
Proof.
  unfold Itoa. intros Heq. apply (inj (String.app "Tower-")) in Heq.
  by apply (inj pretty) in Heq.
Qed.

(** X25.  In a grid with as many rows as columns, [makeNeighbors] returns
    for the tower of number [k] the names of the towers next to it in its
    row and in its column, and no other name; the tower itself is not among
    them. *)
Theorem neighbors_in_a_square_grid (n k maxUEs : Z) :
  0 < n < 2 ^ 31 → 1 ≤ k ≤ n * n →
  ∃ neighbors,
    makeNeighbors ("Tower-" +:+ Itoa k) (mkTowersParams n n maxUEs)
    = Returned neighbors
    ∧ (∀ name, name ∈ neighbors
         ↔ ∃ k', 1 ≤ k' ≤ n * n ∧ adjacent n k k' ∧ name = "Tower-" +:+ Itoa k')
    ∧ "Tower-" +:+ Itoa k ∉ neighbors.
Proof.
  intros Hn Hk.
  destruct (makeNeighbors_square ("Tower-" +:+ Itoa k) n k maxUEs)
    as (neighbors & Hrun & Hin); [|done..|].
  { apply firstNumber_Itoa; [apply noDigit_Tower|nia]. }
  exists neighbors. split; [done|]. split; [done|].
  intros (k' & _ & Hadjacent & ->%towerName_inj)%Hin.
  by apply adjacent_irrefl in Hadjacent.
Qed.

(** X26.  In a square grid, being a neighbor is mutual: the tower of number
    [k'] is among the neighbors that [makeNeighbors] returns for the tower
    of number [k] exactly when [k] is among those of [k']. *)
Theorem neighbors_are_mutual (n k k' maxUEs : Z) (neighbors neighbors' : list string) :
  0 < n < 2 ^ 31 → 1 ≤ k ≤ n * n → 1 ≤ k' ≤ n * n →
  makeNeighbors ("Tower-" +:+ Itoa k) (mkTowersParams n n maxUEs) = Returned neighbors →
  makeNeighbors ("Tower-" +:+ Itoa k') (mkTowersParams n n maxUEs) = Returned neighbors' →
  "Tower-" +:+ Itoa k' ∈ neighbors ↔ "Tower-" +:+ Itoa k ∈ neighbors'.
Proof.
  intros Hn Hk Hk' Hrun Hrun'.
  destruct (makeNeighbors_square ("Tower-" +:+ Itoa k) n k maxUEs)
    as (l & Hl & Hin); [|done..|].
  { apply firstNumber_Itoa; [apply noDigit_Tower|nia]. }
  destruct (makeNeighbors_square ("Tower-" +:+ Itoa k') n k' maxUEs)
    as (l' & Hl' & Hin'); [|done..|].
  { apply firstNumber_Itoa; [apply noDigit_Tower|nia]. }
  rewrite Hrun in Hl. injection Hl as <-. rewrite Hrun' in Hl'. injection Hl' as <-.
  rewrite Hin, Hin'. split.
  - intros (k2 & _ & Hadjacent & <-%towerName_inj).
    exists k. split; [done|]. split; [by apply adjacent_sym|done].
  - intros (k2 & _ & Hadjacent & <-%towerName_inj).
    exists k'. split; [done|]. split; [by apply adjacent_sym|done].
Qed.

(** X27.  The edges of [makeNeighbors].  A tower name without a digit makes
    it panic on the index of the first match; a grid without rows or
    without columns makes it panic on the division; in every other case it
    returns, and at most four names. *)
Theorem makeNeighbors_panics_or_returns_four
    (towerName : string) (towerParams : TowersParams) :
  (noDigit towerName
   ∧ makeNeighbors towerName towerParams = Panicked (IndexOutOfRange 0 0))
  ∨ (¬ noDigit towerName
     ∧ (TowerRows towerParams = 0 ∨ TowerCols towerParams = 0)
     ∧ makeNeighbors towerName towerParams = Panicked IntegerDivideByZero)
  ∨ (¬ noDigit towerName
     ∧ TowerRows towerParams ≠ 0 ∧ TowerCols towerParams ≠ 0
     ∧ ∃ neighbors,
         makeNeighbors towerName towerParams = Returned neighbors
         ∧ (length neighbors ≤ 4)%nat).
Proof. apply makeNeighbors_cases. Qed.



End e2_facts.

(** ** The properties on concrete inputs *)
Module examples.
Import model example.

(** The order of [example.order] is an order of the entries. *)
Lemma order_lawful : go.MapOrderLawful.
Proof. intros n K A l. reflexivity. Qed.

#[export] Existing Instance order_lawful.

(** C6 on the topology of seven towers with three sectors each. *)
Lemma C6_seven_towers_three_sectors :
  ∃ m,
    honeycomb.GenerateHoneycombTopology
      (Coordinate.mk 52.5 13.5) 7 3 314628 144470 500 400 6
      ["onos-e2t"] ["kpm/1"; "rc"] false = Returned (m, None)
    ∧ size (Model.Cells m) = 21%nat
    ∧ ∀ cellName cell,
        Model.Cells m !! cellName = Some cell →
        Z.of_nat (length (Cell.Neighbors cell)) ≤ 6
        ∧ Cell.ECGI cell ∉ Cell.Neighbors cell.
Proof.
  eexists. split; [vm_compute; reflexivity|]. split; [vm_compute; reflexivity|].
  apply (honeycomb_facts.C6_neighbors_capped_and_without_self
           (Coordinate.mk 52.5 13.5) 7 3 314628 144470 500 400 6
           ["onos-e2t"] ["kpm/1"; "rc"] false _ None);
    [lia | vm_compute; reflexivity].
Defined.


(** C5 (the code against the claim).  The claim: [SetUECount(n)], applied
    twice, leaves [Len() = n].  The code, on an empty store and a source of
    draws that gives the same integer again and again: the first call of
    [SetUECount(2)] stores its first UE, finds the IMSI of its second UE in
    the store, draws once more, does not look again, and overwrites the first
    UE; the second call does the same for the one UE that is missing.  The
    store is left with one UE. *)
Theorem C5_SetUECount_twice_under_colliding_draws :
  ∃ s1 s2,
    @ues.SetUECount repeating cellStore order 2 emptyStore = Returned s1
    ∧ @ues.SetUECount repeating cellStore order 2 s1 = Returned s2
    ∧ ues.Len s1 = 1
    ∧ ues.Len s2 = 1.
Proof.
  do 2 eexists. split; [vm_compute; reflexivity|].
  split; [vm_compute; reflexivity|]. split; vm_compute; reflexivity.
Qed.

(** C2, as stated, fails.  A delete of a subscription of the store is
    answered with the response, and the subscription is still in the store
    (with its ticker stopped): the same delete, made again, finds it and is
    answered with the response again.  A delete of an unknown subscription
    is answered with the NotFound error, and with no failure PDU. *)
Lemma C2_delete_leaves_subscription_in_store :
  ∃ Subscriptions',
    kpm2.RICSubscriptionDelete
      (e2appducontents.mkDeleteRequest (e2appducontents.mkRequestId 1 10) 5)
      (mho.Subscriptions node1)
    = Returned (@kpm2.mkDeleteResult pdus
                  (Some deleteResponse1) None None,
                Subscriptions')
    ∧ Subscriptions' !! (10, 1, 5) = Some (subscriptions.mk (10, 1, 5) (Some false))
    ∧ kpm2.RICSubscriptionDelete
        (e2appducontents.mkDeleteRequest (e2appducontents.mkRequestId 1 10) 5)
        Subscriptions'
      = Returned (@kpm2.mkDeleteResult pdus
                    (Some deleteResponse1) None None,
                  Subscriptions')
    ∧ kpm2.RICSubscriptionDelete
        (e2appducontents.mkDeleteRequest (e2appducontents.mkRequestId 2 10) 5)
        (mho.Subscriptions node1)
      = Returned (kpm2.mkDeleteResult None None
                    (Some (errors.New errors.NotFound "subscription not found")),
                  mho.Subscriptions node1).
Proof.
  eexists. split; [vm_compute; reflexivity|]. repeat split; vm_compute; reflexivity.
Qed.

(** C2, as amended, on the same store. *)
Lemma C2_delete_of_known_subscription :
  kpm2.RICSubscriptionDelete
    (e2appducontents.mkDeleteRequest (e2appducontents.mkRequestId 1 10) 5)
    (mho.Subscriptions node1)
  = Returned (@kpm2.mkDeleteResult pdus
                (Some deleteResponse1) None None,
              <[(10, 1, 5) := subscriptions.mk (10, 1, 5) (Some false)]>
                (mho.Subscriptions node1)).
Proof.
  apply (kpm2_facts.C2_delete_stops_ticker_keeps_subscription
           (e2appducontents.mkDeleteRequest (e2appducontents.mkRequestId 1 10) 5)
           (mho.Subscriptions node1) true deleteResponse1 eq_refl eq_refl).
Defined.

(** C3 on a request with one INSERT action and no other. *)
Lemma C3_insert_only_is_refused :
  let request :=
    e2appducontents.mkRequest 1 10 5 [Byte.x01]
      [e2appducontents.mkAction 7 RicactionType_RICACTION_TYPE_INSERT []] in
  kpm2.response (kpm2.RICSubscription request) = None
  ∧ kpm2.started (kpm2.RICSubscription request) = None
  ∧ kpm2.failure (kpm2.RICSubscription request)
    = Some failure1.
Proof.
  intros request.
  destruct (kpm2_facts.C3_subscription_actions request) as (_ & _ & Hrefused).
  destruct (Hrefused eq_refl) as (Hresponse & Hstarted & Hfailure).
  split; [exact Hresponse|]. split; [exact Hstarted|].
  destruct Hfailure as [Hfailure _]. rewrite Hfailure. vm_compute. reflexivity.
Defined.

(** C7 on a subscription that asks for RRC.Conn.Max, for a name that the
    node does not declare, and for RRC.ConnEstabAtt.Tot, with three UEs in
    the store: an integer record, no record, and a NoValue record. *)
Lemma C7_requested_records :
  let item name :=
    e2smkpmv2.mkInfoItem (e2smkpmv2.MeasurementType_MeasName name) [] in
  let actionDefinition :=
    e2smkpmv2.E2SmKpmActionDefinition_ActionDefinitionFormat1
      (e2smkpmv2.mkFormat1 "84325717505"
         [item "RRC.Conn.Max"; item "Foo.Bar"; item "RRC.ConnEstabAtt.Tot"] 15 4711) in
  ∃ indicationMessage,
    kpm2.indicationMessageFormat1 threeUEs 84325717505 [actionDefinition]
    = Returned (inl (Some indicationMessage))
    ∧ kpm2.measData indicationMessage
      = [e2smkpmv2.mkDataItem
           [e2smkpmv2.MeasurementRecordItem_Integer 3;
            e2smkpmv2.MeasurementRecordItem_NoValue]
           (Some e2smkpmv2.IncompleteFlag_INCOMPLETE_FLAG_TRUE)].
Proof.
  intros item actionDefinition. eexists. split; [vm_compute; reflexivity|].
  edestruct (kpm2_facts.C7_measurement_records threeUEs 84325717505 [actionDefinition])
    as (Hdata & _); [vm_compute; reflexivity|].
  etransitivity; [exact Hdata|]. vm_compute. reflexivity.
Defined.

(** C7, as stated, fails.  The node declares three measurement types.  On
    a subscription whose action definition asks for RRC.Conn.Max, for a name
    that the node does not declare, and for RRC.ConnEstabAtt.Tot, the
    message holds two records: the declared type RRC.Conn.Avg has no record,
    integer or other, and the record is not the one with a record for every
    declared type. *)
Lemma C7_declared_type_without_record :
  let item name :=
    e2smkpmv2.mkInfoItem (e2smkpmv2.MeasurementType_MeasName name) [] in
  let actionDefinition :=
    e2smkpmv2.E2SmKpmActionDefinition_ActionDefinitionFormat1
      (e2smkpmv2.mkFormat1 "84325717505"
         [item "RRC.Conn.Max"; item "Foo.Bar"; item "RRC.ConnEstabAtt.Tot"] 15 4711) in
  ∃ indicationMessage,
    kpm2.indicationMessageFormat1 threeUEs 84325717505 [actionDefinition]
    = Returned (inl (Some indicationMessage))
    ∧ kpm2.measTypeName <$> kpm2.measTypes
      = [RRCConnEstabAttTot; RRCConnAvg; RRCConnMax]
    ∧ kpm2.measData indicationMessage
      = [e2smkpmv2.mkDataItem
           [e2smkpmv2.MeasurementRecordItem_Integer 3;
            e2smkpmv2.MeasurementRecordItem_NoValue]
           (Some e2smkpmv2.IncompleteFlag_INCOMPLETE_FLAG_TRUE)]
    ∧ e2smkpmv2.MeasurementType_MeasName "RRC.Conn.Avg"
      ∉ (e2smkpmv2.MeasType <$> kpm2.measInfoList indicationMessage)
    ∧ ¬ kpm2_spec.everyDeclaredTypeReported threeUEs indicationMessage.
Proof.
  intros item actionDefinition. eexists. split; [vm_compute; reflexivity|].
  split; [reflexivity|]. split; [vm_compute; reflexivity|]. split.
  - vm_compute. intros Hin. repeat (apply elem_of_cons in Hin as [Hin|Hin]; [done|]).
    by apply elem_of_nil in Hin.
  - unfold kpm2_spec.everyDeclaredTypeReported. vm_compute. discriminate.
Qed.

(** C8, as stated, fails in two places.  The RSRP of an entry is not the
    strength of the cell: for the first of the three UEs, whose serving cell
    has the strength 42.5, the report carries 42.  And a report is built
    more than once for a UE in a tick when the node lists a cell twice: on
    the node with its first cell listed twice, the tick hands over two
    indications, and the store holds one UE that is not idle and has
    candidate cells. *)
Lemma C8_RSRP_is_cut_and_a_repeated_cell_reports_twice :
  let ue1 :=
    ue 1000001 Rrcstatus_RRCSTATUS_CONNECTED
       [model.UECell.mk 84325717506 84325717506 17.25] in
  (∃ indicationMessage,
     mho.indicationMessageFormat1 node1 ue1 = Some indicationMessage
     ∧ mho.Rsrp <$> mho.measReport indicationMessage = [42; 17]
     ∧ UECell.Strength (UE.Cell ue1) = 42.5%float
     ∧ (float64 42 =? UECell.Strength (UE.Cell ue1))%float = false)
  ∧ ∃ sent ueStore',
      mho.sendRicIndication node1Twice subscription1 threeUEs
      = Returned (sent, ueStore')
      ∧ length sent = 2%nat
      ∧ length (filter (λ ue, UE.RrcState ue ≠ Rrcstatus_RRCSTATUS_IDLE
                              ∧ UE.Cells ue ≠ [])
                       (map_to_list (ues.ues threeUEs)).*2) = 1%nat.
Proof.
  intros ue1. split.
  - eexists. split; [vm_compute; reflexivity|].
    split; [vm_compute; reflexivity|]. split; vm_compute; reflexivity.
  - do 2 eexists. split; [vm_compute; reflexivity|].
    split; vm_compute; reflexivity.
Qed.

(** C8, as amended, on the three UEs of the first cell: one indication, for
    the UE that is connected and has a candidate cell, whose report holds
    the serving cell with RSRP 42 and then the candidate cell with RSRP
    17. *)
Lemma C8_one_indication_for_three_UEs :
  let ue1 :=
    ue 1000001 Rrcstatus_RRCSTATUS_CONNECTED
       [model.UECell.mk 84325717506 84325717506 17.25] in
  ∃ sent ueStore',
    mho.sendRicIndication node1 subscription1 threeUEs = Returned (sent, ueStore')
    ∧ length sent = 1%nat
    ∧ sent = (listed ← mho_spec.listedUEs (Node.Cells (mho.Node node1)) threeUEs;
              mho_spec.emitted node1 subscription1 listed)
    ∧ mho.indicationMessageFormat1 node1 ue1
      = Some (mho_spec.measurementReport node1 ue1)
    ∧ mho.Rsrp <$> mho.measReport (mho_spec.measurementReport node1 ue1) = [42; 17].
Proof.
  intros ue1. do 2 eexists. split; [vm_compute; reflexivity|]. split; [reflexivity|].
  destruct (mho_facts.C8_format1_once_per_UE_serving_cell_first
              node1 subscription1 threeUEs)
    as (_ & Hsent & _ & _ & _ & Hreport & _).
  split; [eapply Hsent; vm_compute; reflexivity|].
  split; [apply (Hreport ue1); discriminate | vm_compute; reflexivity].
Defined.

(** X2 on the topology of three towers with two sectors each. *)
Lemma nodes_of_three_towers :
  ∃ m,
    honeycomb.GenerateHoneycombTopology
      (Coordinate.mk 52.5 13.5) 3 2 314628 144470 500 400 6
      ["onos-e2t"] ["kpm/1"; "rc"] false = Returned (m, None)
    ∧ Model.PlmnID m = 314628
    ∧ Model.Controllers m = honeycomb.generateControllers ["onos-e2t"]
    ∧ size (Model.Nodes m) = 3%nat.
Proof.
  eexists. split; [vm_compute; reflexivity|].
  lazymatch goal with |- Model.PlmnID ?m = _ ∧ _ =>
    destruct (honeycomb_more.nodes_of_the_honeycomb
                (Coordinate.mk 52.5 13.5) 3 2 314628 144470 500 400 6
                ["onos-e2t"] ["kpm/1"; "rc"] false m None)
      as (Hplmn & _ & Hcontrollers & _ & Hsize & _)
  end; [vm_compute; reflexivity..|].
  split; [exact Hplmn|]. split; [exact Hcontrollers|exact Hsize].
Defined.

(** X3 on the same topology. *)
Lemma cells_of_three_towers :
  ∃ m,
    honeycomb.GenerateHoneycombTopology
      (Coordinate.mk 52.5 13.5) 3 2 314628 144470 500 400 6
      ["onos-e2t"] ["kpm/1"; "rc"] false = Returned (m, None)
    ∧ size (Model.Cells m) = (3 * 2)%nat.
Proof.
  eexists. split; [vm_compute; reflexivity|].
  lazymatch goal with |- size (Model.Cells ?m) = _ =>
    destruct (honeycomb_more.cells_of_the_honeycomb
                (Coordinate.mk 52.5 13.5) 3 2 314628 144470 500 400 6
                ["onos-e2t"] ["kpm/1"; "rc"] false m None) as [Hsize _]
  end; [vm_compute; reflexivity..|exact Hsize].
Defined.

(** X4 on the same topology. *)
Lemma neighbors_in_three_towers :
  ∃ m,
    honeycomb.GenerateHoneycombTopology
      (Coordinate.mk 52.5 13.5) 3 2 314628 144470 500 400 6
      ["onos-e2t"] ["kpm/1"; "rc"] false = Returned (m, None)
    ∧ ∀ cellName cell ecgi,
        Model.Cells m !! cellName = Some cell → ecgi ∈ Cell.Neighbors cell →
        ∃ otherName other,
          Model.Cells m !! otherName = Some other ∧ Cell.ECGI other = ecgi
          ∧ honeycomb.isNeighbor cell other 400 (bool_decide (2%nat = 1%nat)) = true.
Proof.
  eexists. split; [vm_compute; reflexivity|].
  apply (honeycomb_more.neighbors_are_near_cells_of_the_model
           (Coordinate.mk 52.5 13.5) 3 2 314628 144470 500 400 6
           ["onos-e2t"] ["kpm/1"; "rc"] false _ None).
  vm_compute. reflexivity.
Defined.

(** X5 on the same towers with a cap of zero. *)
Lemma three_towers_without_neighbors :
  ∃ m,
    honeycomb.GenerateHoneycombTopology
      (Coordinate.mk 52.5 13.5) 3 2 314628 144470 500 400 0
      ["onos-e2t"] ["kpm/1"; "rc"] false = Returned (m, None)
    ∧ ∀ cellName cell,
        Model.Cells m !! cellName = Some cell → Cell.Neighbors cell = [].
Proof.
  eexists. split; [vm_compute; reflexivity|].
  apply (honeycomb_more.no_neighbors_under_a_cap_of_zero
           (Coordinate.mk 52.5 13.5) 3 2 314628 144470 500 400 0
           ["onos-e2t"] ["kpm/1"; "rc"] false _ None);
    [lia | vm_compute; reflexivity].
Defined.

(** X10 on two UEs made in an empty store. *)
Lemma two_UEs_created_silently :
  ∃ s', ues.CreateUEs 2 emptyStore = Returned s'
        ∧ ues.watchers s' = ues.watchers emptyStore
        ∧ ues.cellStore s' = (ues.cellStore emptyStore + Z.to_nat 2)%nat
        ∧ ues.Len emptyStore ≤ ues.Len s' ≤ ues.Len emptyStore + Z.max 0 2.
Proof.
  eexists. split; [vm_compute; reflexivity|].
  edestruct (ues_more.CreateUEs_silent_and_bounded 2 emptyStore)
    as (Hwatchers & Hcells & Hlen & _); [vm_compute; reflexivity|].
  split; [exact Hwatchers|]. split; [exact Hcells|exact Hlen].
Defined.

(** X11 on the three UEs, cut down to one. *)
Lemma three_UEs_cut_down_to_one :
  ∃ s' removed events,
    ues.SetUECount 1 threeUEs = Returned s'
    ∧ NoDup removed
    ∧ Z.of_nat (length removed) = ues.Len threeUEs - 1
    ∧ (∀ imsi, ues.ues s' !! imsi
               = if decide (imsi ∈ removed) then None else ues.ues threeUEs !! imsi)
    ∧ ues.watchers s' = ues.watchers threeUEs ++ events
    ∧ ues_terms.deletedEvents threeUEs removed events
    ∧ ues.Len s' = 1.
Proof.
  apply (ues_more.SetUECount_shrinks_with_events 1 threeUEs); vm_compute;
    [split; discriminate | reflexivity].
Defined.

(** X12 on an empty store that is to hold two UEs. *)
Lemma empty_store_grows_to_two :
  ∃ s', ues.SetUECount 2 emptyStore = Returned s'
        ∧ ues.SetUECount 2 emptyStore = ues.CreateUEs (2 - ues.Len emptyStore) emptyStore
        ∧ ues.watchers s' = ues.watchers emptyStore
        ∧ ues.cellStore s'
          = (ues.cellStore emptyStore + Z.to_nat (2 - ues.Len emptyStore))%nat
        ∧ ues.Len emptyStore ≤ ues.Len s' ≤ 2.
Proof.
  eexists. split; [vm_compute; reflexivity|].
  apply (ues_more.SetUECount_grows_silently 2 emptyStore);
    [vm_compute; split; reflexivity | vm_compute; reflexivity].
Defined.

(** X13 on the three UEs and their cell. *)
Lemma lists_of_the_three_UEs :
  (ues.ListAllUEs threeUEs).1 ≡ₚ (map_to_list (ues.ues threeUEs)).*2
  ∧ Z.of_nat (length (ues.ListAllUEs threeUEs).1) = ues.Len threeUEs
  ∧ (ues.ListUEs 84325717505 threeUEs).1
    ≡ₚ filter (λ ue, UECell.ECGI (UE.Cell ue) = 84325717505)
         (map_to_list (ues.ues threeUEs)).*2.
Proof.
  destruct (ues_more.lists_of_UEs 84325717505 threeUEs) as (Hall & Hlen & Hlist & _).
  split; [exact Hall|]. split; [exact Hlen|exact Hlist].
Defined.

(** X15 on a request with a REPORT action, an INSERT action and an action
    of a type that the package does not name. *)
Lemma two_of_three_actions_are_listed :
  let actionList :=
    [e2appducontents.mkAction 7 RicactionType_RICACTION_TYPE_REPORT [];
     e2appducontents.mkAction 8 RicactionType_RICACTION_TYPE_INSERT [];
     e2appducontents.mkAction 9 5 []] in
  (kpm2.RICSubscription_actions actionList).1 = [7]
  ∧ (length (kpm2.RICSubscription_actions actionList).1
     + size (kpm2.RICSubscription_actions actionList).2 = 2)%nat
  ∧ (length (kpm2.RICSubscription_actions actionList).1
     + size (kpm2.RICSubscription_actions actionList).2 ≤ length actionList)%nat.
Proof.
  intros actionList. split; [vm_compute; reflexivity|].
  assert (NoDup ((λ action, int32 (e2appducontents.RicActionId action))
                   <$> actionList)) as Hids.
  { vm_compute. repeat (apply NoDup_cons; split;
                          [let Hin := fresh in
                           intros Hin;
                           repeat (apply elem_of_cons in Hin as [Hin|Hin]; [done|]);
                           by apply elem_of_nil in Hin|]).
    apply NoDup_nil_2. }
  destruct (kpm2_more.actions_are_partitioned actionList Hids) as (_ & Hsum & Hle).
  split; [|exact Hle]. etransitivity; [exact Hsum|]. vm_compute. reflexivity.
Defined.

(** X16 on an action definition that names the second cell, for the
    first. *)
Lemma definition_of_the_second_cell :
  let actionDefinition :=
    e2smkpmv2.E2SmKpmActionDefinition_ActionDefinitionFormat1
      (e2smkpmv2.mkFormat1 "84325717506"
         [e2smkpmv2.mkInfoItem (e2smkpmv2.MeasurementType_MeasName "RRC.Conn.Max") []]
         15 4711) in
  kpm2.createIndicationMessageFormat1 threeUEs 84325717505 [actionDefinition]
  = Returned (inl None).
Proof.
  intros actionDefinition.
  apply (kpm2_more.definitions_of_other_cells threeUEs 84325717505 [actionDefinition]).
  - discriminate.
  - intros f Hin%list_elem_of_singleton. injection Hin as ->.
    exists 84325717506. split; [lia|]. split; [vm_compute; discriminate|reflexivity].
Defined.

(** X18 on the first node with a closed E2 channel: the tick over the first
    cell ends with the error of the channel, and so does the tick over both
    cells. *)
Lemma tick_ends_at_the_closed_channel :
  let unavailable := errors.New errors.Unavailable "channel closed" in
  ∃ sent clock',
    @kpm2_emitter.sendRicIndication kpm pdus closedChannel
      (kpm2_emitter.mkClient (Node.with_Cells [84325717505] (mho.Node node1)) 314628
                             (mho.Subscriptions node1))
      threeUEs subscription1 [] 0
    = Returned (Some unavailable, sent, clock')
    ∧ @kpm2_emitter.sendRicIndication kpm pdus closedChannel
        (kpm2_emitter.mkClient
           (Node.with_Cells ([84325717505] ++ [84325717506]) (mho.Node node1)) 314628
           (mho.Subscriptions node1))
        threeUEs subscription1 [] 0
      = Returned (Some unavailable, sent, clock').
Proof.
  intros unavailable. do 2 eexists.
  split; [vm_compute; reflexivity|].
  apply (@kpm2_more.tick_ends_at_the_first_error kpm pdus closedChannel).
  vm_compute. reflexivity.
Defined.

(** X19 on a run of a second with one tick over the three UEs, after which
    the context of the E2 channel is done. *)
Lemma report_of_a_second :
  ∃ e',
    kpm2_emitter.reportIndication 1000 subscription1 []
      [kpm2_emitter.Ticker_C threeUEs; kpm2_emitter.Context_Done] emitter1
    = Returned (kpm2_emitter.Returns None, e')
    ∧ length (kpm2_emitter.indications e') = 2%nat
    ∧ kpm2_emitter.Subscriptions (kpm2_emitter.client e')
      = <[(10, 1, 5) := subscriptions.mk (10, 1, 5) (Some false)]>
          (kpm2_emitter.Subscriptions kpmNode1).
Proof.
  eexists. split; [vm_compute; reflexivity|]. split; [reflexivity|].
  assert (- 2 ^ 31 ≤ 1000 < 2 ^ 31) as Hinterval by lia.
  pose proof (kpm2_more.reportIndication_and_the_ticker 1000 subscription1 []
                [kpm2_emitter.Ticker_C threeUEs; kpm2_emitter.Context_Done] emitter1
                Hinterval) as Hticker.
  cbv zeta in Hticker.
  change (kpm2_emitter.Subscriptions (kpm2_emitter.client emitter1)
            !! subscriptions.NewID (subutils.ricInstanceID subscription1)
                                   (subutils.reqID subscription1)
                                   (subutils.ranFuncID subscription1))
    with (Some (subscriptions.mk (10, 1, 5) (Some true))) in Hticker.
  destruct Hticker as [_ Hset].
  apply (Hset ltac:(lia) (kpm2_emitter.Returns None)). vm_compute. reflexivity.
Defined.

(** X20 on a delete of the subscription after that run. *)
Lemma delete_after_the_report :
  ∃ r e',
    kpm2_emitter.reportIndication 1000 subscription1 []
      [kpm2_emitter.Ticker_C threeUEs] emitter1
    = Returned (r, e')
    ∧ kpm2.RICSubscriptionDelete
        (e2appducontents.mkDeleteRequest (e2appducontents.mkRequestId 1 10) 5)
        (kpm2_emitter.Subscriptions (kpm2_emitter.client e'))
      = Returned (@kpm2.mkDeleteResult pdus (Some deleteResponse1) None None,
                  <[(10, 1, 5) := subscriptions.mk (10, 1, 5) (Some false)]>
                    (kpm2_emitter.Subscriptions kpmNode1)).
Proof.
  do 2 eexists. split; [vm_compute; reflexivity|].
  assert (0 < 1000 < 2 ^ 31) as Hinterval by lia.
  apply (proj2 (kpm2_more.delete_and_the_emitter
                  (e2appducontents.mkDeleteRequest (e2appducontents.mkRequestId 1 10) 5)
                  deleteResponse1 1000 subscription1 []
                  [kpm2_emitter.Ticker_C threeUEs] emitter1
                  (subscriptions.mk (10, 1, 5) (Some true))
                  eq_refl eq_refl eq_refl eq_refl eq_refl Hinterval)
          kpm2_emitter.Waits).
  vm_compute. reflexivity.
Defined.

(** X21 on a tick of the first node over the three UEs. *)
Lemma tick_of_node1_reads_only :
  ∃ sent ueStore',
    mho.sendRicIndication node1 subscription1 threeUEs = Returned (sent, ueStore')
    ∧ ues.ues ueStore' = ues.ues threeUEs
    ∧ ues.watchers ueStore' = ues.watchers threeUEs
    ∧ ranges (ues.rt ueStore') = (ranges (ues.rt threeUEs) + 2)%nat.
Proof.
  do 2 eexists. split; [vm_compute; reflexivity|].
  edestruct (mho_more.tick_reads_only node1 subscription1 threeUEs)
    as (Hues & Hwatchers & _ & Hranges & _);
    [|vm_compute; reflexivity|].
  - vm_compute. apply NoDup_cons. split; [|apply NoDup_singleton].
    intros Hin%list_elem_of_singleton. discriminate.
  - split; [exact Hues|]. split; [exact Hwatchers|exact Hranges].
Defined.

(** X22 on a subscription that the first node does not hold. *)
Lemma tick_of_node1_for_another_subscription :
  ∃ ueStore',
    mho.sendRicIndication node1 subscription2 threeUEs = Returned ([], ueStore').
Proof.
  apply (proj1 (mho_more.tick_of_unknown_subscription node1 subscription2 threeUEs
                  eq_refl)).
Defined.

(** X24 on two of the three UEs. *)
Lemma ueIDs_of_two_UEs :
  let ue1 := ue 1000001 Rrcstatus_RRCSTATUS_CONNECTED [] in
  let ue2 := ue 1000002 Rrcstatus_RRCSTATUS_IDLE [] in
  mho_format2.ueID (mho_format2.indicationMessageFormat2 ue1)
  = mho_format2.ueID (mho_format2.indicationMessageFormat2 ue2)
  ↔ UE.IMSI ue1 = UE.IMSI ue2.
Proof.
  intros ue1 ue2.
  apply (mho_more.ueID_identifies_the_UE ue1 ue2); simpl; lia.
Defined.

(** X25 on the middle tower of the grid of three rows and three columns. *)
Lemma neighbors_of_the_middle_tower :
  ∃ neighbors,
    e2.makeNeighbors ("Tower-" +:+ Itoa 5) (e2.mkTowersParams 3 3 10)
    = Returned neighbors
    ∧ (∀ name, name ∈ neighbors
         ↔ ∃ k', 1 ≤ k' ≤ 3 * 3 ∧ e2_spec.adjacent 3 5 k'
                 ∧ name = "Tower-" +:+ Itoa k')
    ∧ "Tower-" +:+ Itoa 5 ∉ neighbors.
Proof. apply (e2_facts.neighbors_in_a_square_grid 3 5 10); lia. Defined.

(** X26 on the first two towers of that grid. *)
Lemma corner_and_edge_are_mutual :
  "Tower-" +:+ Itoa 2 ∈ ["Tower-2"; "Tower-4"]
  ↔ "Tower-" +:+ Itoa 1 ∈ ["Tower-1"; "Tower-3"; "Tower-5"].
Proof.
  apply (e2_facts.neighbors_are_mutual 3 1 2 10); [lia|lia|lia| |];
    vm_compute; reflexivity.
Defined.



End examples.
